(** * Event-coordination core of the chicken-coop IoT workshop

    A shallow embedding of four TypeScript modules and the properties
    their specification states about them:

    - [SharedMemory]   : src/mastra/tools/utils/shared-memory-tool.ts
    - [MqttSubscribe]  : src/mastra/tools/mqtt/mqtt-subscribe.ts
    - [CoopTempAlert]  : the coop-temp-alert tool (chicken-coop tools)
    - [FeedSchedule]   : the feed-schedule tool (chicken-coop tools)

    Further modules embed the tools around them:

    - [MqttTools]        : the subscription, connection and memory-bridge
                           tools (mqtt-subscribe.ts, mqtt-connection.ts,
                           mqtt-memory-bridge.ts)
    - [SharedMemoryTool] : the shared-memory tool with its three actions
    - [MqttPublish]      : src/mastra/tools/mqtt/mqtt-publish.ts
    - [CoopControls]     : the coop-controls tool (chicken-coop tools)
    - [FeederControl]    : the feeder-control tool (chicken-coop tools)

    Conventions of the embedding.
    - An instant ([Date], or the ISO string a [Date] is stored as) is the
      integer number of milliseconds since the epoch, a [Z].  The range
      limit of [Date] is not modelled.
    - A JavaScript number that is compared or stored in a payload is a
      rational ([Q]); every finite double is one, and [<], [>] and [===]
      on finite doubles agree with the order of [Q].  [NaN] and the
      infinities are not modelled, nor is the rounding of arithmetic.
    - Module-level mutable bindings ([Map]s, arrays, [let] variables) are
      fields of an explicit state that every operation takes and returns.
    - Every reading of the wall clock and every call of [Math.random] is
      an explicit argument of the operation that performs it.
    - A thrown [Error] is a value of the operation's result type.
    - A feeding interval is a whole number of hours.
    - Strings are byte strings; case folding touches ASCII letters only. *)

From Stdlib Require Import ZArith QArith Qround Qabs String Ascii List Lia Lqa.
From stdpp Require Import gmap strings list pretty.

Set Warnings "-register-all".
Local Open Scope Z_scope.

(** ** JavaScript values and string primitives *)

Module JS.

(** The values [JSON.parse] produces.  An object is the list of its own
    properties; a lookup takes the first binding of a key. *)
Inductive JSON : Type :=
| JNull
| JBool (b : bool)
| JNum (q : Q)
| JStr (s : string)
| JArr (items : list JSON)
| JObj (props : list (string * JSON)).

(** [x < y] on numbers. *)
Definition Qlt_bool (x y : Q) : bool := negb (Qle_bool y x).

(** [s.split("/")]: the empty string splits into one empty segment. *)
Fixpoint split (s : string) : list string :=
  match s with
  | EmptyString => [EmptyString]
  | String c rest =>
      if Ascii.eqb c "/"%char then EmptyString :: split rest
      else match split rest with
           | seg :: segs => String c seg :: segs
           | [] => [String c EmptyString]
           end
  end.

(** [hay.includes(needle)]. *)
Fixpoint includes (needle hay : string) : bool :=
  String.prefix needle hay
  || match hay with
     | EmptyString => false
     | String _ rest => includes needle rest
     end.

Definition lowerAscii (c : ascii) : ascii :=
  let n := nat_of_ascii c in
  if ((65 <=? n) && (n <=? 90))%nat then ascii_of_nat (n + 32) else c.

(** [s.toLowerCase()]. *)
Fixpoint toLowerCase (s : string) : string :=
  match s with
  | EmptyString => EmptyString
  | String c rest => String (lowerAscii c) (toLowerCase rest)
  end.

Definition isAlnum (c : ascii) : bool :=
  let n := nat_of_ascii c in
  (((48 <=? n) && (n <=? 57)) || ((65 <=? n) && (n <=? 90))
   || ((97 <=? n) && (n <=? 122)))%nat.

Fixpoint allChars (p : ascii -> bool) (s : string) : bool :=
  match s with
  | EmptyString => true
  | String c rest => p c && allChars p rest
  end.

Fixpoint mapChars (f : ascii -> ascii) (s : string) : string :=
  match s with
  | EmptyString => EmptyString
  | String c rest => String (f c) (mapChars f rest)
  end.

(** [typeof v === "object"]: true of [null], arrays and objects. *)
Definition typeofObject (v : JSON) : bool :=
  match v with
  | JNull | JArr _ | JObj _ => true
  | _ => false
  end.

(** Truthiness of a value in a condition. *)
Definition truthy (v : JSON) : bool :=
  match v with
  | JNull => false
  | JBool b => b
  | JNum q => negb (Qeq_bool q 0)
  | JStr s => negb (String.eqb s "")
  | JArr _ | JObj _ => true
  end.

Fixpoint assoc (k : string) (props : list (string * JSON)) : option JSON :=
  match props with
  | [] => None
  | (k', v) :: rest => if String.eqb k k' then Some v else assoc k rest
  end.

(** The element of an array whose index prints as [k]. *)
Fixpoint arrayIndex (k : string) (i : nat) (items : list JSON) : option JSON :=
  match items with
  | [] => None
  | v :: rest =>
      if String.eqb k (pretty i) then Some v else arrayIndex k (S i) rest
  end.

(** Outcome of the property access [v[k]]: [Thrown] is the [TypeError]
    of reading a property of [null]; [Got None] is [undefined].
    Inherited properties are functions or prototype objects, never
    [===] to a parsed value, and read as [undefined] here; the [length]
    of an array is a number. *)
Inductive Access : Type :=
| Thrown
| Got (v : option JSON).

Definition getProp (v : JSON) (k : string) : Access :=
  match v with
  | JNull => Thrown
  | JObj props => Got (assoc k props)
  | JArr items =>
      if String.eqb k "length" then Got (Some (JNum (inject_Z (Z.of_nat (length items)))))
      else Got (arrayIndex k 0 items)
  | JStr _ | JNum _ | JBool _ => Got None
  end.

(** [a === b] where [b] is a freshly parsed value and [a] the result of
    a property access: primitives compare by value, two distinct
    objects or arrays are never identical, [undefined] equals nothing
    that [JSON.parse] yields. *)
Definition strictEq (a : option JSON) (b : JSON) : bool :=
  match a, b with
  | Some JNull, JNull => true
  | Some (JBool x), JBool y => Bool.eqb x y
  | Some (JNum x), JNum y => Qeq_bool x y
  | Some (JStr x), JStr y => String.eqb x y
  | _, _ => false
  end.

(** [x.toFixed(1)] of the exact value [x]: the nearest tenth, the larger
    one on a tie. *)
Definition toFixed1 (x : Q) : string :=
  let n := Qfloor (x * 10 + (1 # 2)) in
  let body (m : Z) := pretty (m / 10) +:+ "." +:+ pretty (m mod 10) in
  if n <? 0 then "-" +:+ body (- n) else body n.

(** [Math.ceil(a / b)] for integers [a] and a positive integer [b]. *)
Definition ceilDiv (a b : Z) : Z := - ((- a) / b).

End JS.

Export JS.

(** ** Shared event store (shared-memory-tool.ts) *)

Module SharedMemory.

(** An element of [sensorMemoryStore]. *)
Record SensorEvent : Type := {
  topic : string;
  data : JSON;
  timestamp : Z;
  analysis : string
}.

(** [sensorMemoryStore], oldest entry first; it starts empty. *)
Definition sensorMemoryStore : Type := list SensorEvent.

Definition initialStore : sensorMemoryStore := [].

(** [store.push(e); if (store.length > 100) store.shift();] *)
Definition pushAndTrim (e : SensorEvent) (store : sensorMemoryStore)
  : sensorMemoryStore :=
  let pushed := store ++ [e] in
  if (100 <? length pushed)%nat then tail pushed else pushed.

(** [addSensorData(topic, data, analysis)], at clock reading [now]. *)
Definition addSensorData (topic0 : string) (data0 : JSON) (analysis0 : string)
    (now : Z) (store : sensorMemoryStore) : sensorMemoryStore :=
  pushAndTrim {| topic := topic0; data := data0; timestamp := now;
                 analysis := analysis0 |} store.

(** [getSensorData()]: a copy of the store. *)
Definition getSensorData (store : sensorMemoryStore) : list SensorEvent := store.

(** Result of the tool's [store] action. *)
Record StoreReply : Type := {
  success : bool;
  message : string;
  count : option nat
}.

(** [sharedMemoryTool.execute] with [action = 'store'].  [topic] and
    [data] are optional inputs; a missing or falsy one is refused. *)
Definition execute_store (topic0 : option string) (data0 : option JSON)
    (analysis0 : option string) (now : Z) (store : sensorMemoryStore)
  : sensorMemoryStore * StoreReply :=
  match topic0, data0 with
  | Some t, Some d =>
      if negb (String.eqb t "") && truthy d then
        let a := match analysis0 with
                 | Some a => if String.eqb a "" then "No analysis provided" else a
                 | None => "No analysis provided"
                 end in
        let store' := pushAndTrim {| topic := t; data := d; timestamp := now;
                                     analysis := a |} store in
        (store', {| success := true; message := "Stored data for " +:+ t;
                    count := Some (length store') |})
      else
        (store, {| success := false;
                   message := "Topic and data required for storing";
                   count := None |})
  | _, _ =>
      (store, {| success := false;
                 message := "Topic and data required for storing";
                 count := None |})
  end.

(** [sharedMemoryTool.execute] with [action = 'list_all']: the last 20
    entries and the total count. *)
Definition execute_list_all (store : sensorMemoryStore)
  : list SensorEvent * nat :=
  (skipn (length store - 20) store, length store).

(** The two writers of the store: the tool's [store] action and
    [addSensorData]. *)
Inductive StoreOp : Type :=
| ToolStore (topic0 : option string) (data0 : option JSON)
    (analysis0 : option string) (now : Z)
| AddSensorData (topic0 : string) (data0 : JSON) (analysis0 : string) (now : Z).

Definition step (store : sensorMemoryStore) (op : StoreOp) : sensorMemoryStore :=
  match op with
  | ToolStore t d a now => fst (execute_store t d a now store)
  | AddSensorData t d a now => addSensorData t d a now store
  end.

(** The store after a sequence of writes. *)
Definition run (ops : list StoreOp) (store : sensorMemoryStore)
  : sensorMemoryStore :=
  fold_left step ops store.

(** The event a write appends, if it appends one. *)
Definition appended (op : StoreOp) : list SensorEvent :=
  match op with
  | ToolStore (Some t) (Some d) a now =>
      if negb (String.eqb t "") && truthy d then
        [{| topic := t; data := d; timestamp := now;
            analysis := match a with
                        | Some a => if String.eqb a "" then "No analysis provided" else a
                        | None => "No analysis provided"
                        end |}]
      else []
  | ToolStore _ _ _ _ => []
  | AddSensorData t d a now => [{| topic := t; data := d; timestamp := now; analysis := a |}]
  end.

End SharedMemory.

(** ** Topic matcher and dispatcher (mqtt-subscribe.ts) *)

Module MqttSubscribe.

(** [interface Subscription]. *)
Record Subscription : Type := {
  topic : string;
  qos : Z;
  filter : option (list (string * JSON));
  paused : bool
}.

(** [subscriptions]: a [Map] keyed by topic pattern, in insertion order. *)
Definition subscriptions : Type := list (string * Subscription).

(** [subscriptions.set(k, v)]: an existing key keeps its position. *)
Fixpoint mapSet (k : string) (v : Subscription) (m : subscriptions)
  : subscriptions :=
  match m with
  | [] => [(k, v)]
  | (k', v') :: rest =>
      if String.eqb k k' then (k, v) :: rest else (k', v') :: mapSet k v rest
  end.

(** [subscriptions.delete(k)]. *)
Definition mapDelete (k : string) (m : subscriptions) : subscriptions :=
  List.filter (fun kv => negb (String.eqb k (fst kv))) m.

(** The registry update of a successful [subscribe] acknowledgement. *)
Definition subscribed (topicStr : string) (qos0 : Z)
    (filter0 : option (list (string * JSON))) (m : subscriptions)
  : subscriptions :=
  mapSet topicStr {| topic := topicStr; qos := qos0; filter := filter0;
                     paused := false |} m.

(** [pauseSub.paused = true] and [resumeSub.paused = false]. *)
Definition setPaused (topicStr : string) (p : bool) (m : subscriptions)
  : subscriptions :=
  List.map (fun kv =>
         if String.eqb topicStr (fst kv)
         then (fst kv, {| topic := topic (snd kv); qos := qos (snd kv);
                          filter := filter (snd kv); paused := p |})
         else kv) m.

(** The body of the loop of [topicMatches] from index [i] on:
    [actualRest] and [subRest] are [actualParts] and [subParts] without
    their first [i] elements.  [Some b] is [return b] from inside the
    loop, [None] is the loop running to its end. *)
Fixpoint matchFrom (actualRest subRest : list string) : option bool :=
  match subRest with
  | [] => None
  | p :: ps =>
      if String.eqb p "#" then Some true
      else if String.eqb p "+" then matchFrom (tail actualRest) ps
      else match actualRest with
           | [] => Some false
           | a :: rest => if String.eqb p a then matchFrom rest ps else Some false
           end
  end.

(** [topicMatches(actualTopic, subscriptionTopic)]. *)
Definition topicMatches (actualTopic subscriptionTopic : string) : bool :=
  let actualParts := split actualTopic in
  let subParts := split subscriptionTopic in
  match matchFrom actualParts subParts with
  | Some b => b
  | None => Nat.eqb (length actualParts) (length subParts)
  end.

(** The test [/^[a-zA-Z0-9_-]+$/.test(p) && p.length > 2]. *)
Definition looksLikeDeviceId (p : string) : bool :=
  negb (String.eqb p "")
  && allChars (fun c => isAlnum c || Ascii.eqb c "_" || Ascii.eqb c "-") p
  && (2 <? String.length p)%nat.

(** [extractDeviceId(topic)]. *)
Definition extractDeviceId (topic0 : string) : string :=
  let parts := split topic0 in
  let part (i : nat) := nth i parts "" in
  if String.eqb (part 0%nat) "devices" && (2 <=? length parts)%nat then part 1%nat
  else if String.eqb (part 0%nat) "sensors" && (3 <=? length parts)%nat then part 2%nat
  else if String.eqb (part 0%nat) "home" && (4 <=? length parts)%nat then part 3%nat
  else
    match (if (2 <=? length parts)%nat then List.find looksLikeDeviceId parts
           else None) with
    | Some p => p
    | None =>
        if String.eqb (part 0%nat) ""
        then "device_" +:+ mapChars (fun c => if isAlnum c then c else "_"%char) topic0
        else part 0%nat
    end.

(** Truthiness of [message.k]; a missing property is [undefined]. *)
Definition truthyProp (message : JSON) (k : string) : bool :=
  match getProp message k with
  | Got (Some v) => truthy v
  | _ => false
  end.

(** [message.k !== undefined]. *)
Definition definedProp (message : JSON) (k : string) : bool :=
  match getProp message k with
  | Got (Some _) => true
  | _ => false
  end.

(** [determineMessageType(topic, message)]. *)
Definition determineMessageType (topic0 : string) (message : JSON) : string :=
  let lowerTopic := toLowerCase topic0 in
  let has (w : string) := includes w lowerTopic in
  if has "telemetry" || has "data" || has "sensors" then "telemetry"
  else if has "status" || has "state" then "status"
  else if has "command" || has "control" then "command"
  else if has "alert" || has "alarm" || has "error" then "alert"
  else if typeofObject message && truthy message then
    let t := truthyProp message in
    if t "temperature" || t "humidity" || t "pressure" || t "sensor_data"
    then "telemetry"
    else if t "status" || t "state" || definedProp message "online" then "status"
    else if t "command" || t "action" || t "control" then "command"
    else if t "alert" || t "alarm" || t "error" || t "severity" then "alert"
    else "other"
  else "other".

(** Outcome of [Object.entries(filter).every(...)]. *)
Inductive FilterVerdict : Type :=
| Matches
| Mismatch
| Raised.

(** [entries.every(([key, value]) => parsedMessage[key] === value)]: it
    stops at the first entry that differs, and reading a property of
    [null] throws. *)
Fixpoint everyEntry (parsedMessage : JSON) (entries : list (string * JSON))
  : FilterVerdict :=
  match entries with
  | [] => Matches
  | (key, value) :: rest =>
      match getProp parsedMessage key with
      | Thrown => Raised
      | Got a => if strictEq a value then everyEntry parsedMessage rest
                 else Mismatch
      end
  end.

Section Dispatch.

(** [JSON.parse] of the platform; [None] is its [SyntaxError]. *)
Variable JSON_parse : string -> option JSON.

(** The [try { JSON.parse(..) } catch { message.toString() }] step. *)
Definition parseMessage (raw : string) : JSON :=
  match JSON_parse raw with
  | Some v => v
  | None => JStr raw
  end.

(** The filter step of one subscription: the filter is consulted only
    when one is configured and the parsed message is an object. *)
Definition filterVerdict (subscription : Subscription) (parsedMessage : JSON)
  : FilterVerdict :=
  match filter subscription with
  | Some f =>
      if typeofObject parsedMessage then everyEntry parsedMessage f else Matches
  | None => Matches
  end.

(** The callback [handleMessage] runs for one matching subscription.
    A mismatch returns early; an exception is caught and logged. *)
Definition deliver (topic0 raw : string) (now : Z)
    (store : SharedMemory.sensorMemoryStore) (subscription : Subscription)
  : SharedMemory.sensorMemoryStore :=
  if paused subscription then store
  else
    let parsedMessage := parseMessage raw in
    match filterVerdict subscription parsedMessage with
    | Matches =>
        let analysis :=
          "Received " +:+ determineMessageType topic0 parsedMessage
          +:+ " message from " +:+ extractDeviceId topic0 in
        SharedMemory.addSensorData topic0 parsedMessage analysis now store
    | Mismatch => store
    | Raised => store
    end.

(** [handleMessage(topic, message)] at clock reading [now]. *)
Definition handleMessage (topic0 raw : string) (now : Z) (subs : subscriptions)
    (store : SharedMemory.sensorMemoryStore) : SharedMemory.sensorMemoryStore :=
  let matchingSubscriptions :=
    List.filter (fun kv => topicMatches topic0 (fst kv)) subs in
  fold_left (deliver topic0 raw now) (List.map snd matchingSubscriptions) store.

(** Whether one subscription stores the message. *)
Definition accepts (raw : string) (subscription : Subscription) : bool :=
  negb (paused subscription)
  && match filterVerdict subscription (parseMessage raw) with
     | Matches => true
     | _ => false
     end.

End Dispatch.

End MqttSubscribe.

(** ** Temperature safety evaluator (coop-temp-alert tool) *)

Module CoopTempAlert.

(** [interface TempReading].  The temperature is whatever value the
    payload carried; the declared type is [number]. *)
Record TempReading : Type := {
  temperature : JSON;
  timestamp : Z;
  source : string
}.

Definition STALE_DATA_THRESHOLD : Z := 2 * 60 * 1000.
Definition RATE_LIMIT_INTERVAL : Z := 5 * 1000.

(** The module's mutable bindings: [tempCache] and [lastCallTime]. *)
Record State : Type := {
  tempCache : gmap string TempReading;
  lastCallTime : Z
}.

Definition initialState : State := {| tempCache := ∅; lastCallTime := 0 |}.

(** What the platform supplies during one call of the tool. *)
Record Env : Type := {
  now : Z;           (* [Date.now()] on entry to [execute] *)
  cacheNow : Z;      (* [new Date()] in [getLatestTemperature] *)
  simNow : Z;        (* [new Date()] of a simulated reading *)
  hour : Z;          (* [new Date().getHours()] *)
  random1 : Q;       (* first [Math.random()] *)
  random2 : Q        (* second [Math.random()] *)
}.

Inductive Status : Type := OK | LOW | HIGH | STALE.

(** The tool's output object. *)
Record Output : Type := {
  current : JSON;
  status : Status;
  message : string;
  out_timestamp : Z
}.

(** How a call ends.  [RateLimit w] and [TypeError] are thrown errors;
    [NonNumeric] marks a fresh reading whose temperature is not a number,
    where JavaScript would coerce and the embedding stops. *)
Inductive Result : Type :=
| Ok (out : Output)
| RateLimit (waitTime : Z)
| TypeError
| NonNumeric.

(** The predicate of the [filter] in [fetchFromSharedMemory]:
    [entry.topic.includes('temp') && entry.data.temperature !== undefined].
    [None] is the [TypeError] of a [null] payload under such a topic. *)
Definition isTempEntry (entry : SharedMemory.SensorEvent) : option bool :=
  if includes "temp" (SharedMemory.topic entry) then
    match getProp (SharedMemory.data entry) "temperature" with
    | Thrown => None
    | Got (Some _) => Some true
    | Got None => Some false
    end
  else Some false.

(** [sensorData.filter(...)], which stops at the first exception. *)
Fixpoint filterTemp (sensorData : list SharedMemory.SensorEvent)
  : option (list SharedMemory.SensorEvent) :=
  match sensorData with
  | [] => Some []
  | entry :: rest =>
      match isTempEntry entry with
      | None => None
      | Some keep =>
          match filterTemp rest with
          | None => None
          | Some kept => Some (if keep then entry :: kept else kept)
          end
      end
  end.

(** Insertion of [e], which stood before every element of [sorted] in
    the array, for the comparator [(a, b) => time(b) - time(a)]. *)
Fixpoint insertDesc (e : SharedMemory.SensorEvent)
    (sorted : list SharedMemory.SensorEvent) : list SharedMemory.SensorEvent :=
  match sorted with
  | [] => [e]
  | x :: rest =>
      if SharedMemory.timestamp x <=? SharedMemory.timestamp e
      then e :: x :: rest
      else x :: insertDesc e rest
  end.

(** [.sort((a, b) => time(b) - time(a))]: newest first, stable. *)
Definition sortDesc (l : list SharedMemory.SensorEvent)
  : list SharedMemory.SensorEvent :=
  fold_right insertDesc [] l.

(** How [fetchFromSharedMemory] ends. *)
Inductive Fetched : Type :=
| FetchThrew
| FetchNull
| FetchReading (r : TempReading).

(** The reading built from the chosen entry. *)
Definition readingOf (latest : SharedMemory.SensorEvent) : TempReading :=
  {| temperature := match getProp (SharedMemory.data latest) "temperature" with
                    | Got (Some v) => v
                    | _ => JNull
                    end;
     timestamp := SharedMemory.timestamp latest;
     source := "mqtt-shared-memory" |}.

(** [fetchFromSharedMemory(coopId)] over the copy [getSensorData()]
    returned. *)
Definition fetchFromSharedMemory (coopId : string)
    (store : SharedMemory.sensorMemoryStore) : Fetched :=
  let sensorData := SharedMemory.getSensorData store in
  match filterTemp sensorData with
  | None => FetchThrew
  | Some filtered =>
      match sortDesc filtered with
      | [] => FetchNull
      | latest :: _ => FetchReading (readingOf latest)
      end
  end.

(** [Math.round(x)]. *)
Definition mathRound (x : Q) : Z := Qfloor (x + (1 # 2)).

(** [generateSimulatedReading()]. *)
Definition generateSimulatedReading (env : Env) : TempReading :=
  let h := hour env in
  let baseTemp : Q :=
    if (6 <=? h) && (h <? 10) then (65 + random1 env * 10)%Q
    else if (10 <=? h) && (h <? 16) then (75 + random1 env * 15)%Q
    else if (16 <=? h) && (h <? 20) then (70 + random1 env * 10)%Q
    else (60 + random1 env * 10)%Q in
  let baseTemp := (baseTemp + (random2 env - (1 # 2)) * 5)%Q in
  {| temperature := JNum (inject_Z (mathRound (baseTemp * 10)) / 10)%Q;
     timestamp := simNow env;
     source := "simulated" |}.

(** [getLatestTemperature(coopId)]: the cache entry when its reading is
    less than 30 seconds old, else the store or a simulated reading,
    which is then cached under [coopId].  [None] is a thrown error. *)
Definition getLatestTemperature (coopId : string) (env : Env)
    (store : SharedMemory.sensorMemoryStore) (cache : gmap string TempReading)
  : gmap string TempReading * option TempReading :=
  let fresh :=
    match cache !! coopId with
    | Some cached =>
        if cacheNow env - timestamp cached <? 30000 then Some cached else None
    | None => None
    end in
  match fresh with
  | Some cached => (cache, Some cached)
  | None =>
      match fetchFromSharedMemory coopId store with
      | FetchThrew => (cache, None)
      | FetchReading reading => (<[coopId := reading]> cache, Some reading)
      | FetchNull =>
          let reading := generateSimulatedReading env in
          (<[coopId := reading]> cache, Some reading)
      end
  end.

(** The status and message of a fresh numeric reading. *)
Definition classify (t minSafe maxSafe : Q) : Status * string :=
  if Qlt_bool t minSafe then
    (LOW,
     "🥶 ALERT: Temperature is " +:+ toFixed1 (minSafe - t)
     +:+ "°F below safe minimum! "
     +:+ "Actions needed: 1) Check heating system 2) Add insulation 3) Check for drafts "
     +:+ "4) Consider heat lamp if below 20°F")
  else if Qlt_bool maxSafe t then
    (HIGH,
     "🔥 ALERT: Temperature is " +:+ toFixed1 (t - maxSafe)
     +:+ "°F above safe maximum! "
     +:+ "Actions needed: 1) Increase ventilation 2) Provide fresh water 3) Add shade "
     +:+ "4) Consider misting system if above 100°F")
  else
    let optimal := ((minSafe + maxSafe) / 2)%Q in
    let deviation := Qabs (t - optimal) in
    (OK,
     if Qlt_bool deviation 5
     then "✅ Temperature is optimal for chicken comfort and egg production"
     else if Qlt_bool t optimal
     then "✅ Temperature is safe but slightly cool. Chickens are comfortable."
     else "✅ Temperature is safe but slightly warm. Ensure adequate water supply.").

(** [coopTempAlertTool.execute] with the inputs [minSafe], [maxSafe] and
    [coopId] (the schema has filled in their defaults). *)
Definition execute (minSafe maxSafe : Q) (coopId : string) (env : Env)
    (store : SharedMemory.sensorMemoryStore) (st : State) : State * Result :=
  if now env - lastCallTime st <? RATE_LIMIT_INTERVAL then
    (st, RateLimit (ceilDiv (RATE_LIMIT_INTERVAL - (now env - lastCallTime st)) 1000))
  else
    let '(cache', got) := getLatestTemperature coopId env store (tempCache st) in
    let st' := {| tempCache := cache'; lastCallTime := now env |} in
    match got with
    | None => (st', TypeError)
    | Some reading =>
        let dataAge := now env - timestamp reading in
        if STALE_DATA_THRESHOLD <? dataAge then
          (st', Ok {| current := temperature reading;
                      status := STALE;
                      message := "⚠️ Warning: Temperature data is "
                                 +:+ pretty (dataAge / 1000)
                                 +:+ " seconds old. Check sensor connection.";
                      out_timestamp := timestamp reading |})
        else
          match temperature reading with
          | JNum t =>
              let '(s, m) := classify t minSafe maxSafe in
              (st', Ok {| current := temperature reading; status := s;
                          message := m; out_timestamp := timestamp reading |})
          | _ => (st', NonNumeric)
          end
    end.

(** One call of the tool as it arrives. *)
Record Call : Type := {
  call_minSafe : Q;
  call_maxSafe : Q;
  call_coopId : string;
  call_env : Env;
  call_store : SharedMemory.sensorMemoryStore
}.

Definition exec (st : State) (c : Call) : State * Result :=
  execute (call_minSafe c) (call_maxSafe c) (call_coopId c) (call_env c)
          (call_store c) st.

(** The state after a sequence of calls. *)
Definition runCalls (calls : list Call) (st : State) : State :=
  fold_left (fun s c => fst (exec s c)) calls st.

Definition rateLimited (r : Result) : bool :=
  match r with
  | RateLimit _ => true
  | _ => false
  end.

(** The clock reading of the latest call of [calls] that the limiter let
    through, starting from [last]. *)
Fixpoint lastAccepted (calls : list Call) (st : State) (last : Z) : Z :=
  match calls with
  | [] => last
  | c :: rest =>
      lastAccepted rest (fst (exec st c))
        (if rateLimited (snd (exec st c)) then last else now (call_env c))
  end.

End CoopTempAlert.

(** ** Feed scheduler (feed-schedule tool) *)

Module FeedSchedule.

(** [interface FeedingRecord]. *)
Record FeedingRecord : Type := {
  lastFedAt : Z;
  nextFeedAt : Z;
  coopId : string;
  intervalHours : Z
}.

(** The object handed to the approval gate. *)
Record ApprovalRequest : Type := {
  action : string;
  reason : string;
  req_coopId : string;
  req_intervalHours : Z
}.

(** A pending [setTimeout] of the event loop: its handle, the coop its
    callback closes over, and the instant it fires. *)
Record Timer : Type := {
  handle : nat;
  timer_coopId : string;
  fireAt : Z
}.

(** The module's mutable bindings, [feedingRecords], [scheduledReminders]
    and [approvalCallback], with the timers pending in the event loop and
    the next fresh handle.  The callback is a function that answers
    approve or deny; a callback that fails is not modelled. *)
Record State : Type := {
  feedingRecords : gmap string FeedingRecord;
  scheduledReminders : gmap string nat;
  approvalCallback : option (ApprovalRequest -> bool);
  timers : list Timer;
  nextHandle : nat
}.

Definition initialState : State :=
  {| feedingRecords := ∅; scheduledReminders := ∅; approvalCallback := None;
     timers := []; nextHandle := 0 |}.

(** What a call does to the outside, in order. *)
Inductive Event : Type :=
| GateAsked (request : ApprovalRequest) (approved : bool)
| TimerCleared (h : nat)
| TimerArmed (h : nat) (coop : string) (delay : Z).

(** The errors [execute] throws.  The first four are the [Error]s the
    module constructs; [NotAFunction] is the [TypeError] of a call whose
    callee is not a function. *)
Inductive Error : Type :=
| InvalidInterval
| InvalidTimestamp
| NoFeedingHistory
| ApprovalRequired (request : ApprovalRequest)
| NotAFunction.

(** The message of a thrown error (the approval text is abridged to its
    first line). *)
Definition errorMessage (e : Error) : string :=
  match e with
  | InvalidInterval => "Interval must be between 1 and 48 hours"
  | InvalidTimestamp => "Invalid ISO timestamp for lastFedAt"
  | NoFeedingHistory =>
      "No feeding history found. Please provide lastFedAt timestamp."
  | ApprovalRequired request =>
      "🔔 APPROVAL REQUIRED: " +:+ reason request +:+ ". "
  | NotAFunction => "scheduleReminder is not a function"
  end.

(** The tool's input after the schema has filled in its defaults.  The
    interval is a whole number of hours. *)
Record Input : Type := {
  in_lastFedAt : option string;
  in_intervalHours : Z;
  in_scheduleReminder : bool;
  in_coopId : string
}.

(** The tool's output object; the two instants are returned as ISO
    strings. *)
Record Output : Type := {
  out_lastFedAt : Z;
  nextAt : Z;
  due : bool;
  message : string;
  reminderScheduled : bool
}.

Definition MAX_TIMEOUT : Z := 2147483647.

(** [clearTimeout(h)]. *)
Definition clearTimeout (h : nat) (pending : list Timer) : list Timer :=
  List.filter (fun t => negb (Nat.eqb (handle t) h)) pending.

(** The function [scheduleReminder(coopId, feedTime)] of lines 130 to
    151, with [armNow] the value of [Date.now()] it reads.  The module
    does not export it and [execute] does not reach it (see [execute]),
    so no call of the tool runs it. *)
Definition scheduleReminder (coop : string) (feedTime armNow : Z) (st : State)
  : State * list Event * bool :=
  let '(pending, cleared) :=
    match scheduledReminders st !! coop with
    | Some existing => (clearTimeout existing (timers st), [TimerCleared existing])
    | None => (timers st, [])
    end in
  let timeUntil := feedTime - armNow in
  if timeUntil <=? 0 then
    ({| feedingRecords := feedingRecords st;
        scheduledReminders := scheduledReminders st;
        approvalCallback := approvalCallback st;
        timers := pending;
        nextHandle := nextHandle st |},
     cleared, false)
  else
    let delay := Z.min timeUntil MAX_TIMEOUT in
    let timeout := nextHandle st in
    ({| feedingRecords := feedingRecords st;
        scheduledReminders := <[coop := timeout]> (scheduledReminders st);
        approvalCallback := approvalCallback st;
        timers := pending ++ [{| handle := timeout; timer_coopId := coop;
                                 fireAt := armNow + delay |}];
        nextHandle := S (nextHandle st) |},
     cleared ++ [TimerArmed timeout coop delay], true).

(** The timer [h] fires: the callback [scheduleReminder] hands to
    [setTimeout] deletes the coop's entry of [scheduledReminders].  A
    timer that is not pending does not fire. *)
Definition fireTimer (h : nat) (st : State) : State :=
  match List.find (fun t => Nat.eqb (handle t) h) (timers st) with
  | Some t =>
      {| feedingRecords := feedingRecords st;
         scheduledReminders := delete (timer_coopId t) (scheduledReminders st);
         approvalCallback := approvalCallback st;
         timers := clearTimeout h (timers st);
         nextHandle := nextHandle st |}
  | None => st
  end.

(** [setApprovalCallback(callback)]. *)
Definition setApprovalCallback (callback : ApprovalRequest -> bool) (st : State)
  : State :=
  {| feedingRecords := feedingRecords st;
     scheduledReminders := scheduledReminders st;
     approvalCallback := Some callback;
     timers := timers st;
     nextHandle := nextHandle st |}.

(** [requestApproval(request)]: without a registered callback it throws. *)
Definition requestApproval (request : ApprovalRequest) (st : State)
  : Error + bool :=
  match approvalCallback st with
  | Some callback => inr (callback request)
  | None => inl (ApprovalRequired request)
  end.

(** The status message before any reminder notice. *)
Definition statusMessage (record : FeedingRecord) (interval now : Z) : string :=
  let isDue := nextFeedAt record <=? now in
  let timeUntilNext := nextFeedAt record - now in
  let hours := (inject_Z timeUntilNext / 3600000)%Q in
  let hoursUntilNext := if Qlt_bool hours 0 then 0%Q else hours in
  if isDue then
    let overdueMins := (now - nextFeedAt record) / 60000 in
    if 60 <? overdueMins then
      "🚨 OVERDUE: Feeding is " +:+ pretty (overdueMins / 60) +:+ " hours "
      +:+ pretty (Z.rem overdueMins 60) +:+ " minutes overdue! Feed immediately."
    else
      "⏰ Feeding is due now! Chickens were last fed " +:+ pretty interval
      +:+ " hours ago."
  else if Qlt_bool hoursUntilNext 1 then
    "📢 Next feeding in " +:+ pretty (Qceiling (hoursUntilNext * 60))
    +:+ " minutes. Prepare feed soon."
  else
    "✅ Next feeding scheduled in " +:+ toFixed1 hoursUntilNext
    +:+ " hours. Chickens are on schedule.".

Definition deniedNotice : string :=
  " ⚠️ Reminder not scheduled (requires approval for intervals < 6 hours).".

Section Execute.

(** [new Date(s).getTime()] of the platform; [None] is [NaN]. *)
Variable Date_parse : string -> option Z.

(** Lines 42 to 69 of [execute]: the interval check, then the record the
    call works on, replaced from [lastFedAt] when that is a non-empty
    string and read from [feedingRecords] otherwise. *)
Definition resolveRecord (inp : Input) (st : State)
  : State * (Error + FeedingRecord) :=
  if (in_intervalHours inp <? 1) || (48 <? in_intervalHours inp) then
    (st, inl InvalidInterval)
  else
    let supplied :=
      match in_lastFedAt inp with
      | Some s => if String.eqb s "" then None else Some s
      | None => None
      end in
    match supplied with
    | Some s =>
        match Date_parse s with
        | None => (st, inl InvalidTimestamp)
        | Some fedTime =>
            let nextTime := fedTime + in_intervalHours inp * 60 * 60 * 1000 in
            let record := {| lastFedAt := fedTime; nextFeedAt := nextTime;
                             coopId := in_coopId inp;
                             intervalHours := in_intervalHours inp |} in
            ({| feedingRecords := <[in_coopId inp := record]> (feedingRecords st);
                scheduledReminders := scheduledReminders st;
                approvalCallback := approvalCallback st;
                timers := timers st;
                nextHandle := nextHandle st |},
             inr record)
        end
    | None =>
        match feedingRecords st !! in_coopId inp with
        | Some record => (st, inr record)
        | None => (st, inl NoFeedingHistory)
        end
    end.

(** The request [execute] sends to the gate. *)
Definition approvalRequestOf (inp : Input) : ApprovalRequest :=
  {| action := "schedule_reminder";
     reason := "Short feeding interval (" +:+ pretty (in_intervalHours inp)
               +:+ " hours) may cause overfeeding";
     req_coopId := in_coopId inp;
     req_intervalHours := in_intervalHours inp |}.

(** [feedScheduleTool.execute], with [now] the [new Date()] of the
    status calculation.  Line 40 destructures [scheduleReminder] from the
    input, and inside [execute] that boolean shadows the function of
    line 130.  The branch of line 95 is entered when it is [true], so
    where lines 108 and 112 write
    [scheduleReminder(coopId, record.nextFeedAt)] the value [true] is
    applied: the call throws a [TypeError], after the gate has answered
    and before the notice of line 109 or 113 is appended. *)
Definition execute (inp : Input) (now : Z) (st : State)
  : State * list Event * (Error + Output) :=
  match resolveRecord inp st with
  | (st1, inl e) => (st1, [], inl e)
  | (st1, inr record) =>
      let isDue := nextFeedAt record <=? now in
      let message0 := statusMessage record (in_intervalHours inp) now in
      let reply (m : string) (scheduled : bool) : Error + Output :=
        inr {| out_lastFedAt := lastFedAt record; nextAt := nextFeedAt record;
               due := isDue; message := m; reminderScheduled := scheduled |} in
      if in_scheduleReminder inp && negb isDue then
        if in_intervalHours inp <? 6 then
          match requestApproval (approvalRequestOf inp) st1 with
          | inl e => (st1, [], inl e)
          | inr false =>
              (st1, [GateAsked (approvalRequestOf inp) false],
               reply (message0 +:+ deniedNotice) false)
          | inr true =>
              (st1, [GateAsked (approvalRequestOf inp) true], inl NotAFunction)
          end
        else (st1, [], inl NotAFunction)
      else (st1, [], reply message0 false)
  end.

End Execute.

(** A parser of the form [YYYY-MM-DDTHH:MM:SSZ] of ISO timestamps, one
    instance of the platform's [Date] parser on that form. *)
Definition digit (c : ascii) : option Z :=
  let n := nat_of_ascii c in
  if ((48 <=? n) && (n <=? 57))%nat then Some (Z.of_nat n - 48) else None.

Fixpoint number (acc : Z) (cs : list ascii) : option Z :=
  match cs with
  | [] => Some acc
  | c :: rest =>
      match digit c with
      | Some d => number (acc * 10 + d) rest
      | None => None
      end
  end.

Definition leapYear (y : Z) : bool :=
  ((y mod 4 =? 0) && negb (y mod 100 =? 0)) || (y mod 400 =? 0).

Definition daysInMonth (y m : Z) : Z :=
  if m =? 2 then (if leapYear y then 29 else 28)
  else if (m =? 4) || (m =? 6) || (m =? 9) || (m =? 11) then 30
  else 31.

(** Days from 1970-01-01 to the civil date [y-m-d]. *)
Definition daysFromCivil (y m d : Z) : Z :=
  let y := if m <=? 2 then y - 1 else y in
  let era := y / 400 in
  let yoe := y - era * 400 in
  let doy := (153 * (if 2 <? m then m - 3 else m + 9) + 2) / 5 + d - 1 in
  let doe := yoe * 365 + yoe / 4 - yoe / 100 + doy in
  era * 146097 + doe - 719468.

Definition isoParse (s : string) : option Z :=
  match list_ascii_of_string s with
  | [y1; y2; y3; y4; d1; m1; m2; d2; a1; a2; t; h1; h2; c1; n1; n2; c2; s1; s2; z] =>
      if Ascii.eqb d1 "-" && Ascii.eqb d2 "-" && Ascii.eqb t "T"
         && Ascii.eqb c1 ":" && Ascii.eqb c2 ":" && Ascii.eqb z "Z" then
        match number 0 [y1; y2; y3; y4], number 0 [m1; m2], number 0 [a1; a2],
              number 0 [h1; h2], number 0 [n1; n2], number 0 [s1; s2] with
        | Some y, Some m, Some d, Some h, Some mi, Some sec =>
            if (1 <=? m) && (m <=? 12) && (1 <=? d) && (d <=? daysInMonth y m)
               && (h <=? 23) && (mi <=? 59) && (sec <=? 59)
            then Some ((((daysFromCivil y m d * 24 + h) * 60 + mi) * 60 + sec) * 1000)
            else None
        | _, _, _, _, _, _ => None
        end
      else None
  | _ => None
  end.

End FeedSchedule.

(** ** Subscription, connection and memory-bridge tools
    (mqtt-subscribe.ts, mqtt-connection.ts, mqtt-memory-bridge.ts) *)

Module MqttTools.

(** The functions the tools attach to the [message] event of a client:
    [handleMessage] of the subscription tool, and the closure the memory
    bridge creates each time it is enabled, told apart by a number. *)
Inductive Listener : Type :=
| HandleMessage
| BridgeHandler (closure : nat).

Definition Listener_eqb (a b : Listener) : bool :=
  match a, b with
  | HandleMessage, HandleMessage => true
  | BridgeHandler x, BridgeHandler y => Nat.eqb x y
  | _, _ => false
  end.

(** What the tools use of an [MqttClient]: its [connected] flag and the
    listeners of its [message] event, in the order they were attached. *)
Record Client : Type := {
  connected : bool;
  messageListeners : list Listener
}.

(** The module-level bindings of the three files: [mqttClient],
    [subscriptions], [bridgeEnabled] and [messageHandler], with the
    number of the next closure.  A client that [mqttClient] no longer
    refers to is outside the model. *)
Record State : Type := {
  mqttClient : option Client;
  subscriptions : MqttSubscribe.subscriptions;
  bridgeEnabled : bool;
  messageHandler : option nat;
  nextClosure : nat
}.

Definition initialState : State :=
  {| mqttClient := None; subscriptions := []; bridgeEnabled := false;
     messageHandler := None; nextClosure := 0 |}.

Definition withClient (c : option Client) (st : State) : State :=
  {| mqttClient := c; subscriptions := subscriptions st;
     bridgeEnabled := bridgeEnabled st; messageHandler := messageHandler st;
     nextClosure := nextClosure st |}.

Definition withSubscriptions (m : MqttSubscribe.subscriptions) (st : State)
  : State :=
  {| mqttClient := mqttClient st; subscriptions := m;
     bridgeEnabled := bridgeEnabled st; messageHandler := messageHandler st;
     nextClosure := nextClosure st |}.

(** [client.on("message", l)]. *)
Definition on (l : Listener) (c : Client) : Client :=
  {| connected := connected c; messageListeners := messageListeners c ++ [l] |}.

Fixpoint removeFirst (l : Listener) (ls : list Listener) : list Listener :=
  match ls with
  | [] => []
  | x :: rest => if Listener_eqb l x then rest else x :: removeFirst l rest
  end.

(** [client.removeListener("message", l)]: the most recently attached
    instance of [l] goes, if there is one. *)
Definition removeListener (l : Listener) (c : Client) : Client :=
  {| connected := connected c;
     messageListeners := rev (removeFirst l (rev (messageListeners c))) |}.

(** [client.listenerCount("message")]. *)
Definition listenerCount (c : Client) : nat := length (messageListeners c).

(** [subscriptions.get(k)]. *)
Fixpoint mapGet (k : string) (m : MqttSubscribe.subscriptions)
  : option MqttSubscribe.Subscription :=
  match m with
  | [] => None
  | (k', v) :: rest => if String.eqb k k' then Some v else mapGet k rest
  end.

(** *** mqttSubscribeTool *)

Inductive Action : Type :=
| Subscribe
| Unsubscribe
| ListSubscriptions
| Pause
| Resume.

(** [config]: [topics] is the array, a single string being the array of
    that one string; [qos] is the parsed level. *)
Record Config : Type := {
  topics : list string;
  qos : Z;
  filter : option (list (string * JSON))
}.

Record Input : Type := {
  action : Action;
  config : option Config;
  topic : option string
}.

(** An element of the [subscriptions] detail of [list_subscriptions]. *)
Record SubscriptionInfo : Type := {
  info_topic : string;
  info_qos : Z;
  info_paused : bool;
  has_filter : bool
}.

Inductive Details : Type :=
| NoDetails
| SubscribeDetails (subscribed : list string) (failed : option (list string))
    (total_subscriptions : nat)
| UnsubscribeDetails (remaining_subscriptions : nat)
| ListDetails (entries : list SubscriptionInfo).

Record Reply : Type := {
  success : bool;
  status : string;
  details : Details
}.

Definition failure (s : string) : Reply :=
  {| success := false; status := s; details := NoDetails |}.

(** The broker's answers to [client.subscribe] (true when the callback
    gets no error) and to [client.unsubscribe] (the message of the error,
    if any), by topic.  The callbacks of one call run in the order of the
    requests. *)
Record Broker : Type := {
  subscribeAck : string -> bool;
  unsubscribeError : string -> option string
}.

(** The callback of [client.subscribe] for [topicStr], on the registry
    and the arrays [subscribed] and [failed]. *)
Definition subscribeCallback (broker : Broker) (cfg : Config)
    (acc : MqttSubscribe.subscriptions * list string * list string)
    (topicStr : string)
  : MqttSubscribe.subscriptions * list string * list string :=
  let '(m, subscribed, failed) := acc in
  if subscribeAck broker topicStr
  then (MqttSubscribe.subscribed topicStr (qos cfg) (filter cfg) m,
        subscribed ++ [topicStr], failed)
  else (m, subscribed, failed ++ [topicStr]).

(** [if (!client.listenerCount("message")) client.on("message", handleMessage)]. *)
Definition attachHandleMessage (c : Client) : Client :=
  if Nat.eqb (listenerCount c) 0 then on HandleMessage c else c.

Definition infoOf (kv : string * MqttSubscribe.Subscription) : SubscriptionInfo :=
  {| info_topic := fst kv;
     info_qos := MqttSubscribe.qos (snd kv);
     info_paused := MqttSubscribe.paused (snd kv);
     has_filter := match MqttSubscribe.filter (snd kv) with
                   | Some _ => true
                   | None => false
                   end |}.

(** [!topic]: missing or empty. *)
Definition given (s : option string) : option string :=
  match s with
  | Some t => if String.eqb t "" then None else Some t
  | None => None
  end.

(** [pause] and [resume]. *)
Definition pauseOrResume (name past : string) (p : bool) (inp : Input)
    (st : State) : State * option Reply :=
  match given (topic inp) with
  | None => (st, Some (failure ("Topic required for " +:+ name +:+ " action")))
  | Some t =>
      match mapGet t (subscriptions st) with
      | None => (st, Some (failure "Subscription not found"))
      | Some _ =>
          (withSubscriptions (MqttSubscribe.setPaused t p (subscriptions st)) st,
           Some {| success := true;
                   status := past +:+ " subscription to " +:+ t;
                   details := NoDetails |})
      end
  end.

(** [mqttSubscribeTool.execute].  [None] is a promise that is never
    resolved: with an empty array of topics no callback runs. *)
Definition execute (broker : Broker) (inp : Input) (st : State)
  : State * option Reply :=
  match mqttClient st with
  | None => (st, Some (failure "MQTT client not connected"))
  | Some client =>
      if negb (connected client)
      then (st, Some (failure "MQTT client not connected"))
      else
        match action inp with
        | Subscribe =>
            match config inp with
            | None =>
                (st, Some (failure "Configuration required for subscribe action"))
            | Some cfg =>
                match topics cfg with
                | [] => (st, None)
                | _ :: _ =>
                    let '(m, subscribed, failed) :=
                      fold_left (subscribeCallback broker cfg) (topics cfg)
                                (subscriptions st, [], []) in
                    (withClient (Some (attachHandleMessage client))
                                (withSubscriptions m st),
                     Some {| success := negb (Nat.eqb (length subscribed) 0);
                             status := "Subscribed to "
                                       +:+ pretty (length subscribed)
                                       +:+ " topic(s)";
                             details :=
                               SubscribeDetails subscribed
                                 (match failed with
                                  | [] => None
                                  | _ :: _ => Some failed
                                  end)
                                 (length m) |})
                end
            end
        | Unsubscribe =>
            match given (topic inp) with
            | None =>
                (st, Some (failure "Topic required for unsubscribe action"))
            | Some t =>
                match unsubscribeError broker t with
                | Some msg =>
                    (st, Some (failure ("Failed to unsubscribe: " +:+ msg)))
                | None =>
                    let m := MqttSubscribe.mapDelete t (subscriptions st) in
                    (withSubscriptions m st,
                     Some {| success := true;
                             status := "Unsubscribed from " +:+ t;
                             details := UnsubscribeDetails (length m) |})
                end
            end
        | ListSubscriptions =>
            let subs := List.map infoOf (subscriptions st) in
            (st, Some {| success := true;
                         status := pretty (length subs)
                                   +:+ " active subscription(s)";
                         details := ListDetails subs |})
        | Pause => pauseOrResume "pause" "Paused" true inp st
        | Resume => pauseOrResume "resume" "Resumed" false inp st
        end
  end.

(** *** mqttConnectionTool *)

Inductive ConnectionAction : Type :=
| Connect
| Disconnect
| Status.

(** How the promise of [connect] is resolved: by the [connect] event, by
    the [error] event, or by the timeout; or [mqtt.connect] throws. *)
Inductive ConnectOutcome : Type :=
| Connected
| ConnectError (message : string)
| ConnectTimeout (ms : Z)
| ConnectThrew (message : string).

(** The broker URL of [config] and of the two environment variables, and
    the outcome of the attempt. *)
Record ConnectionInput : Type := {
  broker_url : option string;
  HIVEMQ_BROKER_URL : option string;
  MQTT_BROKER_URL : option string;
  outcome : ConnectOutcome
}.

(** [a || b] on optional strings. *)
Definition orElse (a b : option string) : option string :=
  match given a with
  | Some s => Some s
  | None => b
  end.

(** The replies of the connection tool; their [details] are left out. *)
Definition connection (a : ConnectionAction) (inp : ConnectionInput)
    (st : State) : State * Reply :=
  match a with
  | Connect =>
      match given (orElse (broker_url inp)
                          (orElse (HIVEMQ_BROKER_URL inp) (MQTT_BROKER_URL inp))) with
      | None =>
          (st, failure ("Broker URL required. Provide in config or set "
                        +:+ "HIVEMQ_BROKER_URL/MQTT_BROKER_URL environment variable"))
      | Some url =>
          if match mqttClient st with
             | Some c => connected c
             | None => false
             end
          then (st, failure "Already connected to broker")
          else
            let fresh (up : bool) :=
              withClient (Some {| connected := up; messageListeners := [] |}) st in
            match outcome inp with
            | Connected =>
                (fresh true,
                 {| success := true; status := "Connected to MQTT broker";
                    details := NoDetails |})
            | ConnectError msg =>
                (fresh false, failure ("Connection error: " +:+ msg))
            | ConnectTimeout ms =>
                (fresh false,
                 failure ("Connection timeout after " +:+ pretty ms +:+ "ms"))
            | ConnectThrew msg =>
                (st, failure ("Connection failed: " +:+ msg))
            end
      end
  | Disconnect =>
      match mqttClient st with
      | None => (st, failure "No active connection")
      | Some _ =>
          (withClient None st,
           {| success := true; status := "Disconnected from MQTT broker";
              details := NoDetails |})
      end
  | Status =>
      (st, {| success := true;
              status := if match mqttClient st with
                           | Some c => connected c
                           | None => false
                           end
                        then "Connected" else "Disconnected";
              details := NoDetails |})
  end.

(** The client goes offline, or comes back by itself: the object and its
    listeners stay. *)
Definition setConnected (up : bool) (st : State) : State :=
  match mqttClient st with
  | Some c =>
      withClient (Some {| connected := up;
                          messageListeners := messageListeners c |}) st
  | None => st
  end.

(** *** mqttMemoryBridgeTool *)

Inductive BridgeAction : Type :=
| Enable
| Disable
| BridgeStatus.

Record BridgeReply : Type := {
  bridge_success : bool;
  bridge_status : string;
  enabled : bool
}.

(** [mqttMemoryBridgeTool.execute]. *)
Definition bridge (a : BridgeAction) (st : State) : State * BridgeReply :=
  match a with
  | Enable =>
      match mqttClient st with
      | Some client =>
          if negb (connected client)
          then (st, {| bridge_success := false;
                       bridge_status := "MQTT client not connected. Connect first.";
                       enabled := false |})
          else if bridgeEnabled st
          then (st, {| bridge_success := true;
                       bridge_status := "Memory bridge already enabled";
                       enabled := true |})
          else
            ({| mqttClient := Some (on (BridgeHandler (nextClosure st)) client);
                subscriptions := subscriptions st;
                bridgeEnabled := true;
                messageHandler := Some (nextClosure st);
                nextClosure := S (nextClosure st) |},
             {| bridge_success := true;
                bridge_status := "MQTT messages will now be stored in agent memory";
                enabled := true |})
      | None => (st, {| bridge_success := false;
                        bridge_status := "MQTT client not connected. Connect first.";
                        enabled := false |})
      end
  | Disable =>
      if negb (bridgeEnabled st)
      then (st, {| bridge_success := true;
                   bridge_status := "Memory bridge already disabled";
                   enabled := false |})
      else
        ({| mqttClient :=
              match mqttClient st, messageHandler st with
              | Some client, Some h => Some (removeListener (BridgeHandler h) client)
              | c, _ => c
              end;
            subscriptions := subscriptions st;
            bridgeEnabled := false;
            messageHandler := None;
            nextClosure := nextClosure st |},
         {| bridge_success := true;
            bridge_status := "MQTT memory storage disabled";
            enabled := false |})
  | BridgeStatus =>
      (st, {| bridge_success := true;
              bridge_status := if bridgeEnabled st then "Memory bridge is active"
                               else "Memory bridge is inactive";
              enabled := bridgeEnabled st |})
  end.

(** *** A message arrives *)

Section Emit.

Variable JSON_parse : string -> option JSON.

(** The bridge's closure for one message: [agentText] is the text of the
    agent's response, [None] when there is no agent or [generate] fails,
    and [bridgeNow] the clock reading of its [addSensorData]. *)
Definition bridgeStore (topic0 raw : string) (bridgeNow : Z)
    (agentText : option string) (store : SharedMemory.sensorMemoryStore)
  : SharedMemory.sensorMemoryStore :=
  match agentText with
  | Some text =>
      SharedMemory.addSensorData topic0 (MqttSubscribe.parseMessage JSON_parse raw)
                                 text bridgeNow store
  | None => store
  end.

(** The part of a listener that runs during [emit]. *)
Definition duringEmit (topic0 raw : string) (now : Z) (st : State)
    (store : SharedMemory.sensorMemoryStore) (l : Listener)
  : SharedMemory.sensorMemoryStore :=
  match l with
  | HandleMessage =>
      MqttSubscribe.handleMessage JSON_parse topic0 raw now (subscriptions st) store
  | BridgeHandler _ => store
  end.

(** The part that runs once the agent has answered. *)
Definition afterEmit (topic0 raw : string) (bridgeNow : Z)
    (agentText : option string) (store : SharedMemory.sensorMemoryStore)
    (l : Listener) : SharedMemory.sensorMemoryStore :=
  match l with
  | HandleMessage => store
  | BridgeHandler _ => bridgeStore topic0 raw bridgeNow agentText store
  end.

(** The store after the client [mqttClient] refers to has emitted one
    message and every listener has finished. *)
Definition emitMessage (topic0 raw : string) (now bridgeNow : Z)
    (agentText : option string) (st : State)
    (store : SharedMemory.sensorMemoryStore) : SharedMemory.sensorMemoryStore :=
  match mqttClient st with
  | None => store
  | Some client =>
      fold_left (afterEmit topic0 raw bridgeNow agentText)
                (messageListeners client)
                (fold_left (duringEmit topic0 raw now st)
                           (messageListeners client) store)
  end.

End Emit.

(** *** Histories *)

Inductive Op : Type :=
| SubscribeTool (broker : Broker) (inp : Input)
| ConnectionTool (a : ConnectionAction) (inp : ConnectionInput)
| BridgeTool (a : BridgeAction)
| Offline
| Online.

Definition step (st : State) (op : Op) : State :=
  match op with
  | SubscribeTool broker inp => fst (execute broker inp st)
  | ConnectionTool a inp => fst (connection a inp st)
  | BridgeTool a => fst (bridge a st)
  | Offline => setConnected false st
  | Online => setConnected true st
  end.

Definition run (ops : list Op) (st : State) : State := fold_left step ops st.

End MqttTools.

(** ** The shared-memory tool as a whole (shared-memory-tool.ts) *)

Module SharedMemoryTool.

Inductive Action : Type :=
| Store
| Query
| ListAll.

Record Input : Type := {
  action : Action;
  topic : option string;
  data : option JSON;
  analysis : option string;
  query : option string
}.

Record Reply : Type := {
  success : bool;
  results : option (list SharedMemory.SensorEvent);
  count : option nat;
  message : string
}.

Section Execute.

(** [JSON.stringify] of the platform. *)
Variable JSON_stringify : JSON -> string.

(** The predicate of the [filter] of the [query] action. *)
Definition matchesQuery (searchTerm : string) (entry : SharedMemory.SensorEvent)
  : bool :=
  includes searchTerm (toLowerCase (SharedMemory.topic entry))
  || includes searchTerm (toLowerCase (SharedMemory.analysis entry))
  || includes searchTerm
       (toLowerCase (JSON_stringify (SharedMemory.data entry))).

(** [sharedMemoryTool.execute] at clock reading [now]. *)
Definition execute (inp : Input) (now : Z)
    (store : SharedMemory.sensorMemoryStore)
  : SharedMemory.sensorMemoryStore * Reply :=
  match action inp with
  | Store =>
      let '(store', r) :=
        SharedMemory.execute_store (topic inp) (data inp) (analysis inp) now store in
      (store', {| success := SharedMemory.success r; results := None;
                  count := SharedMemory.count r;
                  message := SharedMemory.message r |})
  | Query =>
      match query inp with
      | Some q =>
          if String.eqb q ""
          then (store, {| success := false; results := None; count := None;
                          message := "Query string required" |})
          else
            let searchTerm := toLowerCase q in
            let found := List.filter (matchesQuery searchTerm) store in
            (store, {| success := true; results := Some found;
                       count := Some (length found);
                       message := "Found " +:+ pretty (length found)
                                  +:+ " matching entries" |})
      | None => (store, {| success := false; results := None; count := None;
                           message := "Query string required" |})
      end
  | ListAll =>
      let '(recent, total) := SharedMemory.execute_list_all store in
      (store, {| success := true; results := Some recent; count := Some total;
                 message := "Retrieved " +:+ pretty (Nat.min 20 total)
                            +:+ " recent entries (" +:+ pretty total
                            +:+ " total)" |})
  end.

End Execute.

End SharedMemoryTool.

(** ** Publishing and the offline queue (mqtt-publish.ts) *)

Module MqttPublish.

(** [config.message]: a string or an object. *)
Inductive Message : Type :=
| Text (s : string)
| Object (v : JSON).

(** A publish configuration after the schema has filled in its defaults;
    [qos] is the parsed level, [properties] is passed on as it is. *)
Record PublishConfig : Type := {
  topic : string;
  message : Message;
  qos : Z;
  retain : bool;
  properties : option JSON
}.

(** The options object of a [client.publish]. *)
Record Options : Type := {
  opt_qos : option Z;
  opt_retain : bool;
  opt_properties : option JSON
}.

(** [interface PublishQueue]: an element of [publishQueue]. *)
Record QueueItem : Type := {
  item_topic : string;
  item_message : string;
  item_options : Options;
  item_timestamp : Z
}.

(** One call of [client.publish]. *)
Record Publish : Type := {
  pub_topic : string;
  pub_message : string;
  pub_options : Options
}.

(** The module's bindings [publishQueue] and [queueInterval] (whether
    the interval is set), with the queued items handed to
    [client.publish] whose callback has not run yet. *)
Record State : Type := {
  publishQueue : list QueueItem;
  queueInterval : bool;
  inFlight : list QueueItem
}.

Definition initialState : State :=
  {| publishQueue := []; queueInterval := false; inFlight := [] |}.

Inductive Action : Type :=
| PublishAction
| PublishBatch
| PublishRetained
| ClearRetained.

Record Input : Type := {
  action : Action;
  config : option PublishConfig;
  messages : option (list PublishConfig);
  in_topic : option string
}.

(** The result of one [publishMessage]; the [timestamp] detail of a
    success is left out. *)
Inductive PublishDetails : Type :=
| NoPublishDetails
| TooLarge (size limit : nat)
| Sent (to : string) (size : nat) (qos0 : Z) (retained : bool).

Record PublishReply : Type := {
  pub_success : bool;
  pub_status : string;
  pub_details : PublishDetails
}.

Inductive Details : Type :=
| NoDetails
| Queued (queue_size : nat)
| Single (d : PublishDetails)
| Batch (total succeeded failed : nat) (results : option (list PublishReply)).

Record Reply : Type := {
  success : bool;
  status : string;
  details : Details
}.

Definition failure (s : string) : Reply :=
  {| success := false; status := s; details := NoDetails |}.

Definition MAX_MESSAGE_SIZE : nat := 1024 * 1024.

Section Tool.

(** [JSON.stringify] of the platform. *)
Variable JSON_stringify : JSON -> string.

(** The broker's answer to a [client.publish] made by the tool itself:
    the message of the error the callback gets, if any. *)
Variable publishError : Publish -> option string.

(** The payload: [JSON.stringify] of an object, a string as it is. *)
Definition payload (m : Message) : string :=
  match m with
  | Text s => s
  | Object v => JSON_stringify v
  end.

(** [publishMessage(client, config)]: the publishes it makes and its
    result.  [Buffer.byteLength] is the length of the byte string. *)
Definition publishMessage (cfg : PublishConfig)
  : list Publish * PublishReply :=
  let m := payload (message cfg) in
  if (MAX_MESSAGE_SIZE <? String.length m)%nat then
    ([], {| pub_success := false;
            pub_status := "Message size exceeds limit (1MB)";
            pub_details := TooLarge (String.length m) MAX_MESSAGE_SIZE |})
  else
    let options := {| opt_qos := Some (qos cfg); opt_retain := retain cfg;
                      opt_properties := properties cfg |} in
    let p := {| pub_topic := topic cfg; pub_message := m;
                pub_options := options |} in
    match publishError p with
    | Some msg =>
        ([p], {| pub_success := false;
                 pub_status := "Publish failed: " +:+ msg;
                 pub_details := NoPublishDetails |})
    | None =>
        ([p], {| pub_success := true;
                 pub_status := "Published to " +:+ topic cfg;
                 pub_details := Sent (topic cfg) (String.length m) (qos cfg)
                                     (retain cfg) |})
    end.

Definition replyOf (r : PublishReply) : Reply :=
  {| success := pub_success r; status := pub_status r;
     details := match pub_details r with
                | NoPublishDetails => NoDetails
                | d => Single d
                end |}.

Definition isRetained (a : Action) : bool :=
  match a with
  | PublishRetained => true
  | _ => false
  end.

(** The item a disconnected [publish] or [publish_retained] queues. *)
Definition queued (a : Action) (cfg : PublishConfig) (now : Z) : QueueItem :=
  {| item_topic := topic cfg;
     item_message := payload (message cfg);
     item_options := {| opt_qos := Some (qos cfg);
                        opt_retain := retain cfg || isRetained a;
                        opt_properties := properties cfg |};
     item_timestamp := now |}.

Definition withRetain (cfg : PublishConfig) : PublishConfig :=
  {| topic := topic cfg; message := message cfg; qos := qos cfg;
     retain := true; properties := properties cfg |}.

(** [mqttPublishTool.execute]: [clientConnected] is
    [client && client.connected], [now] the clock reading of a queued
    item.  The result is the new state, the publishes made, in order, and
    the reply. *)
Definition execute (clientConnected : bool) (inp : Input) (now : Z) (st : State)
  : State * list Publish * Reply :=
  if negb clientConnected then
    match action inp, config inp with
    | (PublishAction | PublishRetained), Some cfg =>
        let queue := publishQueue st ++ [queued (action inp) cfg now] in
        ({| publishQueue := queue; queueInterval := true;
            inFlight := inFlight st |},
         [],
         {| success := true; status := "Message queued (client disconnected)";
            details := Queued (length queue) |})
    | _, _ => (st, [], failure "MQTT client not connected")
    end
  else
    match action inp with
    | PublishAction =>
        match config inp with
        | None => (st, [], failure "Configuration required for publish action")
        | Some cfg =>
            let '(sent, r) := publishMessage cfg in (st, sent, replyOf r)
        end
    | PublishBatch =>
        match messages inp with
        | None | Some [] =>
            (st, [], failure "Messages array required for batch publish")
        | Some msgs =>
            let outcomes := List.map publishMessage msgs in
            let results := List.map snd outcomes in
            let succeeded := length (List.filter pub_success results) in
            let failed :=
              length (List.filter (fun r => negb (pub_success r)) results) in
            (st, concat (List.map fst outcomes),
             {| success := (0 <? succeeded)%nat;
                status := "Published " +:+ pretty succeeded
                          +:+ " message(s), " +:+ pretty failed +:+ " failed";
                details := Batch (length msgs) succeeded failed
                                 (if (0 <? failed)%nat then Some results
                                  else None) |})
        end
    | PublishRetained =>
        match config inp with
        | None =>
            (st, [], failure "Configuration required for publish_retained action")
        | Some cfg =>
            let '(sent, r) := publishMessage (withRetain cfg) in
            (st, sent, replyOf r)
        end
    | ClearRetained =>
        match in_topic inp with
        | Some t =>
            if String.eqb t ""
            then (st, [], failure "Topic required for clear_retained action")
            else
              let p := {| pub_topic := t; pub_message := "";
                          pub_options := {| opt_qos := None; opt_retain := true;
                                            opt_properties := None |} |} in
              match publishError p with
              | Some msg =>
                  (st, [p],
                   failure ("Failed to clear retained message: " +:+ msg))
              | None =>
                  (st, [p],
                   {| success := true;
                      status := "Cleared retained message for " +:+ t;
                      details := NoDetails |})
              end
        | None => (st, [], failure "Topic required for clear_retained action")
        end
    end.

End Tool.

Definition publishOf (item : QueueItem) : Publish :=
  {| pub_topic := item_topic item; pub_message := item_message item;
     pub_options := item_options item |}.

(** One run of the interval's callback, which happens only while the
    interval is set: it stops the interval when the queue is empty, waits
    while the client is away, and otherwise hands the first ten items to
    [client.publish]. *)
Definition tick (clientConnected : bool) (st : State) : State * list Publish :=
  if negb (queueInterval st) then (st, [])
  else if negb clientConnected || Nat.eqb (length (publishQueue st)) 0 then
    (if Nat.eqb (length (publishQueue st)) 0
     then {| publishQueue := publishQueue st; queueInterval := false;
             inFlight := inFlight st |}
     else st, [])
  else
    let toProcess := firstn 10 (publishQueue st) in
    ({| publishQueue := skipn 10 (publishQueue st);
        queueInterval := queueInterval st;
        inFlight := inFlight st ++ toProcess |},
     List.map publishOf toProcess).

Fixpoint removeAt {A : Type} (i : nat) (l : list A) : list A :=
  match l, i with
  | [], _ => []
  | _ :: rest, O => rest
  | x :: rest, S j => x :: removeAt j rest
  end.

(** The callback of the publish of the [i]th item in flight, at clock
    reading [now]: after an error the item is queued again when it is
    less than five minutes old. *)
Definition publishCallback (i : nat) (err : bool) (now : Z) (st : State)
  : State :=
  match nth_error (inFlight st) i with
  | None => st
  | Some item =>
      {| publishQueue :=
           if err && (now - item_timestamp item <? 300000)
           then publishQueue st ++ [item] else publishQueue st;
         queueInterval := queueInterval st;
         inFlight := removeAt i (inFlight st) |}
  end.

End MqttPublish.

(** ** Device commands (the coop-controls and feeder-control tools) *)

Module CoopControls.

Inductive System : Type :=
| Ventilation
| Water
| Awning.

Inductive Action : Type :=
| On
| Off
| Open
| Close
| Increase
| Decrease
| Status.

Definition systemName (s : System) : string :=
  match s with
  | Ventilation => "ventilation"
  | Water => "water"
  | Awning => "awning"
  end.

Definition actionName (a : Action) : string :=
  match a with
  | On => "on"
  | Off => "off"
  | Open => "open"
  | Close => "close"
  | Increase => "increase"
  | Decrease => "decrease"
  | Status => "status"
  end.

(** [x || d] on an optional number. *)
Definition orDefault (x : option Q) (d : Q) : Q :=
  match x with
  | Some v => if Qeq_bool v 0 then d else v
  | None => d
  end.

(** A property holding an optional number; [JSON.stringify] leaves an
    undefined one out. *)
Definition optional (k : string) (x : option Q) : list (string * JSON) :=
  match x with
  | Some v => [(k, JNum v)]
  | None => []
  end.

(** [buildVentilationCommand(action, level, duration)]; [None] is [null]. *)
Definition buildVentilationCommand (a : Action) (level duration : option Q)
  : option (list (string * JSON)) :=
  match a with
  | On => Some ([("action", JStr "start");
                 ("intensity", JNum (orDefault level 50))]
                ++ optional "duration" duration)
  | Off => Some [("action", JStr "stop")]
  | Increase => Some [("action", JStr "adjust"); ("change", JStr "increase");
                      ("amount", JNum (orDefault level 25))]
  | Decrease => Some [("action", JStr "adjust"); ("change", JStr "decrease");
                      ("amount", JNum (orDefault level 25))]
  | Status => Some [("action", JStr "status")]
  | _ => None
  end.

(** [buildWaterCommand(action, level, duration)]. *)
Definition buildWaterCommand (a : Action) (level duration : option Q)
  : option (list (string * JSON)) :=
  match a with
  | On => Some [("action", JStr "dispense");
                ("amount", JNum (orDefault level 100));
                ("duration", JNum (orDefault duration 30))]
  | Off => Some [("action", JStr "stop")]
  | Open => Some [("action", JStr "open_valve");
                  ("duration", JNum (orDefault duration 60))]
  | Close => Some [("action", JStr "close_valve")]
  | Status => Some [("action", JStr "status")]
  | _ => None
  end.

(** [buildAwningCommand(action, level, duration)]. *)
Definition buildAwningCommand (a : Action) (level duration : option Q)
  : option (list (string * JSON)) :=
  match a with
  | Open => Some ([("action", JStr "extend");
                   ("coverage", JNum (orDefault level 100))]
                  ++ optional "duration" duration)
  | Close => Some [("action", JStr "retract");
                   ("coverage", JNum (orDefault level 0))]
  | Increase => Some [("action", JStr "adjust"); ("direction", JStr "extend");
                      ("amount", JNum (orDefault level 25))]
  | Decrease => Some [("action", JStr "adjust"); ("direction", JStr "retract");
                      ("amount", JNum (orDefault level 25))]
  | Status => Some [("action", JStr "status")]
  | _ => None
  end.

(** The command object after [timestamp] and [coopId] were added. *)
Record Command : Type := {
  fields : list (string * JSON);
  timestamp : Z;
  coopId : string
}.

(** One call of [client.publish]: the payload is [JSON.stringify] of the
    command. *)
Record Publish : Type := {
  pub_topic : string;
  pub_command : Command;
  pub_qos : Z
}.

(** The tool's reply; [command] is the command whose text it carries. *)
Record Reply : Type := {
  success : bool;
  message : string;
  command : option Command;
  topic : option string
}.

Definition failure (m : string) : Reply :=
  {| success := false; message := m; command := None; topic := None |}.

Section Tool.

(** The text of a number in a template literal. *)
Variable Number_toString : Q -> string.

(** [duration ? ` <word> ${duration} seconds` : ''] *)
Definition lasting (word : string) (duration : option Q) : string :=
  match duration with
  | Some d => if Qeq_bool d 0 then ""
              else " " +:+ word +:+ " " +:+ Number_toString d +:+ " seconds"
  | None => ""
  end.

(** [getVentilationMessage(action, level, duration)]. *)
Definition getVentilationMessage (a : Action) (level duration : option Q)
  : string :=
  match a with
  | On => "Starting ventilation at " +:+ Number_toString (orDefault level 50)
          +:+ "% intensity" +:+ lasting "for" duration
  | Off => "Stopping ventilation system"
  | Increase => "Increasing ventilation by "
                +:+ Number_toString (orDefault level 25) +:+ "%"
  | Decrease => "Decreasing ventilation by "
                +:+ Number_toString (orDefault level 25) +:+ "%"
  | Status => "Requesting ventilation system status"
  | _ => "Invalid ventilation action"
  end.

(** [getWaterMessage(action, level, duration)]. *)
Definition getWaterMessage (a : Action) (level duration : option Q) : string :=
  match a with
  | On => "Dispensing " +:+ Number_toString (orDefault level 100)
          +:+ "ml of fresh water" +:+ lasting "over" duration
  | Off => "Stopping water dispensing"
  | Open => "Opening water valve" +:+ lasting "for" duration
  | Close => "Closing water valve"
  | Status => "Requesting water system status"
  | _ => "Invalid water action"
  end.

(** [getAwningMessage(action, level, duration)]. *)
Definition getAwningMessage (a : Action) (level duration : option Q) : string :=
  match a with
  | Open => "Extending awning to " +:+ Number_toString (orDefault level 100)
            +:+ "% coverage" +:+ lasting "for" duration
  | Close => "Retracting awning to " +:+ Number_toString (orDefault level 0)
             +:+ "% coverage"
  | Increase => "Extending awning by " +:+ Number_toString (orDefault level 25)
                +:+ "% more coverage"
  | Decrease => "Retracting awning by " +:+ Number_toString (orDefault level 25)
                +:+ "% coverage"
  | Status => "Requesting awning system status"
  | _ => "Invalid awning action"
  end.

Definition buildCommand (s : System) (a : Action) (level duration : option Q)
  : option (list (string * JSON)) :=
  match s with
  | Ventilation => buildVentilationCommand a level duration
  | Water => buildWaterCommand a level duration
  | Awning => buildAwningCommand a level duration
  end.

Definition getMessage (s : System) (a : Action) (level duration : option Q)
  : string :=
  match s with
  | Ventilation => getVentilationMessage a level duration
  | Water => getWaterMessage a level duration
  | Awning => getAwningMessage a level duration
  end.

Definition commandTopic (coop : string) (s : System) : string :=
  "commands/coop/" +:+ coop +:+ "/" +:+ systemName s.

(** [coopControlsTool.execute]: [clientConnected] is
    [client && client.connected], [publishError] the message of the error
    the publish callback gets, if any, and [now] the clock reading of the
    command's timestamp.  [duration] has the schema's default [0]. *)
Definition execute (clientConnected : bool) (publishError : option string)
    (s : System) (a : Action) (level : option Q) (duration : Q) (coop : string)
    (now : Z) : list Publish * Reply :=
  if negb clientConnected then
    ([], failure "MQTT client not connected. Cannot send coop control commands.")
  else
    match buildCommand s a level (Some duration) with
    | None =>
        ([], failure ("Invalid action '" +:+ actionName a +:+ "' for system '"
                      +:+ systemName s +:+ "'"))
    | Some body =>
        let c := {| fields := body; timestamp := now; coopId := coop |} in
        let p := {| pub_topic := commandTopic coop s; pub_command := c;
                    pub_qos := 1 |} in
        match publishError with
        | Some msg =>
            ([p], failure ("Failed to send " +:+ systemName s +:+ " command: "
                           +:+ msg))
        | None =>
            ([p], {| success := true;
                     message := getMessage s a level (Some duration)
                                +:+ ". Command sent to IoT device.";
                     command := Some c;
                     topic := Some (commandTopic coop s) |})
        end
    end.

End Tool.

End CoopControls.

Module FeederControl.

Inductive Action : Type :=
| Open
| Close
| Status.

(** The command object; only [open] carries a duration and a reason. *)
Record Command : Type := {
  cmd_action : string;
  cmd_duration : option Q;
  timestamp : Z;
  reason : option string
}.

Record Publish : Type := {
  pub_topic : string;
  pub_command : Command;
  pub_qos : Z
}.

Record Reply : Type := {
  success : bool;
  message : string;
  command : option Command;
  topic : option string
}.

Definition failure (m : string) : Reply :=
  {| success := false; message := m; command := None; topic := None |}.

Definition commandTopic (coop : string) : string :=
  "commands/coop/" +:+ coop +:+ "/feeder".

Section Tool.

Variable Number_toString : Q -> string.

(** [feederControlTool.execute], with the same conventions as the coop
    controls; [duration] has the schema's default [30]. *)
Definition execute (clientConnected : bool) (publishError : option string)
    (a : Action) (duration : Q) (coop : string) (now : Z)
  : list Publish * Reply :=
  if negb clientConnected then
    ([], failure "MQTT client not connected. Cannot send feeder commands.")
  else
    let '(c, m) :=
      match a with
      | Open => ({| cmd_action := "open"; cmd_duration := Some duration;
                    timestamp := now; reason := Some "feeding_time" |},
                 "Opening feeder for " +:+ Number_toString duration
                 +:+ " seconds")
      | Close => ({| cmd_action := "close"; cmd_duration := None;
                     timestamp := now; reason := None |},
                  "Closing feeder immediately")
      | Status => ({| cmd_action := "status"; cmd_duration := None;
                      timestamp := now; reason := None |},
                   "Requesting feeder status")
      end in
    let p := {| pub_topic := commandTopic coop; pub_command := c; pub_qos := 1 |} in
    match publishError with
    | Some msg => ([p], failure ("Failed to send feeder command: " +:+ msg))
    | None => ([p], {| success := true;
                       message := m +:+ ". Command sent to IoT device.";
                       command := Some c;
                       topic := Some (commandTopic coop) |})
    end.

End Tool.

End FeederControl.

(** * Vocabulary of the statements, and sample inputs *)

Import SharedMemory.

(** ** The store *)

(** One hundred and one calls of [addSensorData], numbered by their clock
    reading. *)
Definition hundredAndOneWrites : list StoreOp :=
  List.map (fun n => AddSensorData "coop/main/temperature" (JNum (inject_Z n)) "" n)
           (List.map Z.of_nat (seq 0 101)).

(** A store in which only the north coop has published a temperature. *)
Definition northStore : sensorMemoryStore :=
  [ {| topic := "coop/north/temperature";
       data := JObj [("temperature", JNum 41)];
       timestamp := 1000; analysis := "" |};
    {| topic := "coop/south/humidity";
       data := JObj [("humidity", JNum 60)];
       timestamp := 2000; analysis := "" |} ].

(** A store holding one temperature event of the main coop. *)
Definition storeWith (temp : Q) (time : Z) : sensorMemoryStore :=
  [ {| topic := "coop/main/temperature";
       data := JObj [("temperature", JNum temp)];
       timestamp := time; analysis := "" |} ].

(** ** The dispatcher *)

(** A pattern segment agrees with a topic segment. *)
Definition segmentAgrees (p a : string) : Prop := p = "+" \/ p = a.

(** The property [key] of the payload is [===] to [value]. *)
Definition fieldEquals (parsedMessage : JSON) (entry : string * JSON) : Prop :=
  exists a, getProp parsedMessage (fst entry) = Got a
            /\ strictEq a (snd entry) = true.

Section DispatchVocabulary.

Import MqttSubscribe.

Variable JSON_parse : string -> option JSON.

(** The analysis string stored with a message. *)
Definition analysisOf (topic0 raw : string) : string :=
  "Received " +:+ determineMessageType topic0 (parseMessage JSON_parse raw)
  +:+ " message from " +:+ extractDeviceId topic0.

End DispatchVocabulary.

(** The JSON text of an object whose [sensor] is the string humidity and
    whose [value] is 60. *)
Definition humidityText : string :=
  let q := String "034"%char EmptyString in
  "{" +:+ q +:+ "sensor" +:+ q +:+ ":" +:+ q +:+ "humidity" +:+ q +:+ ","
  +:+ q +:+ "value" +:+ q +:+ ":60}".

(** [JSON.parse] on the four sample payloads [42], [null], [hello] and
    [humidityText]; no other text is given to it below. *)
Definition sampleParse (raw : string) : option JSON :=
  if String.eqb raw "42" then Some (JNum 42)
  else if String.eqb raw "null" then Some JNull
  else if String.eqb raw humidityText
  then Some (JObj [("sensor", JStr "humidity"); ("value", JNum 60)])
  else None.

(** A subscription to every coop topic that asks for [sensor = "temp"]. *)
Definition tempOnly : MqttSubscribe.Subscription :=
  {| MqttSubscribe.topic := "coop/#";
     MqttSubscribe.qos := 1;
     MqttSubscribe.filter := Some [("sensor", JStr "temp")];
     MqttSubscribe.paused := false |}.

(** A subscription to every coop topic without a filter. *)
Definition everything : MqttSubscribe.Subscription :=
  {| MqttSubscribe.topic := "coop/#";
     MqttSubscribe.qos := 1;
     MqttSubscribe.filter := None;
     MqttSubscribe.paused := false |}.

(** ** The evaluator *)

Section ReadVocabulary.

Import CoopTempAlert.

(** The head of a list is at least as recent as the rest. *)
Definition headNewest (l : list SensorEvent) : Prop :=
  match l with
  | [] => True
  | h :: t => forall x, In x t -> SharedMemory.timestamp x <= SharedMemory.timestamp h
  end.

(** An event the read selects: its topic contains "temp" and its
    payload has a [temperature] property. *)
Definition carriesTemperature (e : SensorEvent) : Prop :=
  includes "temp" (topic e) = true
  /\ exists v, getProp (data e) "temperature" = Got (Some v).

(** An event on which the read throws: a [null] payload under such a
    topic. *)
Definition nullUnderTempTopic (e : SensorEvent) : Prop :=
  includes "temp" (topic e) = true /\ data e = JNull.

End ReadVocabulary.

(** The cache holds no reading of [coopId] younger than 30 seconds. *)
Definition cacheMiss (coopId : string) (env : CoopTempAlert.Env)
    (cache : gmap string CoopTempAlert.TempReading) : Prop :=
  match cache !! coopId with
  | Some cached =>
      30000 <= CoopTempAlert.cacheNow env - CoopTempAlert.timestamp cached
  | None => True
  end.

Definition numericReading (r : CoopTempAlert.TempReading) : Prop :=
  exists q, CoopTempAlert.temperature r = JNum q.

Definition numericCache (cache : gmap string CoopTempAlert.TempReading) : Prop :=
  forall k r, cache !! k = Some r -> numericReading r.

(** No payload under a temperature topic is [null], and every
    temperature property is a number. *)
Definition readableStore (store : sensorMemoryStore) : Prop :=
  forall e, In e store ->
    ~ nullUnderTempTopic e
    /\ (carriesTemperature e -> numericReading (CoopTempAlert.readingOf e)).

(** The status a call ends with, when it returns an output. *)
Definition statusOf (r : CoopTempAlert.State * CoopTempAlert.Result)
  : option CoopTempAlert.Status :=
  match snd r with
  | CoopTempAlert.Ok out => Some (CoopTempAlert.status out)
  | _ => None
  end.

(** A call for [coop] at clock reading [t] with the default bounds, over
    [store]. *)
Definition callAt (coop : string) (t : Z)
    (store : sensorMemoryStore) : CoopTempAlert.Call :=
  {| CoopTempAlert.call_minSafe := 35;
     CoopTempAlert.call_maxSafe := 95;
     CoopTempAlert.call_coopId := coop;
     CoopTempAlert.call_env :=
       {| CoopTempAlert.now := t; CoopTempAlert.cacheNow := t;
          CoopTempAlert.simNow := t; CoopTempAlert.hour := 12;
          CoopTempAlert.random1 := 1 # 2; CoopTempAlert.random2 := 1 # 2 |};
     CoopTempAlert.call_store := store |}.

(** The evaluator after one accepted call at 10000 ms. *)
Definition afterFirstCall : CoopTempAlert.State :=
  fst (CoopTempAlert.exec CoopTempAlert.initialState (callAt "main" 10000 [])).

(** ** The scheduler *)

Section TimerVocabulary.

Import FeedSchedule.

Variable Date_parse : string -> option Z.

(** [lastFedAt] is missing or the empty string, which [if (lastFedAt)]
    takes for missing. *)
Definition omitted (inp : Input) : Prop :=
  in_lastFedAt inp = None \/ in_lastFedAt inp = Some "".

(** The states the module goes through: tool calls, pending timers
    firing, and the registration of a gate. *)
Inductive reachable : State -> Prop :=
| reach_initial : reachable initialState
| reach_execute inp now st :
    reachable st -> reachable (fst (fst (execute Date_parse inp now st)))
| reach_fire h st : reachable st -> reachable (fireTimer h st)
| reach_gate callback st : reachable st -> reachable (setApprovalCallback callback st).

End TimerVocabulary.

(** Whether a call returned an output. *)
Definition returned (r : FeedSchedule.Error + FeedSchedule.Output) : bool :=
  match r with
  | inr _ => true
  | inl _ => false
  end.

(** A gate that approves every request. *)
Definition approveAll (request : FeedSchedule.ApprovalRequest) : bool := true.

(** 2024-01-15T00:00:00Z. *)
Definition jan15 : Z := 1705276800000.

(** A process with the gate registered in which the main coop was
    reported fed at [lastFed] on a four-hour interval. *)
Definition fedAt (lastFed : string) : FeedSchedule.State :=
  fst (fst (FeedSchedule.execute FeedSchedule.isoParse
              {| FeedSchedule.in_lastFedAt := Some lastFed;
                 FeedSchedule.in_intervalHours := 4;
                 FeedSchedule.in_scheduleReminder := false;
                 FeedSchedule.in_coopId := "main" |}
              jan15
              (FeedSchedule.setApprovalCallback approveAll
                 FeedSchedule.initialState))).

(** The report that asks for a reminder on the stored record. *)
Definition remindMain : FeedSchedule.Input :=
  {| FeedSchedule.in_lastFedAt := None;
     FeedSchedule.in_intervalHours := 4;
     FeedSchedule.in_scheduleReminder := true;
     FeedSchedule.in_coopId := "main" |}.

(** ** Further sample inputs *)

(** A report that the north coop was fed at the start of 15 January, on
    a twelve-hour interval, asking for a reminder. *)
Definition northReport : FeedSchedule.Input :=
  {| FeedSchedule.in_lastFedAt := Some "2024-01-15T00:00:00Z";
     FeedSchedule.in_intervalHours := 12;
     FeedSchedule.in_scheduleReminder := true;
     FeedSchedule.in_coopId := "north" |}.

(** ** The MQTT tools *)

(** The registry after the acknowledged topics of one [subscribe] call
    have been set, in the order of the call. *)
Definition registered (broker : MqttTools.Broker) (cfg : MqttTools.Config)
    (ts : list string) (m : MqttSubscribe.subscriptions)
  : MqttSubscribe.subscriptions :=
  fold_left (fun m t =>
               if MqttTools.subscribeAck broker t
               then MqttSubscribe.subscribed t (MqttTools.qos cfg)
                                             (MqttTools.filter cfg) m
               else m) ts m.

(** The entry a [subscribe] call sets for a topic. *)
Definition entryOf (cfg : MqttTools.Config) (t : string)
  : MqttSubscribe.Subscription :=
  {| MqttSubscribe.topic := t; MqttSubscribe.qos := MqttTools.qos cfg;
     MqttSubscribe.filter := MqttTools.filter cfg;
     MqttSubscribe.paused := false |}.

(** How the listeners of the client stand to the module bindings: the
    patterns of the registry are distinct; [messageHandler] is set
    exactly while the bridge is enabled; and the client carries
    [handleMessage] at most once, in first place, and no bridge closure
    but the current one, at most once. *)
Definition wired (st : MqttTools.State) : Prop :=
  NoDup (List.map fst (MqttTools.subscriptions st))
  /\ (MqttTools.bridgeEnabled st = true <-> MqttTools.messageHandler st <> None)
  /\ match MqttTools.mqttClient st with
     | None => True
     | Some c =>
         MqttTools.messageListeners c = []
         \/ MqttTools.messageListeners c = [MqttTools.HandleMessage]
         \/ exists h, MqttTools.messageHandler st = Some h
                      /\ (MqttTools.messageListeners c = [MqttTools.BridgeHandler h]
                          \/ MqttTools.messageListeners c
                             = [MqttTools.HandleMessage; MqttTools.BridgeHandler h])
     end.

(** A broker that acknowledges everything. *)
Definition ackAll : MqttTools.Broker :=
  {| MqttTools.subscribeAck := fun _ => true;
     MqttTools.unsubscribeError := fun _ => None |}.

(** A connection request that succeeds. *)
Definition connectOk : MqttTools.ConnectionInput :=
  {| MqttTools.broker_url := Some "mqtt://broker.local";
     MqttTools.HIVEMQ_BROKER_URL := None;
     MqttTools.MQTT_BROKER_URL := None;
     MqttTools.outcome := MqttTools.Connected |}.

(** The tools just after a successful [connect]. *)
Definition justConnected : MqttTools.State :=
  fst (MqttTools.connection MqttTools.Connect connectOk MqttTools.initialState).

(** A [subscribe] call for every coop topic, without a filter. *)
Definition subscribeCoop : MqttTools.Input :=
  {| MqttTools.action := MqttTools.Subscribe;
     MqttTools.config := Some {| MqttTools.topics := ["coop/#"];
                                 MqttTools.qos := 1;
                                 MqttTools.filter := None |};
     MqttTools.topic := None |}.

(** A call of the subscription tool that names a topic. *)
Definition onTopic (a : MqttTools.Action) (t : string) : MqttTools.Input :=
  {| MqttTools.action := a; MqttTools.config := None;
     MqttTools.topic := Some t |}.

(** ** The publish queue *)

(** [k] runs of the interval's callback in a row while the client is
    connected, no publish callback arriving in between: the state after
    them and the publishes made, in order. *)
Fixpoint ticks (k : nat) (st : MqttPublish.State)
  : MqttPublish.State * list MqttPublish.Publish :=
  match k with
  | O => (st, [])
  | S k' =>
      let '(st1, sent1) := MqttPublish.tick true st in
      let '(st2, sent2) := ticks k' st1 in
      (st2, sent1 ++ sent2)
  end.

(** A text of [n] blanks. *)
Fixpoint blanks (n : nat) : string :=
  match n with
  | O => EmptyString
  | S k => String " "%char (blanks k)
  end.

(** A [publish] call for one configuration. *)
Definition publishCall (a : MqttPublish.Action) (cfg : MqttPublish.PublishConfig)
  : MqttPublish.Input :=
  {| MqttPublish.action := a; MqttPublish.config := Some cfg;
     MqttPublish.messages := None; MqttPublish.in_topic := None |}.

(** A text message for a topic, at qos 1, not retained. *)
Definition textFor (t s : string) : MqttPublish.PublishConfig :=
  {| MqttPublish.topic := t; MqttPublish.message := MqttPublish.Text s;
     MqttPublish.qos := 1; MqttPublish.retain := false;
     MqttPublish.properties := None |}.

(** ** Device commands *)

(** The actions each system has a command for. *)
Definition supported (s : CoopControls.System) (a : CoopControls.Action) : bool :=
  match s, a with
  | CoopControls.Ventilation,
    (CoopControls.On | CoopControls.Off | CoopControls.Increase
     | CoopControls.Decrease | CoopControls.Status) => true
  | CoopControls.Water,
    (CoopControls.On | CoopControls.Off | CoopControls.Open
     | CoopControls.Close | CoopControls.Status) => true
  | CoopControls.Awning,
    (CoopControls.Open | CoopControls.Close | CoopControls.Increase
     | CoopControls.Decrease | CoopControls.Status) => true
  | _, _ => false
  end.

(** The string has no slash: it is one topic segment. *)
Definition oneSegment (s : string) : Prop := split s = [s].

(** ** From the broker to the evaluator *)

(** The number of subscriptions of a registry that match a topic and
    accept a message. *)
Definition takers (JSON_parse : string -> option JSON) (topic0 raw : string)
    (subs : MqttSubscribe.subscriptions) : nat :=
  length (List.filter
            (fun kv => MqttSubscribe.topicMatches topic0 (fst kv)
                       && MqttSubscribe.accepts JSON_parse raw (snd kv)) subs).

(** The JSON text of an object whose [temperature] is 71. *)
Definition temperatureText : string :=
  let q := String "034"%char EmptyString in
  "{" +:+ q +:+ "temperature" +:+ q +:+ ":71}".

(** [JSON.parse] on that text; no other text is given to it below. *)
Definition temperatureParse (raw : string) : option JSON :=
  if String.eqb raw temperatureText
  then Some (JObj [("temperature", JNum 71)])
  else None.

(** * Properties *)

(** ** The store holds the last hundred events *)

Section StoreBound.

Local Open Scope nat_scope.

Lemma tail_drop {A : Type} (k : nat) (l : list A) :
  tail (drop k l) = drop (S k) l.
Proof.
  revert l. induction k as [|k IH]; intros [|x l]; simpl; try reflexivity.
  apply IH.
Qed.

(** Pushing onto the last hundred of [all] leaves the last hundred of
    [all ++ [e]]. *)
Lemma pushAndTrim_window (all : list SensorEvent) (e : SensorEvent) :
  pushAndTrim e (drop (length all - 100) all)
  = drop (length (all ++ [e]) - 100) (all ++ [e]).
Proof.
  unfold pushAndTrim. rewrite length_app, length_app, length_drop. simpl.
  destruct (Nat.ltb_spec 100 (length all - (length all - 100) + 1)) as [Hgt|Hle].
  - rewrite <- drop_app_le by lia. rewrite tail_drop. f_equal. lia.
  - replace (length all - 100) with 0 by lia.
    replace (length all + 1 - 100) with 0 by lia. reflexivity.
Qed.

Lemma step_window (all : list SensorEvent) (op : StoreOp) :
  step (drop (length all - 100) all) op
  = drop (length (all ++ appended op) - 100) (all ++ appended op).
Proof.
  destruct op as [t d a now|t d a now]; simpl.
  - unfold execute_store.
    destruct t as [t|], d as [d|]; simpl; rewrite ?app_nil_r; try reflexivity.
    destruct (negb (String.eqb t "") && truthy d); simpl;
      rewrite ?app_nil_r; try reflexivity.
    apply pushAndTrim_window.
  - apply pushAndTrim_window.
Qed.

Lemma run_window (ops : list StoreOp) (all : list SensorEvent) :
  run ops (drop (length all - 100) all)
  = drop (length (all ++ flat_map appended ops) - 100)
         (all ++ flat_map appended ops).
Proof.
  revert all. induction ops as [|op ops IH]; intros all; simpl.
  - now rewrite app_nil_r.
  - unfold run in *. simpl. rewrite step_window, IH.
    now rewrite <- app_assoc.
Qed.

End StoreBound.

(** C3.  After any sequence of writes to the store, starting from the
    empty store, the store holds at most 100 events: it is exactly the
    last 100 of the events written, in the order they were written.  In
    particular 101 writes leave the 100 that followed the oldest one. *)
Theorem store_keeps_last_hundred (ops : list StoreOp) :
  let events := flat_map appended ops in
  let store := run ops initialStore in
  (length store <= 100)%nat
  /\ store = drop (length events - 100) events
  /\ (forall oldest survivors,
        events = oldest :: survivors -> length survivors = 100%nat ->
        store = survivors /\ length store = 100%nat).
Proof.
  intros events store.
  assert (Hwin : store = drop (length events - 100) events).
  { subst store events. apply (run_window ops []). }
  split; [|split].
  - rewrite Hwin, length_drop. lia.
  - exact Hwin.
  - intros oldest survivors Hev Hlen. rewrite Hwin, Hev. simpl length.
    rewrite Hlen. simpl. split; [reflexivity | exact Hlen].
Qed.

(** One hundred and one writes: the first is gone, the others remain in
    the order they were written. *)
Lemma store_keeps_last_hundred_101 :
  length (run hundredAndOneWrites initialStore) = 100%nat
  /\ List.map timestamp (run hundredAndOneWrites initialStore)
     = List.map Z.of_nat (seq 1 100).
Proof.
  destruct (store_keeps_last_hundred hundredAndOneWrites) as (_ & Hwin & _).
  rewrite Hwin. split; vm_compute; reflexivity.
Defined.

(** ** The temperature safety evaluator *)

Section Limiter.

Import CoopTempAlert.

(** A call made less than five seconds after [lastCallTime] is refused
    and changes nothing. *)
Lemma exec_refused (st : State) (c : Call) :
  now (call_env c) - lastCallTime st < 5000 ->
  exec st c
  = (st, RateLimit (ceilDiv (5000 - (now (call_env c) - lastCallTime st)) 1000)).
Proof.
  intros H. unfold exec, execute, RATE_LIMIT_INTERVAL.
  destruct (Z.ltb_spec (now (call_env c) - lastCallTime st) (5 * 1000));
    [reflexivity | lia].
Qed.

(** Any other call passes the limiter and records its clock reading. *)
Lemma exec_passed (st : State) (c : Call) :
  5000 <= now (call_env c) - lastCallTime st ->
  rateLimited (snd (exec st c)) = false
  /\ lastCallTime (fst (exec st c)) = now (call_env c).
Proof.
  intros H. unfold exec, execute, RATE_LIMIT_INTERVAL.
  destruct (Z.ltb_spec (now (call_env c) - lastCallTime st) (5 * 1000));
    [lia|].
  destruct (getLatestTemperature _ _ _ _) as [cache' [reading|]];
    [|split; reflexivity].
  destruct (STALE_DATA_THRESHOLD <? _); [split; reflexivity|].
  destruct (temperature reading); try (split; reflexivity).
  destruct (classify _ _ _). split; reflexivity.
Qed.

Lemma rateLimited_iff (st : State) (c : Call) :
  rateLimited (snd (exec st c))
  = (now (call_env c) - lastCallTime st <? 5000).
Proof.
  destruct (Z.ltb_spec (now (call_env c) - lastCallTime st) 5000) as [H|H].
  - now rewrite exec_refused.
  - now destruct (exec_passed st c H).
Qed.

Lemma refused_keeps_state (st : State) (c : Call) :
  rateLimited (snd (exec st c)) = true -> fst (exec st c) = st.
Proof.
  rewrite rateLimited_iff. intros H. apply Z.ltb_lt in H.
  now rewrite exec_refused.
Qed.

Lemma runCalls_refused (st : State) (attempts : list Call) :
  Forall (fun a => rateLimited (snd (exec st a)) = true) attempts ->
  runCalls attempts st = st.
Proof.
  induction 1 as [|a attempts Ha _ IH]; [reflexivity|].
  unfold runCalls in *. simpl. now rewrite (refused_keeps_state st a Ha).
Qed.

Lemma lastCallTime_runCalls (calls : list Call) (st : State) :
  lastCallTime (runCalls calls st) = lastAccepted calls st (lastCallTime st).
Proof.
  revert st. induction calls as [|c calls IH]; intros st; [reflexivity|].
  unfold runCalls in *. simpl. rewrite IH. f_equal.
  rewrite rateLimited_iff.
  destruct (Z.ltb_spec (now (call_env c) - lastCallTime st) 5000) as [H|H].
  - now rewrite exec_refused.
  - now destruct (exec_passed st c H).
Qed.

End Limiter.

(** C9.  A call refused by the limiter leaves the whole state of the
    evaluator, [lastCallTime] included, as it was.  Hence any number of
    refused attempts changes neither the state nor the outcome of the
    call that follows them, and after any history of calls
    [lastCallTime] is the clock reading of the latest call that was not
    refused. *)
Theorem refused_call_leaves_limiter
    (st : CoopTempAlert.State) (attempts : list CoopTempAlert.Call) :
  Forall (fun a =>
            CoopTempAlert.rateLimited (snd (CoopTempAlert.exec st a)) = true)
         attempts ->
  Forall (fun a => fst (CoopTempAlert.exec st a) = st) attempts
  /\ CoopTempAlert.runCalls attempts st = st
  /\ (forall c, CoopTempAlert.exec (CoopTempAlert.runCalls attempts st) c
                = CoopTempAlert.exec st c)
  /\ (forall calls st0,
        CoopTempAlert.lastCallTime (CoopTempAlert.runCalls calls st0)
        = CoopTempAlert.lastAccepted calls st0 (CoopTempAlert.lastCallTime st0)).
Proof.
  intros Hall. split; [|split; [|split]].
  - eapply Forall_impl; [exact Hall|]. intros a. apply refused_keeps_state.
  - now apply runCalls_refused.
  - intros c. now rewrite runCalls_refused.
  - intros calls st0. apply lastCallTime_runCalls.
Qed.

(** Three attempts within five seconds of the accepted call. *)
Lemma refused_call_leaves_limiter_run :
  CoopTempAlert.runCalls
    [callAt "main" 11000 []; callAt "north" 12000 []; callAt "main" 14999 []]
    afterFirstCall = afterFirstCall.
Proof.
  apply (refused_call_leaves_limiter afterFirstCall
           [callAt "main" 11000 []; callAt "north" 12000 []; callAt "main" 14999 []]).
  repeat constructor.
Defined.

Section ReadPath.

Import CoopTempAlert.

Abbreviation ts := SharedMemory.timestamp.

Lemma insertDesc_In (e x : SensorEvent) (l : list SensorEvent) :
  In x (insertDesc e l) <-> x = e \/ In x l.
Proof.
  induction l as [|y l IH]; simpl.
  - intuition.
  - destruct (ts y <=? ts e); simpl; [intuition|].
    rewrite IH. intuition.
Qed.

Lemma sortDesc_In (x : SensorEvent) (l : list SensorEvent) :
  In x (sortDesc l) <-> In x l.
Proof.
  induction l as [|y l IH]; simpl; [reflexivity|].
  rewrite insertDesc_In, IH. intuition.
Qed.

Lemma insertDesc_headNewest (e : SensorEvent) (l : list SensorEvent) :
  headNewest l -> headNewest (insertDesc e l).
Proof.
  destruct l as [|y l]; simpl; intros H.
  - intros x [].
  - destruct (Z.leb_spec (ts y) (ts e)) as [Hle|Hgt]; simpl.
    + intros x [<-|Hx]; [exact Hle|]. specialize (H x Hx). lia.
    + intros x Hx. apply insertDesc_In in Hx as [->|Hx]; [lia|auto].
Qed.

Lemma sortDesc_headNewest (l : list SensorEvent) : headNewest (sortDesc l).
Proof.
  induction l as [|y l IH]; simpl; [exact I|].
  now apply insertDesc_headNewest.
Qed.

(** The first element of the sorted array is an element of the array
    and no element is more recent. *)
Lemma sortDesc_head (l : list SensorEvent) (h : SensorEvent)
    (t : list SensorEvent) :
  sortDesc l = h :: t ->
  In h l /\ forall x, In x l -> ts x <= ts h.
Proof.
  intros Hs. split.
  - apply sortDesc_In. rewrite Hs. now left.
  - intros x Hx. apply sortDesc_In in Hx. rewrite Hs in Hx.
    pose proof (sortDesc_headNewest l) as Hn. rewrite Hs in Hn. simpl in Hn.
    destruct Hx as [<-|Hx]; [lia|auto].
Qed.

Lemma sortDesc_nil (l : list SensorEvent) : sortDesc l = [] -> l = [].
Proof.
  destruct l as [|y l]; [reflexivity|]. intros Hs.
  assert (In y (sortDesc (y :: l))) as Hy by (apply sortDesc_In; now left).
  rewrite Hs in Hy. destruct Hy.
Qed.

Lemma filterTemp_Some (l kept : list SensorEvent) :
  filterTemp l = Some kept ->
  (forall e, In e kept <-> In e l /\ isTempEntry e = Some true)
  /\ (forall e, In e l -> isTempEntry e <> None).
Proof.
  revert kept. induction l as [|y l IH]; simpl; intros kept Hk.
  - injection Hk as <-. split; [intros e; simpl; tauto | intros e []].
  - destruct (isTempEntry y) as [keep|] eqn:Hy; [|discriminate].
    destruct (filterTemp l) as [kept'|]; [|discriminate].
    injection Hk as <-. destruct (IH kept' eq_refl) as [IH1 IH2]. split.
    + intros e. destruct keep; simpl; rewrite IH1; split.
      * intros [<-|[? ?]]; auto.
      * intros [[<-|?] ?]; auto.
      * intros [? ?]; auto.
      * intros [[<-|?] ?]; [congruence|auto].
    + intros e [<-|He]; [congruence|auto].
Qed.

Lemma filterTemp_None (l : list SensorEvent) :
  filterTemp l = None -> exists e, In e l /\ isTempEntry e = None.
Proof.
  induction l as [|y l IH]; simpl; [discriminate|].
  destruct (isTempEntry y) as [keep|] eqn:Hy.
  - destruct (filterTemp l) as [kept'|]; [discriminate|].
    intros _. destruct (IH eq_refl) as (e & He & Hn). exists e. auto.
  - intros _. exists y. auto.
Qed.

Lemma isTempEntry_true (e : SensorEvent) :
  isTempEntry e = Some true <-> carriesTemperature e.
Proof.
  unfold isTempEntry, carriesTemperature.
  destruct (includes "temp" (topic e)); [|split; [discriminate|intros [? _]; discriminate]].
  destruct (getProp (data e) "temperature") as [|[v|]]; split;
    try discriminate; try (intros [_ [v' Hv]]; discriminate).
  - intros _. split; [reflexivity|eauto].
  - reflexivity.
Qed.

Lemma getProp_Thrown (v : JSON) (k : string) :
  getProp v k = Thrown <-> v = JNull.
Proof.
  destruct v as [|b|q|s|items|props]; simpl; split; try discriminate;
    try reflexivity.
  destruct (String.eqb k "length"); discriminate.
Qed.

Lemma isTempEntry_None (e : SensorEvent) :
  isTempEntry e = None <-> nullUnderTempTopic e.
Proof.
  unfold isTempEntry, nullUnderTempTopic.
  destruct (includes "temp" (topic e));
    [|split; [discriminate|intros [? _]; discriminate]].
  destruct (getProp (data e) "temperature") as [|[v|]] eqn:Hg; split;
    try discriminate.
  - intros _. split; [reflexivity|]. now apply getProp_Thrown in Hg.
  - reflexivity.
  - intros [_ Hd]. apply (getProp_Thrown _ "temperature") in Hd. congruence.
  - intros [_ Hd]. apply (getProp_Thrown _ "temperature") in Hd. congruence.
Qed.

(** What [fetchFromSharedMemory] returns, for any [coopId]. *)
Lemma fetch_cases (coopId : string) (store : sensorMemoryStore) :
  match fetchFromSharedMemory coopId store with
  | FetchReading r =>
      exists e, In e store /\ carriesTemperature e
                /\ (forall e', In e' store -> carriesTemperature e' ->
                               ts e' <= ts e)
                /\ r = readingOf e
  | FetchNull => forall e, In e store -> ~ carriesTemperature e
  | FetchThrew => exists e, In e store /\ nullUnderTempTopic e
  end.
Proof.
  unfold fetchFromSharedMemory, getSensorData.
  destruct (filterTemp store) as [kept|] eqn:Hf.
  - destruct (filterTemp_Some _ _ Hf) as [Hin _].
    destruct (sortDesc kept) as [|h t] eqn:Hs.
    + apply sortDesc_nil in Hs. subst kept. intros e He Hc.
      apply isTempEntry_true in Hc. apply (Hin e). auto.
    + destruct (sortDesc_head _ _ _ Hs) as [Hh Hmax]. exists h.
      apply Hin in Hh as [Hh1 Hh2]. split; [exact Hh1|].
      split; [now apply isTempEntry_true|]. split; [|reflexivity].
      intros e' He' Hc'. apply Hmax, Hin. split; [exact He'|].
      now apply isTempEntry_true.
  - destruct (filterTemp_None _ Hf) as (e & He & Hn). exists e.
    split; [exact He|]. now apply isTempEntry_None.
Qed.

End ReadPath.

Lemma getLatestTemperature_miss (coopId : string) (env : CoopTempAlert.Env)
    (store : sensorMemoryStore) (cache : gmap string CoopTempAlert.TempReading)
    (r : CoopTempAlert.TempReading) :
  cacheMiss coopId env cache ->
  CoopTempAlert.fetchFromSharedMemory coopId store = CoopTempAlert.FetchReading r ->
  CoopTempAlert.getLatestTemperature coopId env store cache
  = (<[coopId := r]> cache, Some r).
Proof.
  unfold cacheMiss, CoopTempAlert.getLatestTemperature. intros Hmiss ->.
  destruct (cache !! coopId) as [cached|]; [|reflexivity].
  destruct (Z.ltb_spec (CoopTempAlert.cacheNow env - CoopTempAlert.timestamp cached) 30000);
    [lia|reflexivity].
Qed.

(** C10, at the store in which the north coop has published 41 degrees
    and the main coop's sensor then sends the message [null]: the
    temperature event of the north coop is still in the store, and the
    read throws for whichever coop asks, where it returned that event's
    reading before the message arrived. *)
Theorem null_payload_hides_reading :
  let store := MqttSubscribe.handleMessage sampleParse "coop/main/temperature"
                 "null" 9000 [("coop/#", everything)] northStore in
  (exists e, In e store /\ carriesTemperature e)
  /\ CoopTempAlert.fetchFromSharedMemory "south" northStore
     = CoopTempAlert.FetchReading
         {| CoopTempAlert.temperature := JNum 41;
            CoopTempAlert.timestamp := 1000;
            CoopTempAlert.source := "mqtt-shared-memory" |}
  /\ CoopTempAlert.fetchFromSharedMemory "south" store = CoopTempAlert.FetchThrew
  /\ CoopTempAlert.fetchFromSharedMemory "north" store = CoopTempAlert.FetchThrew
  /\ snd (CoopTempAlert.exec CoopTempAlert.initialState (callAt "north" 10000 store))
     = CoopTempAlert.TypeError.
Proof.
  intros store. split; [|repeat split; reflexivity].
  eexists. split; [left; reflexivity|].
  split; [reflexivity|]. eexists. reflexivity.
Qed.

(** X31.  The read from the shared store does not depend on [coopId].
    While no event under a topic that contains "temp" has a [null]
    payload the read does not throw.  When it returns a reading, some
    event of the whole store whose topic contains "temp" and whose
    payload has a temperature property, no such event being more recent,
    gives it: the reading's temperature is the value of that property,
    its timestamp the event's, its source "mqtt-shared-memory".  It
    returns nothing exactly when the store holds no such event.  On a
    cache miss [getLatestTemperature] returns the reading for whichever
    coop asks, and caches it under the asking [coopId] only. *)
Theorem shared_read_ignores_coop (coopId other : string)
    (store : sensorMemoryStore) :
  (forall e, In e store -> ~ nullUnderTempTopic e) ->
  CoopTempAlert.fetchFromSharedMemory coopId store
  = CoopTempAlert.fetchFromSharedMemory other store
  /\ match CoopTempAlert.fetchFromSharedMemory coopId store with
     | CoopTempAlert.FetchReading r =>
         exists e v,
           In e store
           /\ includes "temp" (topic e) = true
           /\ getProp (data e) "temperature" = Got (Some v)
           /\ (forall e', In e' store -> carriesTemperature e' ->
                          SharedMemory.timestamp e' <= SharedMemory.timestamp e)
           /\ r = {| CoopTempAlert.temperature := v;
                     CoopTempAlert.timestamp := SharedMemory.timestamp e;
                     CoopTempAlert.source := "mqtt-shared-memory" |}
     | CoopTempAlert.FetchNull => forall e, In e store -> ~ carriesTemperature e
     | CoopTempAlert.FetchThrew => False
     end
  /\ (forall r env env' cache,
        CoopTempAlert.fetchFromSharedMemory coopId store
        = CoopTempAlert.FetchReading r ->
        cacheMiss coopId env cache -> cacheMiss other env' cache ->
        CoopTempAlert.getLatestTemperature coopId env store cache
        = (<[coopId := r]> cache, Some r)
        /\ CoopTempAlert.getLatestTemperature other env' store cache
           = (<[other := r]> cache, Some r)).
Proof.
  intros Hsound. split; [reflexivity|]. split.
  - pose proof (fetch_cases coopId store) as Hcases.
    destruct (CoopTempAlert.fetchFromSharedMemory coopId store) as [| |r].
    + destruct Hcases as (e & He & Hnull). exact (Hsound e He Hnull).
    + exact Hcases.
    + destruct Hcases as (e & He & [Htopic [v Hv]] & Hnewest & ->).
      exists e, v. split; [exact He|]. split; [exact Htopic|].
      split; [exact Hv|]. split; [exact Hnewest|].
      unfold CoopTempAlert.readingOf. now rewrite Hv.
  - intros r env env' cache Hr Hm Hm'. split.
    + now apply getLatestTemperature_miss.
    + now apply getLatestTemperature_miss.
Qed.

(** The south coop is given the reading the north coop published. *)
Lemma shared_read_ignores_coop_south :
  CoopTempAlert.fetchFromSharedMemory "south" northStore
  = CoopTempAlert.fetchFromSharedMemory "north" northStore
  /\ exists e,
       In e northStore
       /\ topic e = "coop/north/temperature"
       /\ CoopTempAlert.fetchFromSharedMemory "south" northStore
          = CoopTempAlert.FetchReading
              {| CoopTempAlert.temperature := JNum 41;
                 CoopTempAlert.timestamp := SharedMemory.timestamp e;
                 CoopTempAlert.source := "mqtt-shared-memory" |}.
Proof.
  assert (Hsound : forall e, In e northStore -> ~ nullUnderTempTopic e).
  { intros e [<-|[<-|[]]] [_ Hnull]; discriminate. }
  destruct (shared_read_ignores_coop "south" "north" northStore Hsound)
    as (Hsame & _ & _).
  split; [exact Hsame|].
  eexists. split; [left; reflexivity|]. split; reflexivity.
Defined.

Section Classification.

Import CoopTempAlert.

Lemma Qlt_bool_true (x y : Q) : Qlt_bool x y = true <-> (x < y)%Q.
Proof.
  unfold Qlt_bool. rewrite Bool.negb_true_iff. split.
  - intros H. apply Qnot_le_lt. intros Hle. apply Qle_bool_iff in Hle. congruence.
  - intros H. destruct (Qle_bool y x) eqn:E; [|reflexivity].
    apply Qle_bool_iff in E. exfalso. exact (Qlt_not_le _ _ H E).
Qed.

Lemma Qlt_bool_false (x y : Q) : Qlt_bool x y = false <-> (y <= x)%Q.
Proof.
  unfold Qlt_bool. rewrite Bool.negb_false_iff. apply Qle_bool_iff.
Qed.

Lemma classify_low (t minSafe maxSafe : Q) :
  (t < minSafe)%Q -> fst (classify t minSafe maxSafe) = LOW.
Proof.
  intros H. unfold classify. apply Qlt_bool_true in H. now rewrite H.
Qed.

Lemma classify_high (t minSafe maxSafe : Q) :
  (minSafe <= t)%Q -> (maxSafe < t)%Q -> fst (classify t minSafe maxSafe) = HIGH.
Proof.
  intros H1 H2. unfold classify.
  apply Qlt_bool_false in H1. apply Qlt_bool_true in H2. now rewrite H1, H2.
Qed.

Lemma classify_ok (t minSafe maxSafe : Q) :
  (minSafe <= t)%Q -> (t <= maxSafe)%Q -> fst (classify t minSafe maxSafe) = OK.
Proof.
  intros H1 H2. unfold classify.
  apply Qlt_bool_false in H1. apply Qlt_bool_false in H2. now rewrite H1, H2.
Qed.

(** The output of a call that returns one. *)
Lemma execute_Ok_inv (minSafe maxSafe : Q) (coopId : string) (env : Env)
    (store : sensorMemoryStore) (st st' : State) (out : Output) :
  execute minSafe maxSafe coopId env store st = (st', Ok out) ->
  (STALE_DATA_THRESHOLD < now env - out_timestamp out /\ status out = STALE)
  \/ (now env - out_timestamp out <= STALE_DATA_THRESHOLD
      /\ exists t, current out = JNum t
                   /\ status out = fst (classify t minSafe maxSafe)).
Proof.
  unfold execute.
  destruct (now env - lastCallTime st <? RATE_LIMIT_INTERVAL); [discriminate|].
  destruct (getLatestTemperature _ _ _ _) as [cache' [reading|]]; [|discriminate].
  destruct (Z.ltb_spec STALE_DATA_THRESHOLD (now env - timestamp reading)) as [Hs|Hs].
  - intros E. injection E as _ <-. left. simpl. auto.
  - destruct (temperature reading) as [|b|t|s|items|props] eqn:Ht; try discriminate.
    destruct (classify t minSafe maxSafe) as [s m] eqn:Hc.
    intros E. injection E as _ <-. right. simpl. split; [exact Hs|].
    exists t. split; [reflexivity|]. now rewrite Hc.
Qed.

End Classification.

(** C4.  For a reading returned by [checkSafety]: when its age exceeds
    two minutes the status is STALE whatever its value.  Otherwise, for
    a numeric value: strictly below [minSafe] the status is LOW, and for
    bounds with [minSafe <= maxSafe], strictly above [maxSafe] it is HIGH
    and from [minSafe] to [maxSafe], both bounds included, it is OK. *)
Theorem reading_classification (minSafe maxSafe : Q) (coopId : string)
    (env : CoopTempAlert.Env) (store : sensorMemoryStore)
    (st st' : CoopTempAlert.State) (out : CoopTempAlert.Output) :
  CoopTempAlert.execute minSafe maxSafe coopId env store st
  = (st', CoopTempAlert.Ok out) ->
  let age := CoopTempAlert.now env - CoopTempAlert.out_timestamp out in
  (2 * 60 * 1000 < age -> CoopTempAlert.status out = CoopTempAlert.STALE)
  /\ (age <= 2 * 60 * 1000 ->
      forall t, CoopTempAlert.current out = JNum t ->
        ((t < minSafe)%Q -> CoopTempAlert.status out = CoopTempAlert.LOW)
        /\ ((minSafe <= maxSafe)%Q -> (maxSafe < t)%Q ->
            CoopTempAlert.status out = CoopTempAlert.HIGH)
        /\ ((minSafe <= maxSafe)%Q -> (t == minSafe \/ t == maxSafe)%Q ->
            CoopTempAlert.status out = CoopTempAlert.OK)
        /\ ((minSafe <= t)%Q -> (t <= maxSafe)%Q ->
            CoopTempAlert.status out = CoopTempAlert.OK)).
Proof.
  intros E age. subst age.
  destruct (execute_Ok_inv _ _ _ _ _ _ _ _ E) as [[Hs Hst]|[Hs (t0 & Ht0 & Hst)]];
    unfold CoopTempAlert.STALE_DATA_THRESHOLD in Hs.
  - split; [auto|lia].
  - split; [lia|]. intros _ t Ht. rewrite Ht0 in Ht. injection Ht as <-.
    rewrite Hst.
    split; [apply classify_low|]. split; [|split].
    + intros Hmm Hgt. apply classify_high; [|exact Hgt].
      apply Qle_trans with maxSafe; [exact Hmm|now apply Qlt_le_weak].
    + intros Hmm [Heq|Heq]; apply classify_ok; rewrite Heq;
        auto using Qle_refl.
    + apply classify_ok.
Qed.

(** The reading 95 against the bounds 35 and 95, ten seconds old. *)
Lemma reading_classification_boundary :
  statusOf (CoopTempAlert.exec CoopTempAlert.initialState
              (callAt "main" 200000 (storeWith 95 190000)))
  = Some CoopTempAlert.OK.
Proof.
  unfold statusOf, CoopTempAlert.exec.
  destruct (CoopTempAlert.execute _ _ _ _ _ _) as [st' r] eqn:E.
  pose proof E as E'. vm_compute in E'. injection E' as _ Hr. subst r.
  destruct (reading_classification _ _ _ _ _ _ _ _ E) as [_ Hfresh].
  assert (Hage : 200000 - 190000 <= 2 * 60 * 1000) by lia.
  destruct (Hfresh Hage 95%Q eq_refl) as (_ & _ & Hbound & _).
  refine (f_equal Some (Hbound _ _)).
  - vm_compute; discriminate.
  - right. reflexivity.
Defined.

Example reading_98_is_high :
  statusOf (CoopTempAlert.exec CoopTempAlert.initialState
              (callAt "main" 200000 (storeWith 98 190000)))
  = Some CoopTempAlert.HIGH.
Proof. vm_compute. reflexivity. Qed.

Example reading_150s_old_is_stale :
  statusOf (CoopTempAlert.exec CoopTempAlert.initialState
              (callAt "main" 200000 (storeWith 70 50000)))
  = Some CoopTempAlert.STALE.
Proof. vm_compute. reflexivity. Qed.

(** ** Calls that return a reading *)

Section Readable.

Import CoopTempAlert.

Lemma numericCache_insert (cache : gmap string TempReading) (k : string)
    (r : TempReading) :
  numericCache cache -> numericReading r -> numericCache (<[k := r]> cache).
Proof.
  intros Hc Hr k' r' Hl. destruct (decide (k = k')) as [->|Hne].
  - rewrite lookup_insert_eq in Hl. now injection Hl as <-.
  - rewrite lookup_insert_ne in Hl by exact Hne. eauto.
Qed.

Lemma getLatestTemperature_readable (coopId : string) (env : Env)
    (store : sensorMemoryStore) (cache : gmap string TempReading) :
  readableStore store -> numericCache cache ->
  exists r, snd (getLatestTemperature coopId env store cache) = Some r
            /\ numericReading r
            /\ numericCache (fst (getLatestTemperature coopId env store cache)).
Proof.
  intros Hstore Hcache. unfold getLatestTemperature.
  destruct (cache !! coopId) as [cached|] eqn:Hl.
  - destruct (cacheNow env - timestamp cached <? 30000).
    { exists cached. simpl. eauto. }
    pose proof (fetch_cases coopId store) as Hf.
    destruct (fetchFromSharedMemory coopId store) as [| |r].
    + destruct Hf as (e & He & Hn). now destruct (Hstore e He).
    + eexists. simpl. split; [reflexivity|].
      assert (numericReading (generateSimulatedReading env)) by (eexists; reflexivity).
      auto using numericCache_insert.
    + destruct Hf as (e & He & Hc & _ & ->). exists (readingOf e). simpl.
      destruct (Hstore e He) as [_ Hnum]. auto using numericCache_insert.
  - pose proof (fetch_cases coopId store) as Hf.
    destruct (fetchFromSharedMemory coopId store) as [| |r].
    + destruct Hf as (e & He & Hn). now destruct (Hstore e He).
    + eexists. simpl. split; [reflexivity|].
      assert (numericReading (generateSimulatedReading env)) by (eexists; reflexivity).
      auto using numericCache_insert.
    + destruct Hf as (e & He & Hc & _ & ->). exists (readingOf e). simpl.
      destruct (Hstore e He) as [_ Hnum]. auto using numericCache_insert.
Qed.

(** A call that passes the limiter over a readable store returns an
    output. *)
Lemma exec_readable (st : State) (c : Call) :
  5000 <= now (call_env c) - lastCallTime st ->
  numericCache (tempCache st) -> readableStore (call_store c) ->
  exists out, snd (exec st c) = Ok out
              /\ numericCache (tempCache (fst (exec st c))).
Proof.
  intros Hgap Hcache Hstore. unfold exec, execute, RATE_LIMIT_INTERVAL.
  destruct (Z.ltb_spec (now (call_env c) - lastCallTime st) (5 * 1000)); [lia|].
  destruct (getLatestTemperature_readable (call_coopId c) (call_env c) _ _
              Hstore Hcache) as (r & Hr & [q Hq] & Hc').
  destruct (getLatestTemperature _ _ _ _) as [cache' got]. simpl in Hr, Hc'.
  subst got. destruct (STALE_DATA_THRESHOLD <? _); [eexists; simpl; eauto|].
  rewrite Hq. destruct (classify _ _ _). eexists; simpl; eauto.
Qed.

End Readable.

(** C5, as stated, at three calls: the first passes the limiter at
    10000 ms, the second is refused at 14000 ms, and the third, made
    2000 ms after the second, passes. *)
Lemma call_after_refused_call_passes :
  let refused := callAt "main" 14000 [] in
  let next := callAt "main" 16000 [] in
  CoopTempAlert.rateLimited (snd (CoopTempAlert.exec afterFirstCall refused)) = true
  /\ 0 <= CoopTempAlert.now (CoopTempAlert.call_env next)
          - CoopTempAlert.now (CoopTempAlert.call_env refused) < 5000
  /\ CoopTempAlert.rateLimited
       (snd (CoopTempAlert.exec
               (fst (CoopTempAlert.exec afterFirstCall refused)) next)) = false.
Proof. vm_compute. repeat split; congruence. Qed.

(** C5.  The limiter is one for all coops and counts from the last call
    it let through.  When a call passes it, the next call, for any coop,
    made less than five seconds later is refused with the number of
    seconds left to wait, from 1 to 5, and changes nothing; made five
    seconds or more later it passes too, and both calls return an output
    when the stores they read are readable. *)
Theorem rate_limit_counts_from_last_accepted
    (st : CoopTempAlert.State) (first second : CoopTempAlert.Call) :
  5000 <= CoopTempAlert.now (CoopTempAlert.call_env first)
          - CoopTempAlert.lastCallTime st ->
  let st1 := fst (CoopTempAlert.exec st first) in
  let gap := CoopTempAlert.now (CoopTempAlert.call_env second)
             - CoopTempAlert.now (CoopTempAlert.call_env first) in
  CoopTempAlert.rateLimited (snd (CoopTempAlert.exec st first)) = false
  /\ (gap < 5000 ->
      CoopTempAlert.exec st1 second
      = (st1, CoopTempAlert.RateLimit (ceilDiv (5000 - gap) 1000)))
  /\ (0 <= gap < 5000 -> 1 <= ceilDiv (5000 - gap) 1000 <= 5)
  /\ (5000 <= gap ->
      CoopTempAlert.rateLimited (snd (CoopTempAlert.exec st1 second)) = false)
  /\ (5000 <= gap ->
      numericCache (CoopTempAlert.tempCache st) ->
      readableStore (CoopTempAlert.call_store first) ->
      readableStore (CoopTempAlert.call_store second) ->
      exists out1 out2,
        snd (CoopTempAlert.exec st first) = CoopTempAlert.Ok out1
        /\ snd (CoopTempAlert.exec st1 second) = CoopTempAlert.Ok out2).
Proof.
  intros Hfirst st1 gap.
  destruct (exec_passed st first Hfirst) as [Hpass Hlast].
  assert (Hgap : CoopTempAlert.now (CoopTempAlert.call_env second)
                 - CoopTempAlert.lastCallTime st1 = gap).
  { subst st1 gap. now rewrite Hlast. }
  split; [exact Hpass|]. split; [|split; [|split]].
  - intros Hlt. rewrite exec_refused by lia. now rewrite Hgap.
  - intros [H0 H5]. unfold ceilDiv.
    assert (-5 <= - (5000 - gap) / 1000 <= -1); [|lia].
    split.
    + apply Z.div_le_lower_bound; lia.
    + assert (- (5000 - gap) / 1000 < 0); [|lia].
      apply Z.div_lt_upper_bound; lia.
  - intros Hge. apply exec_passed. lia.
  - intros Hge Hcache Hs1 Hs2.
    destruct (exec_readable st first Hfirst Hcache Hs1) as (out1 & Ho1 & Hc1).
    destruct (exec_readable st1 second ltac:(lia) Hc1 Hs2) as (out2 & Ho2 & _).
    eauto.
Qed.

(** After the call accepted at 10000 ms: a call for another coop is
    refused at 12000 ms with 3 seconds to wait, and passes at 15000 ms. *)
Lemma rate_limit_counts_from_last_accepted_run :
  CoopTempAlert.exec afterFirstCall (callAt "north" 12000 [])
  = (afterFirstCall, CoopTempAlert.RateLimit 3)
  /\ CoopTempAlert.rateLimited
       (snd (CoopTempAlert.exec afterFirstCall (callAt "north" 15000 []))) = false.
Proof.
  assert (H : 5000 <= CoopTempAlert.now (CoopTempAlert.call_env (callAt "main" 10000 []))
                      - CoopTempAlert.lastCallTime CoopTempAlert.initialState)
    by (vm_compute; discriminate).
  split.
  - destruct (rate_limit_counts_from_last_accepted CoopTempAlert.initialState
                (callAt "main" 10000 []) (callAt "north" 12000 []) H)
      as (_ & Hrefused & _).
    apply Hrefused. vm_compute. reflexivity.
  - destruct (rate_limit_counts_from_last_accepted CoopTempAlert.initialState
                (callAt "main" 10000 []) (callAt "north" 15000 []) H)
      as (_ & _ & _ & Hpass & _).
    apply Hpass. vm_compute. discriminate.
Defined.

(** ** Topic matching *)

Section Matching.

Import MqttSubscribe.

(** For a pattern without "#" the loop never returns [true], and it
    runs to its end over a topic of the same length exactly when the
    segments agree pairwise. *)
Lemma matchFrom_hashfree (subRest actualRest : list string) :
  ~ In "#" subRest ->
  matchFrom actualRest subRest <> Some true
  /\ ((matchFrom actualRest subRest = None
       /\ length actualRest = length subRest)
      <-> Forall2 segmentAgrees subRest actualRest).
Proof.
  revert actualRest. induction subRest as [|p ps IH]; intros actualRest Hno.
  - simpl. split; [discriminate|]. split.
    + intros [_ Hlen]. destruct actualRest; [constructor|discriminate].
    + intros H. inversion H. auto.
  - assert (Hp : p <> "#") by (intros ->; apply Hno; now left).
    assert (Hps : ~ In "#" ps) by (intros H; apply Hno; now right).
    simpl. destruct (String.eqb_spec p "#") as [|_]; [contradiction|].
    destruct (String.eqb_spec p "+") as [->|Hplus].
    + destruct (IH (tail actualRest) Hps) as [IH1 IH2]. split; [exact IH1|].
      destruct actualRest as [|a rest]; simpl in *.
      * split; [intros [_ H]; discriminate | intros H; inversion H].
      * split.
        -- intros [Hm Hlen]. constructor; [now left|]. apply IH2. auto.
        -- intros H. inversion H; subst. apply IH2 in H5 as [? ?]. auto.
    + destruct actualRest as [|a rest].
      * split; [discriminate|].
        split; [intros [H _]; discriminate | intros H; inversion H].
      * destruct (String.eqb_spec p a) as [->|Hne].
        -- destruct (IH rest Hps) as [IH1 IH2]. split; [exact IH1|]. simpl.
           split.
           ++ intros [Hm Hlen]. constructor; [now right|]. apply IH2. auto.
           ++ intros H. inversion H; subst. apply IH2 in H5 as [? ?]. auto.
        -- split; [discriminate|].
           split; [intros [H _]; discriminate|].
           intros H. inversion H; subst. destruct H3; contradiction.
Qed.

(** A pattern without "#" matches exactly the topics with as many
    segments that agree with it segment by segment. *)
Lemma topicMatches_hashfree (actualTopic subscriptionTopic : string) :
  ~ In "#" (split subscriptionTopic) ->
  topicMatches actualTopic subscriptionTopic = true
  <-> Forall2 segmentAgrees (split subscriptionTopic) (split actualTopic).
Proof.
  intros Hno. unfold topicMatches.
  destruct (matchFrom_hashfree _ (split actualTopic) Hno) as [Hnt Hiff].
  destruct (matchFrom (split actualTopic) (split subscriptionTopic)) as [[|]|].
  - contradiction.
  - split; [discriminate|]. intros H. apply Hiff in H as [H _]. discriminate.
  - rewrite <- Hiff. rewrite Nat.eqb_eq. intuition.
Qed.

Lemma topicMatches_hashfree_length (actualTopic subscriptionTopic : string) :
  ~ In "#" (split subscriptionTopic) ->
  topicMatches actualTopic subscriptionTopic = true ->
  length (split actualTopic) = length (split subscriptionTopic).
Proof.
  intros Hno H. apply topicMatches_hashfree in H; [|exact Hno].
  symmetry. eapply Forall2_length, H.
Qed.

(** A "#" reached after segments that agree matches whatever follows. *)
Lemma matchFrom_hash (before after actualBefore actualAfter : list string) :
  ~ In "#" before ->
  Forall2 segmentAgrees before actualBefore ->
  matchFrom (actualBefore ++ actualAfter) (before ++ "#" :: after) = Some true.
Proof.
  intros Hno H. induction H as [|p a ps rest Hpa _ IH]; [reflexivity|].
  assert (Hp : p <> "#") by (intros ->; apply Hno; now left).
  assert (Hps : ~ In "#" ps) by (intros Hin; apply Hno; now right).
  simpl. destruct (String.eqb_spec p "#") as [|_]; [contradiction|].
  destruct (String.eqb_spec p "+") as [_|Hplus]; [now apply IH|].
  destruct Hpa as [|<-]; [contradiction|].
  rewrite String.eqb_refl. now apply IH.
Qed.

End Matching.

(** The topic [a/b/c] against the seven patterns of the specification. *)
Example topicMatches_examples :
  MqttSubscribe.topicMatches "a/b/c" "a/b/c" = true
  /\ MqttSubscribe.topicMatches "a/b/c" "a/+/c" = true
  /\ MqttSubscribe.topicMatches "a/b/c" "a/#" = true
  /\ MqttSubscribe.topicMatches "a/b/c" "#" = true
  /\ MqttSubscribe.topicMatches "a/b/c" "a/b" = false
  /\ MqttSubscribe.topicMatches "a/b/c" "a/b/c/d" = false
  /\ MqttSubscribe.topicMatches "a/b/c" "x/+/c" = false.
Proof. repeat split; reflexivity. Qed.

(** C2, at the topic [a] and the pattern [a/+/#]: the "+" stands where
    the topic has no segment left, the loop passes over it without
    looking at the topic, and the "#" after it returns [true]. *)
Theorem plus_matches_missing_segment :
  MqttSubscribe.topicMatches "a" "a/+/#" = true
  /\ split "a" = ["a"]
  /\ split "a/+/#" = ["a"; "+"; "#"].
Proof. repeat split; reflexivity. Qed.

(** ** Content filters *)

Section Filtering.

Import MqttSubscribe.

Variable JSON_parse : string -> option JSON.

Lemma everyEntry_Matches (parsedMessage : JSON) (entries : list (string * JSON)) :
  everyEntry parsedMessage entries = Matches
  <-> Forall (fieldEquals parsedMessage) entries.
Proof.
  induction entries as [|[key value] rest IH]; simpl.
  - split; [constructor|reflexivity].
  - unfold fieldEquals at 1.
    destruct (getProp parsedMessage key) as [|a] eqn:Hg.
    + split; [discriminate|]. intros H. inversion H as [|? ? (a & Ha & _) _]; subst.
      simpl in Ha. congruence.
    + destruct (strictEq a value) eqn:Hs.
      * rewrite IH. split.
        -- intros H. constructor; [|exact H]. exists a. auto.
        -- intros H. now inversion H.
      * split; [discriminate|]. intros H.
        inversion H as [|? ? (a' & Ha & Hs') _]; subst. simpl in Ha, Hs'.
        congruence.
Qed.

Lemma deliver_accepts (topic0 raw : string) (now : Z)
    (store : sensorMemoryStore) (subscription : Subscription) :
  deliver JSON_parse topic0 raw now store subscription
  = if accepts JSON_parse raw subscription
    then addSensorData topic0 (parseMessage JSON_parse raw)
           (analysisOf JSON_parse topic0 raw) now store
    else store.
Proof.
  unfold deliver, accepts, analysisOf.
  destruct (paused subscription); [reflexivity|]. simpl.
  now destruct (filterVerdict _ _).
Qed.

(** A subscription that does not accept the message leaves the outcome
    of the delivery as it is without that subscription. *)
Lemma handleMessage_skip (topic0 raw : string) (now : Z)
    (before after : subscriptions) (key : string) (subscription : Subscription)
    (store : sensorMemoryStore) :
  accepts JSON_parse raw subscription = false ->
  handleMessage JSON_parse topic0 raw now
    (before ++ (key, subscription) :: after) store
  = handleMessage JSON_parse topic0 raw now (before ++ after) store.
Proof.
  intros Hno. unfold handleMessage.
  rewrite !List.filter_app, !List.map_app, !fold_left_app. simpl.
  destruct (topicMatches topic0 key); [|reflexivity].
  simpl. now rewrite deliver_accepts, Hno.
Qed.

End Filtering.

(** C8, as stated, at the text payload [hello] and at the number
    payload [42]: neither has a [sensor] property, the subscription
    matches and is not paused, and both messages are stored. *)
Lemma text_payload_passes_filter :
  MqttSubscribe.topicMatches "coop/main/temp" "coop/#" = true
  /\ getProp (MqttSubscribe.parseMessage sampleParse "hello") "sensor" = Got None
  /\ MqttSubscribe.handleMessage sampleParse "coop/main/temp" "hello" 5
       [("coop/#", tempOnly)] initialStore
     = [ {| topic := "coop/main/temp"; data := JStr "hello"; timestamp := 5;
            analysis := "Received other message from coop" |} ]
  /\ List.map data
       (MqttSubscribe.handleMessage sampleParse "coop/main/temp" "42" 6
          [("coop/#", tempOnly)] initialStore)
     = [JNum 42].
Proof. repeat split; reflexivity. Qed.

(** C8.  For a subscription with a filter that is not paused, and a
    message whose parsed payload is an object: the message is stored
    exactly when every filter field is [===] to the payload's property
    of that name; a message that is not stored leaves the store as it
    was, and the delivery ends as if the subscription were not there.
    A payload that is not an object is stored whatever the filter. *)
Theorem filter_applies_to_object_payloads
    (JSON_parse : string -> option JSON)
    (subscription : MqttSubscribe.Subscription)
    (f : list (string * JSON)) (topic0 raw : string) (now : Z)
    (store : sensorMemoryStore) :
  MqttSubscribe.filter subscription = Some f ->
  MqttSubscribe.paused subscription = false ->
  let parsedMessage := MqttSubscribe.parseMessage JSON_parse raw in
  (typeofObject parsedMessage = true ->
   (MqttSubscribe.accepts JSON_parse raw subscription = true
    <-> Forall (fieldEquals parsedMessage) f))
  /\ (typeofObject parsedMessage = false ->
      MqttSubscribe.accepts JSON_parse raw subscription = true)
  /\ MqttSubscribe.deliver JSON_parse topic0 raw now store subscription
     = (if MqttSubscribe.accepts JSON_parse raw subscription
        then addSensorData topic0 parsedMessage
               (analysisOf JSON_parse topic0 raw) now store
        else store)
  /\ (MqttSubscribe.accepts JSON_parse raw subscription = false ->
      forall before after key,
        MqttSubscribe.handleMessage JSON_parse topic0 raw now
          (before ++ (key, subscription) :: after) store
        = MqttSubscribe.handleMessage JSON_parse topic0 raw now
            (before ++ after) store).
Proof.
  intros Hf Hp parsedMessage. split; [|split; [|split]].
  - intros Hobj. unfold MqttSubscribe.accepts, MqttSubscribe.filterVerdict.
    rewrite Hf, Hp. fold parsedMessage. rewrite Hobj. simpl.
    rewrite <- everyEntry_Matches.
    destruct (MqttSubscribe.everyEntry parsedMessage f); split;
      intros; congruence.
  - intros Hobj. unfold MqttSubscribe.accepts, MqttSubscribe.filterVerdict.
    rewrite Hf, Hp. fold parsedMessage. now rewrite Hobj.
  - apply deliver_accepts.
  - intros Hno before after key. now apply handleMessage_skip.
Qed.

(** A humidity reading is dropped by the subscription that asks for
    [sensor = "temp"]. *)
Lemma filter_applies_to_object_payloads_drop :
  MqttSubscribe.handleMessage sampleParse "coop/main/temp" humidityText 7
    ([] ++ [("coop/#", tempOnly)]) initialStore
  = initialStore.
Proof.
  destruct (filter_applies_to_object_payloads sampleParse tempOnly
              [("sensor", JStr "temp")] "coop/main/temp" humidityText 7
              initialStore eq_refl eq_refl) as (_ & _ & _ & Hskip).
  apply (Hskip eq_refl [] [] "coop/#").
Defined.

(** ** The feed scheduler *)

Section Report.

Import FeedSchedule.

Variable Date_parse : string -> option Z.

(** What a successful [resolveRecord] leaves behind. *)
Lemma resolveRecord_inr (inp : Input) (st st1 : State) (record : FeedingRecord) :
  resolveRecord Date_parse inp st = (st1, inr record) ->
  1 <= in_intervalHours inp <= 48
  /\ feedingRecords st1 !! in_coopId inp = Some record
  /\ st1 = {| feedingRecords := feedingRecords st1;
              scheduledReminders := scheduledReminders st;
              approvalCallback := approvalCallback st;
              timers := timers st;
              nextHandle := nextHandle st |}.
Proof.
  unfold resolveRecord.
  destruct (Z.ltb_spec (in_intervalHours inp) 1); [discriminate|].
  destruct (Z.ltb_spec 48 (in_intervalHours inp)); [discriminate|]. simpl.
  match goal with
  | |- context [match ?x with Some _ => _ | None => _ end] =>
      destruct x as [s|] eqn:Hs
  end.
  - destruct (Date_parse s) as [fedTime|]; [|discriminate].
    intros E. injection E as <- <-. simpl.
    split; [lia|]. split; [apply lookup_insert_eq|reflexivity].
  - destruct (feedingRecords st !! in_coopId inp) as [r|] eqn:Hl; [|discriminate].
    intros E. injection E as <- <-.
    split; [lia|]. split; [exact Hl|]. now destruct st.
Qed.

(** [resolveRecord] touches the feeding records only. *)
Lemma resolveRecord_timers (inp : Input) (st st1 : State)
    (r : Error + FeedingRecord) :
  resolveRecord Date_parse inp st = (st1, r) ->
  scheduledReminders st1 = scheduledReminders st /\ timers st1 = timers st
  /\ approvalCallback st1 = approvalCallback st.
Proof.
  unfold resolveRecord.
  destruct ((in_intervalHours inp <? 1) || (48 <? in_intervalHours inp));
    [intros [= <- _]; now repeat split|].
  destruct (match in_lastFedAt inp with
            | Some s => if String.eqb s "" then None else Some s
            | None => None
            end) as [s|].
  - destruct (Date_parse s); intros [= <- _]; now repeat split.
  - destruct (feedingRecords st !! in_coopId inp); intros [= <- _];
      now repeat split.
Qed.

(** Of another coop it leaves the record alone as well. *)
Lemma resolveRecord_other (inp : Input) (st : State) (other : string) :
  other <> in_coopId inp ->
  feedingRecords (fst (resolveRecord Date_parse inp st)) !! other
  = feedingRecords st !! other.
Proof.
  intros Hne. unfold resolveRecord.
  destruct ((in_intervalHours inp <? 1) || (48 <? in_intervalHours inp));
    [reflexivity|].
  destruct (match in_lastFedAt inp with
            | Some s => if String.eqb s "" then None else Some s
            | None => None
            end) as [s|].
  - destruct (Date_parse s); simpl; [|reflexivity].
    apply lookup_insert_ne. congruence.
  - now destruct (feedingRecords st !! in_coopId inp).
Qed.

(** Whatever a call answers, it leaves the state as the record update of
    lines 42 to 69 left it. *)
Lemma execute_state (inp : Input) (now : Z) (st : State) :
  fst (fst (execute Date_parse inp now st)) = fst (resolveRecord Date_parse inp st).
Proof.
  unfold execute.
  destruct (resolveRecord Date_parse inp st) as [st1 [e|record]]; [reflexivity|].
  destruct (in_scheduleReminder inp && negb (nextFeedAt record <=? now));
    [|reflexivity].
  destruct (in_intervalHours inp <? 6); [|reflexivity].
  now destruct (requestApproval (approvalRequestOf inp) st1) as [e|[|]].
Qed.

(** The function of lines 130 to 151 taken by itself: called before the
    feeding time it answers [true] and leaves a timer for the coop that
    fires at the feeding time, or 2147483647 ms after the call when that
    is further away. *)
Lemma scheduleReminder_arms (coop : string) (feedTime armNow : Z) (st : State) :
  armNow < feedTime ->
  let run := scheduleReminder coop feedTime armNow st in
  snd run = true
  /\ scheduledReminders (fst (fst run)) !! coop = Some (nextHandle st)
  /\ In {| handle := nextHandle st; timer_coopId := coop;
           fireAt := Z.min feedTime (armNow + MAX_TIMEOUT) |}
        (timers (fst (fst run))).
Proof.
  intros Hfut. unfold scheduleReminder.
  replace (Z.min feedTime (armNow + MAX_TIMEOUT))
    with (armNow + Z.min (feedTime - armNow) MAX_TIMEOUT) by lia.
  destruct (scheduledReminders st !! coop) as [existing|];
    (destruct (Z.leb_spec (feedTime - armNow) 0); [lia|]); simpl;
    (split; [reflexivity|]); (split; [apply lookup_insert_eq|]);
    apply List.in_app_iff; right; now left.
Qed.

End Report.

(** C1.  A report that asks for a reminder on a record whose next feeding
    is in the future never arms a timer: the pending timers and
    [scheduledReminders] are what they were.  With an interval of 6
    hours or more the call throws the [TypeError] of applying the
    boolean [scheduleReminder], the gate not asked.  With a shorter
    interval the gate is asked first: without a registered gate the call
    throws the approval request; on denial it returns
    [reminderScheduled = false] and a message that ends with the denial
    notice; on approval it throws the same [TypeError].  In each case the
    state is as the record update left it. *)
Theorem reminder_call_throws
    (Date_parse : string -> option Z) (inp : FeedSchedule.Input)
    (now : Z) (st st1 : FeedSchedule.State)
    (record : FeedSchedule.FeedingRecord) :
  FeedSchedule.in_scheduleReminder inp = true ->
  FeedSchedule.resolveRecord Date_parse inp st = (st1, inr record) ->
  now < FeedSchedule.nextFeedAt record ->
  let request := FeedSchedule.approvalRequestOf inp in
  let run := FeedSchedule.execute Date_parse inp now st in
  FeedSchedule.timers (fst (fst run)) = FeedSchedule.timers st
  /\ FeedSchedule.scheduledReminders (fst (fst run))
     = FeedSchedule.scheduledReminders st
  /\ (6 <= FeedSchedule.in_intervalHours inp ->
      run = (st1, [], inl FeedSchedule.NotAFunction))
  /\ (FeedSchedule.in_intervalHours inp < 6 ->
      match FeedSchedule.approvalCallback st with
      | None => run = (st1, [], inl (FeedSchedule.ApprovalRequired request))
      | Some gate =>
          if gate request
          then run = (st1, [FeedSchedule.GateAsked request true],
                      inl FeedSchedule.NotAFunction)
          else run = (st1, [FeedSchedule.GateAsked request false],
                      inr {| FeedSchedule.out_lastFedAt :=
                               FeedSchedule.lastFedAt record;
                             FeedSchedule.nextAt := FeedSchedule.nextFeedAt record;
                             FeedSchedule.due := false;
                             FeedSchedule.message :=
                               FeedSchedule.statusMessage record
                                 (FeedSchedule.in_intervalHours inp) now
                               +:+ FeedSchedule.deniedNotice;
                             FeedSchedule.reminderScheduled := false |})
      end).
Proof.
  intros Hask Hres Hnow request run.
  destruct (resolveRecord_timers Date_parse inp st st1 _ Hres)
    as (Hheld & Htimers & Hgate).
  assert (Hst : fst (fst run) = st1).
  { unfold run. rewrite execute_state. now rewrite Hres. }
  rewrite Hst. split; [exact Htimers|]. split; [exact Hheld|].
  assert (Hdue : (FeedSchedule.nextFeedAt record <=? now) = false)
    by (apply Z.leb_gt; lia).
  unfold run, FeedSchedule.execute. rewrite Hres, Hask, Hdue. simpl.
  split.
  - intros Hlong.
    destruct (Z.ltb_spec (FeedSchedule.in_intervalHours inp) 6); [lia|reflexivity].
  - intros Hshort.
    destruct (Z.ltb_spec (FeedSchedule.in_intervalHours inp) 6); [|lia].
    unfold FeedSchedule.requestApproval. rewrite Hgate. fold request.
    destruct (FeedSchedule.approvalCallback st) as [gate|]; [|reflexivity].
    now destruct (gate request).
Qed.

Example jan15_is_2024_01_15 :
  FeedSchedule.isoParse "2024-01-15T00:00:00Z" = Some jan15.
Proof. reflexivity. Qed.

(** A reminder asked one hour after a feeding on a four-hour interval,
    with a gate that approves: the gate is asked, the call throws, and
    no timer is pending. *)
Lemma reminder_call_throws_four_hours :
  let st := fedAt "2024-01-15T00:00:00Z" in
  FeedSchedule.execute FeedSchedule.isoParse remindMain (jan15 + 3600000) st
  = (st, [FeedSchedule.GateAsked (FeedSchedule.approvalRequestOf remindMain) true],
     inl FeedSchedule.NotAFunction)
  /\ FeedSchedule.timers st = [].
Proof.
  intros st. split; [|reflexivity].
  pose (record := {| FeedSchedule.lastFedAt := jan15;
                     FeedSchedule.nextFeedAt := jan15 + 4 * 3600000;
                     FeedSchedule.coopId := "main";
                     FeedSchedule.intervalHours := 4 |}).
  assert (Hres : FeedSchedule.resolveRecord FeedSchedule.isoParse remindMain st
                 = (st, inr record)) by (vm_compute; reflexivity).
  destruct (reminder_call_throws FeedSchedule.isoParse remindMain
              (jan15 + 3600000) st st record eq_refl Hres
              ltac:(vm_compute; reflexivity)) as (_ & _ & _ & Hshort).
  exact (Hshort ltac:(vm_compute; reflexivity)).
Defined.

(** The same report on a twelve-hour interval, for which no gate is
    asked: the call throws and no timer is pending. *)
Example twelve_hour_reminder_throws :
  let report := {| FeedSchedule.in_lastFedAt := Some "2024-01-15T00:00:00Z";
                   FeedSchedule.in_intervalHours := 12;
                   FeedSchedule.in_scheduleReminder := true;
                   FeedSchedule.in_coopId := "main" |} in
  let run := FeedSchedule.execute FeedSchedule.isoParse report
               (jan15 + 3600000) FeedSchedule.initialState in
  snd run = inl FeedSchedule.NotAFunction
  /\ snd (fst run) = []
  /\ FeedSchedule.timers (fst (fst run)) = []
  /\ FeedSchedule.scheduledReminders (fst (fst run)) = ∅
  /\ FeedSchedule.nextFeedAt <$> (FeedSchedule.feedingRecords (fst (fst run)) !! "main")
     = Some (jan15 + 12 * 3600000).
Proof. vm_compute. repeat split; reflexivity. Qed.

Section Records.

Import FeedSchedule.

Variable Date_parse : string -> option Z.

Lemma resolveRecord_interval (inp : Input) (st : State) :
  in_intervalHours inp < 1 \/ 48 < in_intervalHours inp ->
  resolveRecord Date_parse inp st = (st, inl InvalidInterval).
Proof.
  intros H. unfold resolveRecord.
  destruct (Z.ltb_spec (in_intervalHours inp) 1); [reflexivity|].
  destruct (Z.ltb_spec 48 (in_intervalHours inp)); [reflexivity|lia].
Qed.

Lemma resolveRecord_valid (inp : Input) (st : State) :
  1 <= in_intervalHours inp <= 48 ->
  resolveRecord Date_parse inp st
  = match (match in_lastFedAt inp with
           | Some s => if String.eqb s "" then None else Some s
           | None => None
           end) with
    | Some s =>
        match Date_parse s with
        | None => (st, inl InvalidTimestamp)
        | Some fedTime =>
            let record :=
              {| lastFedAt := fedTime;
                 nextFeedAt := fedTime + in_intervalHours inp * 60 * 60 * 1000;
                 coopId := in_coopId inp;
                 intervalHours := in_intervalHours inp |} in
            ({| feedingRecords := <[in_coopId inp := record]> (feedingRecords st);
                scheduledReminders := scheduledReminders st;
                approvalCallback := approvalCallback st;
                timers := timers st;
                nextHandle := nextHandle st |}, inr record)
        end
    | None =>
        match feedingRecords st !! in_coopId inp with
        | Some record => (st, inr record)
        | None => (st, inl NoFeedingHistory)
        end
    end.
Proof.
  intros H. unfold resolveRecord.
  destruct (Z.ltb_spec (in_intervalHours inp) 1); [lia|].
  destruct (Z.ltb_spec 48 (in_intervalHours inp)); [lia|]. reflexivity.
Qed.

Lemma resolveRecord_supplied (inp : Input) (st : State) (s : string) (fedTime : Z) :
  1 <= in_intervalHours inp <= 48 ->
  in_lastFedAt inp = Some s -> s <> "" -> Date_parse s = Some fedTime ->
  let record :=
    {| lastFedAt := fedTime;
       nextFeedAt := fedTime + in_intervalHours inp * 60 * 60 * 1000;
       coopId := in_coopId inp;
       intervalHours := in_intervalHours inp |} in
  resolveRecord Date_parse inp st
  = ({| feedingRecords := <[in_coopId inp := record]> (feedingRecords st);
        scheduledReminders := scheduledReminders st;
        approvalCallback := approvalCallback st;
        timers := timers st;
        nextHandle := nextHandle st |}, inr record).
Proof.
  intros Hr Hs Hne Hp. rewrite resolveRecord_valid by exact Hr. rewrite Hs.
  destruct (String.eqb_spec s ""); [contradiction|]. now rewrite Hp.
Qed.

Lemma resolveRecord_stored (inp : Input) (st : State) (record : FeedingRecord) :
  1 <= in_intervalHours inp <= 48 -> omitted inp ->
  feedingRecords st !! in_coopId inp = Some record ->
  resolveRecord Date_parse inp st = (st, inr record).
Proof.
  intros Hr Ho Hl. rewrite resolveRecord_valid by exact Hr.
  destruct Ho as [-> | ->]; simpl; now rewrite Hl.
Qed.

(** What a call does once its record is resolved: it leaves the state
    alone and returns the record's two instants, unless a reminder was
    asked for while the feeding is not yet due; then it may throw the
    approval request or the [TypeError] of the reminder call. *)
Lemma execute_of_record (inp : Input) (now : Z) (st st1 : State)
    (record : FeedingRecord) :
  resolveRecord Date_parse inp st = (st1, inr record) ->
  let run := execute Date_parse inp now st in
  fst (fst run) = st1
  /\ match snd run with
     | inr out =>
         out_lastFedAt out = lastFedAt record
         /\ nextAt out = nextFeedAt record
         /\ due out = (nextFeedAt record <=? now)
     | inl e =>
         in_scheduleReminder inp = true
         /\ now < nextFeedAt record
         /\ (e = ApprovalRequired (approvalRequestOf inp) \/ e = NotAFunction)
     end.
Proof.
  intros Hres run. split.
  { unfold run. rewrite execute_state. now rewrite Hres. }
  subst run. unfold execute. rewrite Hres.
  destruct (in_scheduleReminder inp) eqn:Hs; simpl; [|auto].
  destruct (Z.leb_spec (nextFeedAt record) now) as [Hdue|Hdue]; simpl; [auto|].
  destruct (in_intervalHours inp <? 6); [|simpl; auto].
  unfold requestApproval.
  destruct (approvalCallback st1) as [gate|]; simpl; [|auto].
  destruct (gate _); simpl; auto.
Qed.

(** A call without a reminder request returns an output. *)
Lemma execute_plain (inp : Input) (now : Z) (st st1 : State)
    (record : FeedingRecord) :
  resolveRecord Date_parse inp st = (st1, inr record) ->
  in_scheduleReminder inp = false ->
  exists out, snd (execute Date_parse inp now st) = inr out.
Proof.
  intros Hres Hs. unfold execute. rewrite Hres, Hs. simpl. eauto.
Qed.

End Records.

(** C6.  A report with a parsable [lastFedAt] and an interval from 1
    to 48 hours replaces the coop's record by the one holding
    [lastFedAt] and [nextFeedAt = lastFedAt + intervalHours] and no other
    record, whatever the call then answers.  Without a reminder request
    the call returns, and a call that returns gives these two instants;
    a call fails only when a reminder was asked for while the feeding is
    not yet due, at the gate or at the reminder call, the record already
    replaced.  A later report for the same coop without [lastFedAt]
    leaves the records as they are and answers in the same way with the
    same two instants. *)
Theorem report_replaces_then_reuses
    (Date_parse : string -> option Z) (st : FeedSchedule.State)
    (inp : FeedSchedule.Input) (s : string) (fedTime now : Z) :
  Date_parse "" = None ->
  FeedSchedule.in_lastFedAt inp = Some s ->
  Date_parse s = Some fedTime ->
  1 <= FeedSchedule.in_intervalHours inp <= 48 ->
  let coop := FeedSchedule.in_coopId inp in
  let record :=
    {| FeedSchedule.lastFedAt := fedTime;
       FeedSchedule.nextFeedAt :=
         fedTime + FeedSchedule.in_intervalHours inp * 3600000;
       FeedSchedule.coopId := coop;
       FeedSchedule.intervalHours := FeedSchedule.in_intervalHours inp |} in
  let answers (asked : FeedSchedule.Input) (clock : Z)
      (r : FeedSchedule.Error + FeedSchedule.Output) :=
    (FeedSchedule.in_scheduleReminder asked = false -> returned r = true)
    /\ match r with
       | inr out =>
           FeedSchedule.out_lastFedAt out = fedTime
           /\ FeedSchedule.nextAt out = FeedSchedule.nextFeedAt record
       | inl e =>
           FeedSchedule.in_scheduleReminder asked = true
           /\ clock < FeedSchedule.nextFeedAt record
           /\ (e = FeedSchedule.ApprovalRequired
                     (FeedSchedule.approvalRequestOf asked)
               \/ e = FeedSchedule.NotAFunction)
       end in
  let run := FeedSchedule.execute Date_parse inp now st in
  let st1 := fst (fst run) in
  FeedSchedule.feedingRecords st1 = <[coop := record]> (FeedSchedule.feedingRecords st)
  /\ answers inp now (snd run)
  /\ (forall later now',
        FeedSchedule.in_lastFedAt later = None ->
        FeedSchedule.in_coopId later = coop ->
        1 <= FeedSchedule.in_intervalHours later <= 48 ->
        let run' := FeedSchedule.execute Date_parse later now' st1 in
        FeedSchedule.feedingRecords (fst (fst run')) = FeedSchedule.feedingRecords st1
        /\ answers later now' (snd run')).
Proof.
  intros Hempty Hs Hp Hr coop record answers run st1.
  assert (Hne : s <> "") by (intros ->; congruence).
  assert (Hrec : record
                 = {| FeedSchedule.lastFedAt := fedTime;
                      FeedSchedule.nextFeedAt :=
                        fedTime + FeedSchedule.in_intervalHours inp * 60 * 60 * 1000;
                      FeedSchedule.coopId := FeedSchedule.in_coopId inp;
                      FeedSchedule.intervalHours := FeedSchedule.in_intervalHours inp |}).
  { unfold record, coop. f_equal. lia. }
  pose proof (resolveRecord_supplied Date_parse inp st s fedTime Hr Hs Hne Hp) as Hres.
  cbv zeta in Hres. rewrite <- Hrec in Hres.
  destruct (execute_of_record Date_parse inp now st _ record Hres)
    as [Hstate Hout]. fold run in Hstate, Hout. fold st1 in Hstate.
  assert (Hrecords : FeedSchedule.feedingRecords st1
                     = <[coop := record]> (FeedSchedule.feedingRecords st))
    by (now rewrite Hstate).
  split; [exact Hrecords|]. split.
  - unfold answers. split.
    + intros Hplain.
      destruct (execute_plain Date_parse inp now st _ record Hres Hplain)
        as (out & Hrun). fold run in Hrun. now rewrite Hrun.
    + destruct (snd run) as [e|out]; tauto.
  - intros later now' Hnone Hcoop Hr' run'.
    assert (Hl : FeedSchedule.feedingRecords st1 !! FeedSchedule.in_coopId later
                 = Some record).
    { rewrite Hrecords, Hcoop. apply lookup_insert_eq. }
    pose proof (resolveRecord_stored Date_parse later st1 record Hr'
                  (or_introl Hnone) Hl) as Hres'.
    destruct (execute_of_record Date_parse later now' st1 _ record Hres')
      as [Hstate' Hout']. fold run' in Hstate', Hout'.
    split; [now rewrite Hstate'|].
    unfold answers. split.
    + intros Hplain.
      destruct (execute_plain Date_parse later now' st1 _ record Hres' Hplain)
        as (out & Hrun). fold run' in Hrun. now rewrite Hrun.
    + destruct (snd run') as [e|out]; tauto.
Qed.

(** The example of the specification: fed at midnight of 2024-01-15 on
    a 12-hour interval, then asked again without [lastFedAt]. *)
Lemma report_replaces_then_reuses_jan15 :
  let first := {| FeedSchedule.in_lastFedAt := Some "2024-01-15T00:00:00Z";
                  FeedSchedule.in_intervalHours := 12;
                  FeedSchedule.in_scheduleReminder := false;
                  FeedSchedule.in_coopId := "main" |} in
  let again := {| FeedSchedule.in_lastFedAt := None;
                  FeedSchedule.in_intervalHours := 12;
                  FeedSchedule.in_scheduleReminder := false;
                  FeedSchedule.in_coopId := "main" |} in
  let run := FeedSchedule.execute FeedSchedule.isoParse first
               (jan15 + 1000) FeedSchedule.initialState in
  let st1 := fst (fst run) in
  FeedSchedule.nextFeedAt <$> (FeedSchedule.feedingRecords st1 !! "main")
  = FeedSchedule.isoParse "2024-01-15T12:00:00Z"
  /\ FeedSchedule.nextAt <$> (match snd run with
                              | inr out => Some out
                              | inl _ => None
                              end)
     = FeedSchedule.isoParse "2024-01-15T12:00:00Z"
  /\ match snd (FeedSchedule.execute FeedSchedule.isoParse again
                  (jan15 + 5000) st1) with
     | inr out =>
         Some (FeedSchedule.out_lastFedAt out)
         = FeedSchedule.isoParse "2024-01-15T00:00:00Z"
         /\ Some (FeedSchedule.nextAt out)
            = FeedSchedule.isoParse "2024-01-15T12:00:00Z"
     | inl _ => False
     end.
Proof.
  intros first again run st1.
  destruct (report_replaces_then_reuses FeedSchedule.isoParse
              FeedSchedule.initialState first "2024-01-15T00:00:00Z" jan15
              (jan15 + 1000) eq_refl eq_refl eq_refl
              ltac:(simpl; lia)) as (Hrecords & [Hret Hout] & Hlater).
  fold run in Hrecords, Hret, Hout, Hlater. fold st1 in Hrecords, Hlater.
  split; [|split].
  - rewrite Hrecords. simpl. rewrite lookup_insert_eq. reflexivity.
  - specialize (Hret eq_refl).
    destruct (snd run) as [e|out]; [discriminate|].
    destruct Hout as [_ Hnext]. simpl. rewrite Hnext. reflexivity.
  - destruct (Hlater again (jan15 + 5000) eq_refl eq_refl
                ltac:(simpl; lia)) as [_ [Hret' Hout']].
    specialize (Hret' eq_refl).
    destruct (snd (FeedSchedule.execute _ again _ st1)) as [e|out];
      [discriminate|].
    destruct Hout' as [-> ->]. split; reflexivity.
Defined.

(** C7, as stated, at three reports to a process in which the main coop
    has a record.  An empty [lastFedAt], which does not parse, is taken
    for a missing one and the call returns an output; an unparsable
    [lastFedAt] with the interval 0, and a missing [lastFedAt] for a coop
    without a record with the interval 100, both fail with
    [InvalidInterval]. *)
Lemma interval_is_checked_first :
  let st := fedAt "2024-01-15T00:00:00Z" in
  let report lastFed hours coop :=
    snd (FeedSchedule.execute FeedSchedule.isoParse
           {| FeedSchedule.in_lastFedAt := lastFed;
              FeedSchedule.in_intervalHours := hours;
              FeedSchedule.in_scheduleReminder := false;
              FeedSchedule.in_coopId := coop |} jan15 st) in
  FeedSchedule.isoParse "" = None
  /\ returned (report (Some "") 12 "main") = true
  /\ FeedSchedule.isoParse "yesterday" = None
  /\ report (Some "yesterday") 0 "main" = inl FeedSchedule.InvalidInterval
  /\ FeedSchedule.feedingRecords st !! "north" = None
  /\ report None 100 "north" = inl FeedSchedule.InvalidInterval.
Proof. vm_compute. repeat split; reflexivity. Qed.

(** C7.  A report fails with [InvalidInterval] when the interval is
    outside 1 to 48 hours, whatever else holds.  With the interval in
    range it fails with [InvalidTimestamp] when a non-empty [lastFedAt]
    does not parse, and with [NoFeedingHistory] when [lastFedAt] is
    missing or empty and the coop has no record.  Each failure is a
    value of the result type with a message of its own; it changes no
    state and has no effect; and none of the three arises otherwise. *)
Theorem report_failures
    (Date_parse : string -> option Z) (st : FeedSchedule.State)
    (inp : FeedSchedule.Input) (now : Z) :
  let run := FeedSchedule.execute Date_parse inp now st in
  let hours := FeedSchedule.in_intervalHours inp in
  ((hours < 1 \/ 48 < hours) <->
   snd run = inl FeedSchedule.InvalidInterval)
  /\ ((1 <= hours <= 48
       /\ exists s, FeedSchedule.in_lastFedAt inp = Some s /\ s <> ""
                    /\ Date_parse s = None) <->
      snd run = inl FeedSchedule.InvalidTimestamp)
  /\ ((1 <= hours <= 48 /\ omitted inp
       /\ FeedSchedule.feedingRecords st !! FeedSchedule.in_coopId inp = None) <->
      snd run = inl FeedSchedule.NoFeedingHistory)
  /\ (forall e,
        snd run = inl e ->
        e = FeedSchedule.InvalidInterval \/ e = FeedSchedule.InvalidTimestamp
        \/ e = FeedSchedule.NoFeedingHistory ->
        run = (st, [], inl e))
  /\ FeedSchedule.errorMessage FeedSchedule.InvalidInterval
     <> FeedSchedule.errorMessage FeedSchedule.InvalidTimestamp
  /\ FeedSchedule.errorMessage FeedSchedule.InvalidInterval
     <> FeedSchedule.errorMessage FeedSchedule.NoFeedingHistory
  /\ FeedSchedule.errorMessage FeedSchedule.InvalidTimestamp
     <> FeedSchedule.errorMessage FeedSchedule.NoFeedingHistory.
Proof.
  intros run hours.
  assert (Hcases :
    (exists e, FeedSchedule.resolveRecord Date_parse inp st = (st, inl e)
               /\ run = (st, [], inl e)
               /\ ((e = FeedSchedule.InvalidInterval /\ (hours < 1 \/ 48 < hours))
                   \/ (e = FeedSchedule.InvalidTimestamp /\ 1 <= hours <= 48
                       /\ exists s, FeedSchedule.in_lastFedAt inp = Some s
                                    /\ s <> "" /\ Date_parse s = None)
                   \/ (e = FeedSchedule.NoFeedingHistory /\ 1 <= hours <= 48
                       /\ omitted inp
                       /\ FeedSchedule.feedingRecords st
                          !! FeedSchedule.in_coopId inp = None)))
    \/ (1 <= hours <= 48
        /\ (omitted inp ->
            FeedSchedule.feedingRecords st !! FeedSchedule.in_coopId inp <> None)
        /\ (forall s, FeedSchedule.in_lastFedAt inp = Some s -> s <> "" ->
                      Date_parse s <> None)
        /\ exists st1 record,
             FeedSchedule.resolveRecord Date_parse inp st = (st1, inr record))).
  { destruct (Z.lt_ge_cases hours 1) as [Hlo|Hlo].
    { left. exists FeedSchedule.InvalidInterval. subst run.
      unfold FeedSchedule.execute.
      rewrite resolveRecord_interval by (fold hours; lia). auto 6. }
    destruct (Z.lt_ge_cases 48 hours) as [Hhi|Hhi].
    { left. exists FeedSchedule.InvalidInterval. subst run.
      unfold FeedSchedule.execute.
      rewrite resolveRecord_interval by (fold hours; lia). auto 6. }
    assert (Hr : 1 <= hours <= 48) by lia. subst run.
    unfold FeedSchedule.execute, omitted.
    rewrite resolveRecord_valid by exact Hr.
    destruct (FeedSchedule.in_lastFedAt inp) as [s|] eqn:Hs.
    - destruct (String.eqb_spec s "") as [->|Hne].
      + destruct (FeedSchedule.feedingRecords st !! FeedSchedule.in_coopId inp)
          as [record|] eqn:Hl.
        * right. split; [exact Hr|]. split; [congruence|].
          split; [intros s' E; injection E as <-; congruence|eauto].
        * left. exists FeedSchedule.NoFeedingHistory. auto 10.
      + destruct (Date_parse s) as [fedTime|] eqn:Hp.
        * right. split; [exact Hr|]. split; [intros [?|?]; congruence|].
          split; [intros s' E; injection E as <-; congruence|eauto].
        * left. exists FeedSchedule.InvalidTimestamp.
          split; [reflexivity|]. split; [reflexivity|]. right. left. eauto 6.
    - destruct (FeedSchedule.feedingRecords st !! FeedSchedule.in_coopId inp)
        as [record|] eqn:Hl.
      + right. split; [exact Hr|]. split; [congruence|].
        split; [discriminate|eauto].
      + left. exists FeedSchedule.NoFeedingHistory. auto 10. }
  assert (Hok : forall st1 record,
             FeedSchedule.resolveRecord Date_parse inp st = (st1, inr record) ->
             forall e, snd run = inl e ->
                       e <> FeedSchedule.InvalidInterval
                       /\ e <> FeedSchedule.InvalidTimestamp
                       /\ e <> FeedSchedule.NoFeedingHistory).
  { intros st1 record Hres e He.
    destruct (execute_of_record Date_parse inp now st st1 record Hres)
      as [_ Hout]. fold run in Hout. rewrite He in Hout.
    destruct Hout as (_ & _ & [-> | ->]); repeat split; discriminate. }
  split; [|split; [|split; [|split]]].
  - split.
    + intros Hout. destruct Hcases as [(e & _ & -> & Hwhy)|(Hr & _)]; [|lia].
      destruct Hwhy as [[-> _]|[[_ [Hr _]]|[_ [Hr _]]]]; [reflexivity|lia|lia].
    + intros He. destruct Hcases as [(e & _ & Hrun & Hwhy)|(_ & _ & _ & st1 & record & Hres)].
      * rewrite Hrun in He. simpl in He. injection He as ->.
        destruct Hwhy as [[_ H]|[[H _]|[H _]]]; [exact H|discriminate|discriminate].
      * destruct (Hok _ _ Hres _ He) as (H1 & H2 & H3). congruence.
  - split.
    + intros (Hr & s & Hs & Hne & Hp).
      destruct Hcases as [(e & _ & -> & Hwhy)|(_ & _ & Hparse & _)].
      * destruct Hwhy as [[_ H]|[[-> _]|[_ (_ & Ho & _)]]]; [lia|reflexivity|].
        destruct Ho as [Ho|Ho]; rewrite Ho in Hs; congruence.
      * now destruct (Hparse s Hs Hne).
    + intros He. destruct Hcases as [(e & _ & Hrun & Hwhy)|(_ & _ & _ & st1 & record & Hres)].
      * rewrite Hrun in He. simpl in He. injection He as ->.
        destruct Hwhy as [[H _]|[[_ H]|[H _]]]; [discriminate|exact H|discriminate].
      * destruct (Hok _ _ Hres _ He) as (H1 & H2 & H3). congruence.
  - split.
    + intros (Hr & Ho & Hl).
      destruct Hcases as [(e & _ & -> & Hwhy)|(_ & Hhas & _)].
      * destruct Hwhy as [[_ H]|[[_ (_ & s & Hs & Hne & _)]|[-> _]]];
          [lia| |reflexivity].
        destruct Ho as [Ho|Ho]; rewrite Ho in Hs; congruence.
      * now destruct (Hhas Ho).
    + intros He. destruct Hcases as [(e & _ & Hrun & Hwhy)|(_ & _ & _ & st1 & record & Hres)].
      * rewrite Hrun in He. simpl in He. injection He as ->.
        destruct Hwhy as [[H _]|[[H _]|[_ H]]]; [discriminate|discriminate|exact H].
      * destruct (Hok _ _ Hres _ He) as (H1 & H2 & H3). congruence.
  - intros e He Hkind.
    destruct Hcases as [(e' & _ & Hrun & _)|(_ & _ & _ & st1 & record & Hres)].
    + rewrite Hrun in He |- *. simpl in He. now injection He as ->.
    + destruct (Hok _ _ Hres _ He) as (H1 & H2 & H3).
      destruct Hkind as [H|[H|H]]; congruence.
  - repeat split; discriminate.
Qed.

(** The first report of a process, without [lastFedAt]. *)
Lemma report_failures_no_history :
  snd (FeedSchedule.execute FeedSchedule.isoParse
         {| FeedSchedule.in_lastFedAt := None;
            FeedSchedule.in_intervalHours := 12;
            FeedSchedule.in_scheduleReminder := false;
            FeedSchedule.in_coopId := "main" |}
         jan15 FeedSchedule.initialState)
  = inl FeedSchedule.NoFeedingHistory.
Proof.
  apply (report_failures FeedSchedule.isoParse FeedSchedule.initialState).
  split; [simpl; lia|]. split; [now left|]. reflexivity.
Defined.

(** ** Further properties *)

Section NullPayload.

Import CoopTempAlert.

Lemma fetch_threw_iff (coopId : string) (store : sensorMemoryStore) :
  (exists e, In e store /\ nullUnderTempTopic e)
  <-> fetchFromSharedMemory coopId store = FetchThrew.
Proof.
  split.
  - intros (e & He & Hn). apply isTempEntry_None in Hn.
    unfold fetchFromSharedMemory, getSensorData.
    destruct (filterTemp store) as [kept|] eqn:Hf; [|reflexivity].
    destruct (filterTemp_Some _ _ Hf) as [_ Hall]. now destruct (Hall e He).
  - intros Hf. pose proof (fetch_cases coopId store) as Hc.
    now rewrite Hf in Hc.
Qed.

End NullPayload.

(** X1.  A [null] payload stored under a topic that contains "temp"
    makes the read of the shared store throw: every call of the
    evaluator that passes the limiter and misses the cache then ends
    with a [TypeError], for whichever coop, until the event is evicted.
    The call still counts against the limiter. *)
Theorem null_payload_breaks_read (store : sensorMemoryStore)
    (minSafe maxSafe : Q) (coopId : string) (env : CoopTempAlert.Env)
    (st : CoopTempAlert.State) :
  (exists e, In e store /\ nullUnderTempTopic e) ->
  5000 <= CoopTempAlert.now env - CoopTempAlert.lastCallTime st ->
  cacheMiss coopId env (CoopTempAlert.tempCache st) ->
  CoopTempAlert.execute minSafe maxSafe coopId env store st
  = ({| CoopTempAlert.tempCache := CoopTempAlert.tempCache st;
        CoopTempAlert.lastCallTime := CoopTempAlert.now env |},
     CoopTempAlert.TypeError).
Proof.
  intros Hnull Hgap Hmiss. apply (fetch_threw_iff coopId) in Hnull.
  unfold CoopTempAlert.execute, CoopTempAlert.RATE_LIMIT_INTERVAL.
  destruct (Z.ltb_spec (CoopTempAlert.now env - CoopTempAlert.lastCallTime st)
              (5 * 1000)); [lia|].
  unfold CoopTempAlert.getLatestTemperature, cacheMiss in *. rewrite Hnull.
  destruct (CoopTempAlert.tempCache st !! coopId) as [cached|]; [|reflexivity].
  destruct (Z.ltb_spec (CoopTempAlert.cacheNow env - CoopTempAlert.timestamp cached)
              30000); [lia|reflexivity].
Qed.

(** The message [null] on a temperature topic, delivered to the
    unfiltered subscription, then a call of the evaluator. *)
Lemma null_payload_breaks_read_delivery :
  let store := MqttSubscribe.handleMessage sampleParse "coop/main/temperature"
                 "null" 9000 [("coop/#", everything)] initialStore in
  List.map data store = [JNull]
  /\ snd (CoopTempAlert.exec CoopTempAlert.initialState (callAt "north" 10000 store))
     = CoopTempAlert.TypeError.
Proof.
  intros store. split; [reflexivity|].
  change (snd (CoopTempAlert.execute 35 95 "north"
                 (CoopTempAlert.call_env (callAt "north" 10000 store))
                 store CoopTempAlert.initialState)
          = CoopTempAlert.TypeError).
  rewrite (null_payload_breaks_read store 35 95 "north"
             (CoopTempAlert.call_env (callAt "north" 10000 store))
             CoopTempAlert.initialState).
  - reflexivity.
  - eexists. split; [left; reflexivity|]. split; reflexivity.
  - vm_compute. discriminate.
  - exact I.
Defined.

(** X2.  The matcher on the seven patterns of the specification for the
    topic [a/b/c]; on a pattern without a "#" segment, which matches
    exactly the topics with as many segments, each equal to the
    pattern's or standing under a "+"; and on a "#" reached after
    segments that agree, which matches whatever follows. *)
Theorem topic_matching (actualTopic subscriptionTopic : string) :
  (MqttSubscribe.topicMatches "a/b/c" "a/b/c" = true
   /\ MqttSubscribe.topicMatches "a/b/c" "a/+/c" = true
   /\ MqttSubscribe.topicMatches "a/b/c" "a/#" = true
   /\ MqttSubscribe.topicMatches "a/b/c" "#" = true
   /\ MqttSubscribe.topicMatches "a/b/c" "a/b" = false
   /\ MqttSubscribe.topicMatches "a/b/c" "a/b/c/d" = false
   /\ MqttSubscribe.topicMatches "a/b/c" "x/+/c" = false)
  /\ (~ In "#" (split subscriptionTopic) ->
      (MqttSubscribe.topicMatches actualTopic subscriptionTopic = true
       <-> Forall2 segmentAgrees (split subscriptionTopic) (split actualTopic))
      /\ (MqttSubscribe.topicMatches actualTopic subscriptionTopic = true ->
          length (split actualTopic) = length (split subscriptionTopic)))
  /\ (forall before after actualBefore actualAfter,
        ~ In "#" before ->
        Forall2 segmentAgrees before actualBefore ->
        split subscriptionTopic = before ++ "#" :: after ->
        split actualTopic = actualBefore ++ actualAfter ->
        MqttSubscribe.topicMatches actualTopic subscriptionTopic = true).
Proof.
  split; [exact topicMatches_examples|]. split.
  - intros Hno. split; [now apply topicMatches_hashfree|].
    now apply topicMatches_hashfree_length.
  - intros before after actualBefore actualAfter Hno Hagree Hsub Hact.
    unfold MqttSubscribe.topicMatches. rewrite Hsub, Hact.
    now rewrite (matchFrom_hash before after actualBefore actualAfter Hno Hagree).
Qed.

Section NoReminder.

Import FeedSchedule.

(** With no timer pending, none fires. *)
Lemma fireTimer_none (h : nat) (st : State) :
  timers st = [] -> fireTimer h st = st.
Proof. intros Hnone. unfold fireTimer. now rewrite Hnone. Qed.

End NoReminder.

(** X3.  No reminder is ever armed.  In every state the scheduler can
    reach, by reports, the registration of a gate and the firing of
    pending timers, no timer is pending and [scheduledReminders] is
    empty: [execute] never reaches the function that arms the timer. *)
Theorem no_reminder_is_ever_armed (Date_parse : string -> option Z)
    (st : FeedSchedule.State) :
  reachable Date_parse st ->
  FeedSchedule.timers st = []
  /\ FeedSchedule.scheduledReminders st = ∅.
Proof.
  induction 1 as [|inp now st _ IH|h st _ IH|callback st _ IH].
  - split; reflexivity.
  - rewrite execute_state.
    destruct (FeedSchedule.resolveRecord Date_parse inp st) as [st1 r] eqn:Hres.
    destruct (resolveRecord_timers Date_parse inp st st1 r Hres)
      as (Hheld & Htimers & _).
    simpl. now rewrite Hheld, Htimers.
  - destruct IH as (H1 & H2). rewrite fireTimer_none by exact H1. now split.
  - exact IH.
Qed.

(** Two reminders asked for the main coop, one after the other, with a
    gate that approves. *)
Lemma no_reminder_is_ever_armed_twice :
  let first := FeedSchedule.execute FeedSchedule.isoParse remindMain jan15
                 (fedAt "2024-01-15T00:00:00Z") in
  let second := FeedSchedule.execute FeedSchedule.isoParse remindMain
                  (jan15 + 1000) (fst (fst first)) in
  FeedSchedule.timers (fst (fst second)) = []
  /\ FeedSchedule.scheduledReminders (fst (fst second)) = ∅
  /\ returned (snd first) = false
  /\ returned (snd second) = false.
Proof.
  intros first second.
  destruct (no_reminder_is_ever_armed FeedSchedule.isoParse (fst (fst second)))
    as (Htimers & Hheld).
  - repeat apply reach_execute. apply reach_gate. apply reach_initial.
  - split; [exact Htimers|]. split; [exact Hheld|]. split; reflexivity.
Defined.

(** ** Further properties of the feed scheduler *)

(** X4.  A report for one coop leaves every other coop alone: the other
    coop's feeding record is what it was, and so are the pending timers,
    [scheduledReminders] and the gate, whether the report returns,
    fails before or after it replaced the record of its own coop, or
    throws at the reminder call. *)
Theorem report_leaves_other_coops (Date_parse : string -> option Z)
    (inp : FeedSchedule.Input) (now : Z) (st : FeedSchedule.State)
    (other : string) :
  other <> FeedSchedule.in_coopId inp ->
  let st' := fst (fst (FeedSchedule.execute Date_parse inp now st)) in
  FeedSchedule.feedingRecords st' !! other = FeedSchedule.feedingRecords st !! other
  /\ FeedSchedule.scheduledReminders st' = FeedSchedule.scheduledReminders st
  /\ FeedSchedule.timers st' = FeedSchedule.timers st
  /\ FeedSchedule.approvalCallback st' = FeedSchedule.approvalCallback st.
Proof.
  intros Hne st'. subst st'. rewrite execute_state.
  split; [now apply resolveRecord_other|].
  destruct (FeedSchedule.resolveRecord Date_parse inp st) as [st1 r] eqn:Hres.
  exact (resolveRecord_timers Date_parse inp st st1 r Hres).
Qed.

(** A report for the north coop that throws at the reminder call, the
    record of the north coop replaced and that of the main coop kept. *)
Lemma report_leaves_other_coops_north :
  let st := fedAt "2024-01-15T00:00:00Z" in
  let run := FeedSchedule.execute FeedSchedule.isoParse northReport (jan15 + 5) st in
  FeedSchedule.feedingRecords (fst (fst run)) !! "main"
  = FeedSchedule.feedingRecords st !! "main"
  /\ FeedSchedule.timers (fst (fst run)) = FeedSchedule.timers st
  /\ snd run = inl FeedSchedule.NotAFunction
  /\ FeedSchedule.nextFeedAt <$> (FeedSchedule.feedingRecords (fst (fst run)) !! "north")
     = Some (jan15 + 12 * 3600000).
Proof.
  intros st run.
  destruct (report_leaves_other_coops FeedSchedule.isoParse northReport
              (jan15 + 5) st "main") as (Hrecord & _ & Htimers & _);
    [discriminate|].
  split; [exact Hrecord|]. split; [exact Htimers|]. split; reflexivity.
Defined.

(** X6.  A report that returns tells whether the feeding is due by
    comparing the next feeding time with the clock, and when the feeding
    is due, or no reminder was asked for, it asks the gate nothing, arms
    and cancels no timer, leaves [scheduledReminders] as it is and
    reports [reminderScheduled = false]. *)
Theorem report_without_reminder (Date_parse : string -> option Z)
    (inp : FeedSchedule.Input) (now : Z)
    (st st' : FeedSchedule.State) (events : list FeedSchedule.Event)
    (out : FeedSchedule.Output) :
  FeedSchedule.execute Date_parse inp now st = (st', events, inr out) ->
  FeedSchedule.due out = (FeedSchedule.nextAt out <=? now)
  /\ (FeedSchedule.in_scheduleReminder inp = false
      \/ FeedSchedule.nextAt out <= now ->
      events = []
      /\ FeedSchedule.reminderScheduled out = false
      /\ FeedSchedule.timers st' = FeedSchedule.timers st
      /\ FeedSchedule.scheduledReminders st' = FeedSchedule.scheduledReminders st).
Proof.
  unfold FeedSchedule.execute.
  destruct (FeedSchedule.resolveRecord Date_parse inp st) as [st1 [e|record]] eqn:Hres;
    [discriminate|].
  destruct (resolveRecord_timers Date_parse inp st st1 _ Hres) as (Hheld & Htimers & _).
  destruct (FeedSchedule.in_scheduleReminder inp) eqn:Hask; simpl.
  - destruct (FeedSchedule.nextFeedAt record <=? now) eqn:Hdue; simpl.
    + intros [= <- <- <-]. simpl. rewrite Hdue. now repeat split.
    + destruct (FeedSchedule.in_intervalHours inp <? 6); [|discriminate].
      destruct (FeedSchedule.requestApproval _ st1) as [e|[|]];
        [discriminate|discriminate|].
      intros [= <- <- <-]. simpl. rewrite Hdue. split; [reflexivity|].
      intros [Hf|Hle]; [discriminate|]. apply Z.leb_gt in Hdue. lia.
  - intros [= <- <- <-]. simpl. now repeat split.
Qed.

(** The stored record of the main coop is read again, a day after the
    feeding, with a reminder asked for. *)
Lemma report_without_reminder_due :
  let st := fedAt "2024-01-15T00:00:00Z" in
  exists st' out,
    FeedSchedule.execute FeedSchedule.isoParse remindMain
      (jan15 + 86400000) st = (st', [], inr out)
    /\ FeedSchedule.due out = true
    /\ FeedSchedule.timers st' = FeedSchedule.timers st.
Proof.
  intros st.
  destruct (FeedSchedule.execute FeedSchedule.isoParse remindMain
              (jan15 + 86400000) st)
    as [[st' events] [e|out]] eqn:Hrun; [vm_compute in Hrun; discriminate|].
  destruct (report_without_reminder FeedSchedule.isoParse remindMain
              (jan15 + 86400000) st st' events out Hrun)
    as (Hdue & Hquiet).
  assert (Hnext : FeedSchedule.nextAt out <= jan15 + 86400000).
  { vm_compute in Hrun. injection Hrun as _ _ <-. vm_compute. discriminate. }
  destruct (Hquiet (or_intror Hnext)) as (-> & _ & Htimers & _).
  exists st', out. repeat split; [|exact Htimers].
  rewrite Hdue. now apply Z.leb_le.
Defined.

Section StatusText.

Import FeedSchedule.

Lemma hours_below (d : Z) (k : Z) :
  Qlt_bool (inject_Z d / 3600000) (inject_Z k) = (d <? k * 3600000).
Proof.
  destruct (d <? k * 3600000) eqn:H.
  - apply Qlt_bool_true. apply Z.ltb_lt in H.
    unfold Qlt, Qdiv, Qmult, Qinv, inject_Z. simpl. lia.
  - apply Qlt_bool_false. apply Z.ltb_ge in H.
    unfold Qle, Qdiv, Qmult, Qinv, inject_Z. simpl. lia.
Qed.

Lemma prefix_append (p s : string) : String.prefix p (p +:+ s) = true.
Proof.
  induction p as [|a p IH]; simpl; [now destruct s|].
  destruct (Ascii.ascii_dec a a); [exact IH|contradiction].
Qed.

End StatusText.

(** X8.  The status message by lateness: "OVERDUE" from 61 full minutes
    after the feeding time on (60 minutes and 59 seconds late is still
    "due now"), "due now" from the feeding time itself, "Next feeding in
    .. minutes" during the hour before it, and "scheduled in .. hours"
    when an hour or more remains. *)
Theorem status_message_by_lateness (record : FeedSchedule.FeedingRecord)
    (interval now : Z) :
  let late := now - FeedSchedule.nextFeedAt record in
  let m := FeedSchedule.statusMessage record interval now in
  (61 * 60000 <= late -> String.prefix "🚨 OVERDUE: Feeding is " m = true)
  /\ (0 <= late < 61 * 60000 ->
      String.prefix "⏰ Feeding is due now! Chickens were last fed " m = true)
  /\ (- 3600000 < late < 0 -> String.prefix "📢 Next feeding in " m = true)
  /\ (late <= - 3600000 ->
      String.prefix "✅ Next feeding scheduled in " m = true).
Proof.
  intros late m. subst late m. unfold FeedSchedule.statusMessage.
  repeat split; intros H.
  - replace (FeedSchedule.nextFeedAt record <=? now) with true
      by (symmetry; apply Z.leb_le; lia).
    replace (60 <? (now - FeedSchedule.nextFeedAt record) / 60000) with true;
      [apply prefix_append|].
    symmetry. apply Z.ltb_lt.
    assert (61 <= (now - FeedSchedule.nextFeedAt record) / 60000)
      by (apply Z.div_le_lower_bound; lia). lia.
  - replace (FeedSchedule.nextFeedAt record <=? now) with true
      by (symmetry; apply Z.leb_le; lia).
    replace (60 <? (now - FeedSchedule.nextFeedAt record) / 60000) with false;
      [apply prefix_append|].
    symmetry. apply Z.ltb_ge.
    assert ((now - FeedSchedule.nextFeedAt record) / 60000 < 61)
      by (apply Z.div_lt_upper_bound; lia). lia.
  - replace (FeedSchedule.nextFeedAt record <=? now) with false
      by (symmetry; apply Z.leb_gt; lia).
    rewrite (hours_below _ 0).
    replace (FeedSchedule.nextFeedAt record - now <? 0 * 3600000) with false
      by (symmetry; apply Z.ltb_ge; lia).
    rewrite (hours_below _ 1).
    replace (FeedSchedule.nextFeedAt record - now <? 1 * 3600000) with true
      by (symmetry; apply Z.ltb_lt; lia).
    apply prefix_append.
  - replace (FeedSchedule.nextFeedAt record <=? now) with false
      by (symmetry; apply Z.leb_gt; lia).
    rewrite (hours_below _ 0).
    replace (FeedSchedule.nextFeedAt record - now <? 0 * 3600000) with false
      by (symmetry; apply Z.ltb_ge; lia).
    rewrite (hours_below _ 1).
    replace (FeedSchedule.nextFeedAt record - now <? 1 * 3600000) with false
      by (symmetry; apply Z.ltb_ge; lia).
    apply prefix_append.
Qed.

(** ** Further properties of the temperature evaluator *)

Section Simulated.

Import CoopTempAlert.

Lemma mathRound_bounds (x : Q) (lo hi : Z) :
  (inject_Z lo - (1 # 2) <= x)%Q -> (x < inject_Z hi + (1 # 2))%Q ->
  lo <= mathRound x <= hi.
Proof.
  intros Hlo Hhi. unfold mathRound.
  pose proof (Qfloor_le (x + (1 # 2))) as Hfl.
  pose proof (Qlt_floor (x + (1 # 2))) as Hlt.
  split.
  - assert (H : (inject_Z lo < inject_Z (Qfloor (x + (1 # 2)) + 1))%Q).
    { eapply Qle_lt_trans; [|exact Hlt].
      generalize dependent (inject_Z lo). intros; lra. }
    rewrite <- Zlt_Qlt in H. lia.
  - assert (H : (inject_Z (Qfloor (x + (1 # 2))) < inject_Z (hi + 1))%Q).
    { eapply Qle_lt_trans; [exact Hfl|]. rewrite inject_Z_plus.
      generalize dependent (inject_Z hi). intros.
      change (inject_Z 1) with 1%Q. lra. }
    rewrite <- Zlt_Qlt in H. lia.
Qed.

Lemma tenth_bounds (n lo hi : Z) :
  lo <= n <= hi ->
  (inject_Z lo / 10 <= inject_Z n / 10)%Q /\ (inject_Z n / 10 <= inject_Z hi / 10)%Q.
Proof.
  intros [H1 H2]. unfold Qle, Qdiv, Qmult, Qinv, inject_Z. simpl. lia.
Qed.

(** With both random draws in [0, 1) a simulated temperature lies
    between 57.5 and 92.5 degrees. *)
Lemma simulated_range (env : Env) :
  (0 <= random1 env)%Q -> (random1 env < 1)%Q ->
  (0 <= random2 env)%Q -> (random2 env < 1)%Q ->
  exists t, generateSimulatedReading env
            = {| temperature := JNum t; timestamp := simNow env;
                 source := "simulated" |}
            /\ (115 # 2 <= t)%Q /\ (t <= 185 # 2)%Q.
Proof.
  intros H1 H1' H2 H2'. unfold generateSimulatedReading.
  eexists. split; [reflexivity|].
  match goal with
  | |- context [mathRound ?x] =>
      assert (Hr : 575 <= mathRound x <= 925)
  end.
  { apply mathRound_bounds;
      [change (inject_Z 575) with 575%Q|change (inject_Z 925) with 925%Q];
      repeat match goal with
             | |- context [if ?c then _ else _] => destruct c
             end; lra. }
  apply tenth_bounds in Hr. destruct Hr as [Hlo Hhi]. split.
  - eapply Qle_trans; [|exact Hlo]. unfold Qle. simpl. lia.
  - eapply Qle_trans; [exact Hhi|]. unfold Qle. simpl. lia.
Qed.

Lemma getLatestTemperature_hit (coopId : string) (env : Env)
    (store : sensorMemoryStore) (cache : gmap string TempReading)
    (r : TempReading) :
  cache !! coopId = Some r -> cacheNow env - timestamp r < 30000 ->
  getLatestTemperature coopId env store cache = (cache, Some r).
Proof.
  intros Hl Hage. unfold getLatestTemperature. rewrite Hl.
  now replace (cacheNow env - timestamp r <? 30000) with true
    by (symmetry; apply Z.ltb_lt; lia).
Qed.

Lemma getLatestTemperature_cached (coopId : string) (env : Env)
    (store : sensorMemoryStore) (cache cache' : gmap string TempReading)
    (r : TempReading) :
  getLatestTemperature coopId env store cache = (cache', Some r) ->
  cache' !! coopId = Some r.
Proof.
  unfold getLatestTemperature.
  destruct (cache !! coopId) as [cached|] eqn:Hl.
  - destruct (cacheNow env - timestamp cached <? 30000).
    + intros [= <- <-]. exact Hl.
    + destruct (fetchFromSharedMemory coopId store); intros [= <- <-];
        apply lookup_insert_eq.
  - destruct (fetchFromSharedMemory coopId store); intros [= <- <-];
      apply lookup_insert_eq.
Qed.

Lemma getLatestTemperature_simulated (coopId : string) (env : Env)
    (store : sensorMemoryStore) (cache : gmap string TempReading) :
  cacheMiss coopId env cache ->
  fetchFromSharedMemory coopId store = FetchNull ->
  getLatestTemperature coopId env store cache
  = (<[coopId := generateSimulatedReading env]> cache,
     Some (generateSimulatedReading env)).
Proof.
  intros Hmiss Hfetch. unfold getLatestTemperature, cacheMiss in *.
  destruct (cache !! coopId) as [cached|].
  - replace (cacheNow env - timestamp cached <? 30000) with false
      by (symmetry; apply Z.ltb_ge; lia).
    now rewrite Hfetch.
  - now rewrite Hfetch.
Qed.

End Simulated.

(** X9.  When the store yields no temperature reading and the cache has
    none that is fresh, a call that passes the limiter evaluates a
    simulated reading: with [Math.random] in [0, 1) its temperature lies
    between 57.5 and 92.5 degrees whatever the hour, so for bounds that
    enclose this range, the defaults 35 and 95 among them, the status is
    OK; the reading is cached under the asking coop. *)
Theorem simulated_reading_is_ok (minSafe maxSafe : Q) (coopId : string)
    (env : CoopTempAlert.Env) (store : sensorMemoryStore)
    (st : CoopTempAlert.State) :
  5000 <= CoopTempAlert.now env - CoopTempAlert.lastCallTime st ->
  cacheMiss coopId env (CoopTempAlert.tempCache st) ->
  CoopTempAlert.fetchFromSharedMemory coopId store = CoopTempAlert.FetchNull ->
  (0 <= CoopTempAlert.random1 env)%Q -> (CoopTempAlert.random1 env < 1)%Q ->
  (0 <= CoopTempAlert.random2 env)%Q -> (CoopTempAlert.random2 env < 1)%Q ->
  CoopTempAlert.now env - CoopTempAlert.simNow env <= 2 * 60 * 1000 ->
  (minSafe <= 115 # 2)%Q -> (185 # 2 <= maxSafe)%Q ->
  exists t m,
    CoopTempAlert.execute minSafe maxSafe coopId env store st
    = ({| CoopTempAlert.tempCache :=
            <[coopId := {| CoopTempAlert.temperature := JNum t;
                           CoopTempAlert.timestamp := CoopTempAlert.simNow env;
                           CoopTempAlert.source := "simulated" |}]>
              (CoopTempAlert.tempCache st);
          CoopTempAlert.lastCallTime := CoopTempAlert.now env |},
       CoopTempAlert.Ok {| CoopTempAlert.current := JNum t;
                           CoopTempAlert.status := CoopTempAlert.OK;
                           CoopTempAlert.message := m;
                           CoopTempAlert.out_timestamp := CoopTempAlert.simNow env |})
    /\ (115 # 2 <= t)%Q /\ (t <= 185 # 2)%Q.
Proof.
  intros Hpass Hmiss Hfetch H1 H1' H2 H2' Hage Hmin Hmax.
  destruct (simulated_range env H1 H1' H2 H2') as (t & Hsim & Hlo & Hhi).
  exists t. unfold CoopTempAlert.execute.
  replace (CoopTempAlert.now env - CoopTempAlert.lastCallTime st
           <? CoopTempAlert.RATE_LIMIT_INTERVAL) with false
    by (symmetry; apply Z.ltb_ge; unfold CoopTempAlert.RATE_LIMIT_INTERVAL; lia).
  rewrite (getLatestTemperature_simulated coopId env store _ Hmiss Hfetch), Hsim.
  simpl.
  replace (CoopTempAlert.STALE_DATA_THRESHOLD
           <? CoopTempAlert.now env - CoopTempAlert.simNow env) with false
    by (symmetry; apply Z.ltb_ge; unfold CoopTempAlert.STALE_DATA_THRESHOLD; lia).
  assert (Hok : fst (CoopTempAlert.classify t minSafe maxSafe) = CoopTempAlert.OK)
    by (apply classify_ok; lra).
  destruct (CoopTempAlert.classify t minSafe maxSafe) as [s m]. simpl in Hok.
  subst s. exists m. now repeat split.
Qed.

(** The first call of a process that has received no sensor data, at
    noon, with both draws one half: 82.5 degrees. *)
Lemma simulated_reading_is_ok_noon :
  exists m,
    snd (CoopTempAlert.exec CoopTempAlert.initialState (callAt "main" 10000 []))
    = CoopTempAlert.Ok {| CoopTempAlert.current := JNum (825 # 10);
                          CoopTempAlert.status := CoopTempAlert.OK;
                          CoopTempAlert.message := m;
                          CoopTempAlert.out_timestamp := 10000 |}.
Proof.
  destruct (simulated_reading_is_ok 35 95 "main"
              (CoopTempAlert.call_env (callAt "main" 10000 [])) []
              CoopTempAlert.initialState)
    as (t & m & Hrun & _); try (vm_compute; congruence); try reflexivity.
  exists m.
  assert (Ht : snd (CoopTempAlert.exec CoopTempAlert.initialState
                      (callAt "main" 10000 []))
               = CoopTempAlert.Ok
                   {| CoopTempAlert.current := JNum t;
                      CoopTempAlert.status := CoopTempAlert.OK;
                      CoopTempAlert.message := m;
                      CoopTempAlert.out_timestamp := 10000 |})
    by (unfold CoopTempAlert.exec; simpl CoopTempAlert.call_minSafe;
        simpl CoopTempAlert.call_maxSafe; simpl CoopTempAlert.call_coopId;
        simpl CoopTempAlert.call_store; now rewrite Hrun).
  rewrite Ht. vm_compute in Ht. injection Ht as Ht _. now rewrite <- Ht.
Defined.

(** X10.  After a call that returned a reading, a later call for the
    same coop that passes the limiter while that reading is less than 30
    seconds old is answered from the cache: the store is not consulted
    (whatever it holds by then, the outcome is the same), the cache is
    left as it was, and an output carries the same temperature and
    timestamp as before. *)
Theorem cached_reading_is_served (min1 max1 min2 max2 : Q) (coopId : string)
    (env1 env2 : CoopTempAlert.Env) (store1 : sensorMemoryStore)
    (st st1 : CoopTempAlert.State) (out1 : CoopTempAlert.Output) :
  CoopTempAlert.execute min1 max1 coopId env1 store1 st
  = (st1, CoopTempAlert.Ok out1) ->
  5000 <= CoopTempAlert.now env2 - CoopTempAlert.now env1 ->
  CoopTempAlert.cacheNow env2 - CoopTempAlert.out_timestamp out1 < 30000 ->
  forall store2 : sensorMemoryStore,
    CoopTempAlert.execute min2 max2 coopId env2 store2 st1
    = CoopTempAlert.execute min2 max2 coopId env2 [] st1
    /\ CoopTempAlert.tempCache
         (fst (CoopTempAlert.execute min2 max2 coopId env2 store2 st1))
       = CoopTempAlert.tempCache st1
    /\ (forall out2,
          snd (CoopTempAlert.execute min2 max2 coopId env2 store2 st1)
          = CoopTempAlert.Ok out2 ->
          CoopTempAlert.current out2 = CoopTempAlert.current out1
          /\ CoopTempAlert.out_timestamp out2 = CoopTempAlert.out_timestamp out1).
Proof.
  intros Hfirst Hgap Hfresh.
  assert (Hcached : exists r,
            CoopTempAlert.tempCache st1 !! coopId = Some r
            /\ CoopTempAlert.lastCallTime st1 = CoopTempAlert.now env1
            /\ CoopTempAlert.temperature r = CoopTempAlert.current out1
            /\ CoopTempAlert.timestamp r = CoopTempAlert.out_timestamp out1).
  { unfold CoopTempAlert.execute in Hfirst.
    destruct (CoopTempAlert.now env1 - CoopTempAlert.lastCallTime st
              <? CoopTempAlert.RATE_LIMIT_INTERVAL); [discriminate|].
    destruct (CoopTempAlert.getLatestTemperature coopId env1 store1
                (CoopTempAlert.tempCache st)) as [cache' [r|]] eqn:Hget;
      [|discriminate].
    apply getLatestTemperature_cached in Hget. exists r.
    destruct (CoopTempAlert.STALE_DATA_THRESHOLD
              <? CoopTempAlert.now env1 - CoopTempAlert.timestamp r).
    - injection Hfirst as <- <-. now repeat split.
    - destruct (CoopTempAlert.temperature r) eqn:Ht; try discriminate.
      destruct (CoopTempAlert.classify q min1 max1) as [s m].
      injection Hfirst as <- <-. simpl. now repeat split. }
  destruct Hcached as (r & Hl & Hlast & Htemp & Htime).
  assert (Hhit : forall store2,
            CoopTempAlert.getLatestTemperature coopId env2 store2
              (CoopTempAlert.tempCache st1)
            = (CoopTempAlert.tempCache st1, Some r))
    by (intros store2; apply getLatestTemperature_hit; [exact Hl|lia]).
  intros store2. unfold CoopTempAlert.execute. rewrite Hlast.
  replace (CoopTempAlert.now env2 - CoopTempAlert.now env1
           <? CoopTempAlert.RATE_LIMIT_INTERVAL) with false
    by (symmetry; apply Z.ltb_ge; unfold CoopTempAlert.RATE_LIMIT_INTERVAL; lia).
  rewrite (Hhit store2), (Hhit []). split; [reflexivity|].
  destruct (CoopTempAlert.STALE_DATA_THRESHOLD
            <? CoopTempAlert.now env2 - CoopTempAlert.timestamp r).
  - simpl. split; [reflexivity|]. intros out2 [= <-]. simpl. now split.
  - destruct (CoopTempAlert.temperature r) eqn:Ht;
      try (simpl; split; [reflexivity|discriminate]).
    destruct (CoopTempAlert.classify q min2 max2) as [s m]. simpl.
    split; [reflexivity|]. intros out2 [= <-]. simpl. now split.
Qed.

(** A reading of 41 degrees is served again ten seconds later, although
    the store holds a newer reading of 98 degrees by then. *)
Lemma cached_reading_is_served_again :
  let first := CoopTempAlert.exec CoopTempAlert.initialState
                 (callAt "main" 200000 (storeWith 41 190000)) in
  statusOf first = Some CoopTempAlert.OK
  /\ CoopTempAlert.exec (fst first)
       (callAt "main" 210000 (storeWith 41 190000 ++ storeWith 98 205000))
     = CoopTempAlert.exec (fst first) (callAt "main" 210000 []).
Proof.
  split; [reflexivity|].
  destruct (CoopTempAlert.exec CoopTempAlert.initialState
              (callAt "main" 200000 (storeWith 41 190000)))
    as [st1 r1] eqn:Hfirst.
  destruct r1 as [out1| | |]; try (vm_compute in Hfirst; discriminate).
  apply (cached_reading_is_served 35 95 35 95 "main"
           (CoopTempAlert.call_env (callAt "main" 200000 []))
           (CoopTempAlert.call_env (callAt "main" 210000 []))
           (storeWith 41 190000) CoopTempAlert.initialState st1 out1 Hfirst).
  - vm_compute. discriminate.
  - vm_compute in Hfirst. injection Hfirst as _ <-. reflexivity.
Defined.

(** ** The shared-memory tool *)

Section ToolQueries.

Lemma prefix_refl (s : string) : String.prefix s s = true.
Proof.
  induction s as [|a s IH]; simpl; [reflexivity|].
  destruct (Ascii.ascii_dec a a); [exact IH|contradiction].
Qed.

Lemma includes_refl (s : string) : includes s s = true.
Proof.
  destruct s as [|a s]; [reflexivity|].
  change (String.prefix (String a s) (String a s)
          || includes (String a s) s = true).
  now rewrite prefix_refl.
Qed.

Lemma pushAndTrim_last (e : SensorEvent) (store : sensorMemoryStore) :
  exists front, pushAndTrim e store = front ++ [e].
Proof.
  unfold pushAndTrim. destruct (100 <? length (store ++ [e]))%nat eqn:Hlen.
  - destruct store as [|x store]; [discriminate|]. now exists store.
  - now exists store.
Qed.

Lemma last_snoc {A : Type} (l : list A) (x : A) : List.last (l ++ [x]) x = x.
Proof. induction l as [|y [|z l] IH]; simpl in *; auto. Qed.

End ToolQueries.

(** X11.  What the [store] action accepts is found by the [query]
    action: after a successful store under a topic, a query whose
    lower-cased text occurs in the lower-cased topic (the topic itself is
    such a query) succeeds, and the event just stored is the last of its
    results, with the payload, the clock reading and the analysis it
    was stored with. *)
Theorem stored_event_is_found (JSON_stringify : JSON -> string)
    (t : string) (d : JSON) (a q unused : option string) (q0 : string)
    (now later : Z) (store : sensorMemoryStore) :
  t <> "" -> truthy d = true -> q0 <> "" ->
  includes (toLowerCase q0) (toLowerCase t) = true ->
  let written :=
    SharedMemoryTool.execute JSON_stringify
      {| SharedMemoryTool.action := SharedMemoryTool.Store;
         SharedMemoryTool.topic := Some t; SharedMemoryTool.data := Some d;
         SharedMemoryTool.analysis := a; SharedMemoryTool.query := q |}
      now store in
  let asked :=
    SharedMemoryTool.execute JSON_stringify
      {| SharedMemoryTool.action := SharedMemoryTool.Query;
         SharedMemoryTool.topic := unused; SharedMemoryTool.data := None;
         SharedMemoryTool.analysis := None; SharedMemoryTool.query := Some q0 |}
      later (fst written) in
  let e := {| topic := t; data := d; timestamp := now;
              analysis := match a with
                          | Some text => if String.eqb text ""
                                         then "No analysis provided" else text
                          | None => "No analysis provided"
                          end |} in
  SharedMemoryTool.success (snd written) = true
  /\ fst asked = fst written
  /\ SharedMemoryTool.success (snd asked) = true
  /\ (exists found,
        SharedMemoryTool.results (snd asked) = Some found
        /\ SharedMemoryTool.count (snd asked) = Some (length found)
        /\ List.last found e = e /\ In e found)
  /\ includes (toLowerCase t) (toLowerCase t) = true.
Proof.
  intros Ht Hd Hq Hin written asked e.
  assert (Hw : written
               = (pushAndTrim e store,
                  {| SharedMemoryTool.success := true;
                     SharedMemoryTool.results := None;
                     SharedMemoryTool.count := Some (length (pushAndTrim e store));
                     SharedMemoryTool.message := "Stored data for " +:+ t |})).
  { subst written. unfold SharedMemoryTool.execute, execute_store. simpl.
    apply String.eqb_neq in Ht. rewrite Ht, Hd. reflexivity. }
  apply String.eqb_neq in Hq.
  assert (Ha : asked
               = (pushAndTrim e store,
                  let found :=
                    List.filter
                      (SharedMemoryTool.matchesQuery JSON_stringify (toLowerCase q0))
                      (pushAndTrim e store) in
                  {| SharedMemoryTool.success := true;
                     SharedMemoryTool.results := Some found;
                     SharedMemoryTool.count := Some (length found);
                     SharedMemoryTool.message :=
                       "Found " +:+ pretty (length found) +:+ " matching entries" |})).
  { subst asked. rewrite Hw. unfold SharedMemoryTool.execute.
    cbn [SharedMemoryTool.action SharedMemoryTool.query fst]. now rewrite Hq. }
  rewrite Ha, Hw. cbn [fst snd SharedMemoryTool.success SharedMemoryTool.results
                       SharedMemoryTool.count].
  repeat split; [|apply includes_refl].
  destruct (pushAndTrim_last e store) as (front & ->).
  eexists. split; [reflexivity|]. split; [reflexivity|].
  rewrite List.filter_app.
  assert (Hm : SharedMemoryTool.matchesQuery JSON_stringify (toLowerCase q0) e = true).
  { unfold SharedMemoryTool.matchesQuery. subst e. cbn [topic]. now rewrite Hin. }
  cbn [List.filter]. rewrite Hm. split; [apply last_snoc|].
  apply List.in_or_app. right. now left.
Qed.

(** A reading stored under a mixed-case topic is found by the word
    temperature. *)
Lemma stored_event_is_found_temperature :
  let stringify (v : JSON) := "" in
  let store := fst (SharedMemoryTool.execute stringify
                      {| SharedMemoryTool.action := SharedMemoryTool.Store;
                         SharedMemoryTool.topic := Some "Coop/Main/Temperature";
                         SharedMemoryTool.data := Some (JNum 71);
                         SharedMemoryTool.analysis := None;
                         SharedMemoryTool.query := None |} 5 northStore) in
  exists found,
    SharedMemoryTool.results
      (snd (SharedMemoryTool.execute stringify
              {| SharedMemoryTool.action := SharedMemoryTool.Query;
                 SharedMemoryTool.topic := None; SharedMemoryTool.data := None;
                 SharedMemoryTool.analysis := None;
                 SharedMemoryTool.query := Some "TEMPERATURE" |} 6 store))
    = Some found
    /\ In {| topic := "Coop/Main/Temperature"; data := JNum 71; timestamp := 5;
             analysis := "No analysis provided" |} found.
Proof.
  intros stringify store.
  destruct (stored_event_is_found stringify "Coop/Main/Temperature" (JNum 71)
              None None None "TEMPERATURE" 5 6 northStore)
    as (_ & _ & _ & (found & Hfound & _ & _ & Hin) & _);
    [discriminate|reflexivity|discriminate|reflexivity|].
  exists found. split; [exact Hfound|exact Hin].
Defined.

(** X12.  After any history of writes, [list_all] returns the last
    twenty events written, oldest first, reports as count the size of the
    store, which is the number of events written up to one hundred, and
    leaves the store as it is. *)
Theorem list_all_is_last_twenty (JSON_stringify : JSON -> string)
    (ops : list StoreOp) (inp : SharedMemoryTool.Input) (now : Z) :
  let events := flat_map appended ops in
  let store := run ops initialStore in
  let listed :=
    SharedMemoryTool.execute JSON_stringify
      {| SharedMemoryTool.action := SharedMemoryTool.ListAll;
         SharedMemoryTool.topic := SharedMemoryTool.topic inp;
         SharedMemoryTool.data := SharedMemoryTool.data inp;
         SharedMemoryTool.analysis := SharedMemoryTool.analysis inp;
         SharedMemoryTool.query := SharedMemoryTool.query inp |} now store in
  SharedMemoryTool.results (snd listed) = Some (drop (length events - 20) events)
  /\ SharedMemoryTool.count (snd listed) = Some (Nat.min (length events) 100)
  /\ SharedMemoryTool.success (snd listed) = true
  /\ fst listed = store.
Proof.
  intros events store listed.
  assert (Hstore : store = drop (length events - 100) events)
    by exact (run_window ops []).
  subst listed. unfold SharedMemoryTool.execute, execute_list_all. simpl.
  rewrite Hstore. repeat split.
  - f_equal. unfold skipn. fold (@drop SensorEvent). rewrite drop_drop, length_drop.
    f_equal. lia.
  - f_equal. rewrite length_drop. lia.
Qed.


(** ** The subscription registry *)

Section Registry.

Import MqttTools.

Lemma mapGet_mapSet_eq (k : string) (v : MqttSubscribe.Subscription)
    (m : MqttSubscribe.subscriptions) :
  mapGet k (MqttSubscribe.mapSet k v m) = Some v.
Proof.
  induction m as [|[k' v'] m IH]; simpl; [now rewrite String.eqb_refl|].
  destruct (String.eqb k k') eqn:Hk; simpl.
  - now rewrite String.eqb_refl.
  - now rewrite Hk.
Qed.

Lemma mapGet_mapSet_ne (k k' : string) (v : MqttSubscribe.Subscription)
    (m : MqttSubscribe.subscriptions) :
  k <> k' -> mapGet k (MqttSubscribe.mapSet k' v m) = mapGet k m.
Proof.
  intros Hne. induction m as [|[k0 v0] m IH]; simpl.
  - apply String.eqb_neq in Hne. now rewrite Hne.
  - destruct (String.eqb k' k0) eqn:Hk; simpl.
    + apply String.eqb_eq in Hk. subst k0.
      apply String.eqb_neq in Hne. now rewrite Hne.
    + now rewrite IH.
Qed.

Lemma mapSet_same (k : string) (v : MqttSubscribe.Subscription)
    (m : MqttSubscribe.subscriptions) :
  mapGet k m = Some v -> MqttSubscribe.mapSet k v m = m.
Proof.
  induction m as [|[k' v'] m IH]; simpl; [discriminate|].
  destruct (String.eqb k k') eqn:Hk.
  - intros [= ->]. apply String.eqb_eq in Hk. now subst k'.
  - intros H. now rewrite IH.
Qed.

Lemma mapSet_keys (k x : string) (v : MqttSubscribe.Subscription)
    (m : MqttSubscribe.subscriptions) :
  In x (List.map fst (MqttSubscribe.mapSet k v m))
  <-> x = k \/ In x (List.map fst m).
Proof.
  induction m as [|[k' v'] m IH]; simpl; [intuition|].
  destruct (String.eqb k k') eqn:Hk; simpl.
  - apply String.eqb_eq in Hk. subst k'. intuition.
  - rewrite IH. intuition.
Qed.

Lemma mapSet_NoDup (k : string) (v : MqttSubscribe.Subscription)
    (m : MqttSubscribe.subscriptions) :
  NoDup (List.map fst m) -> NoDup (List.map fst (MqttSubscribe.mapSet k v m)).
Proof.
  induction m as [|[k' v'] m IH]; simpl; intros Hnd.
  - apply NoDup_cons. split; [apply not_elem_of_nil|constructor].
  - apply NoDup_cons in Hnd as [Hnotin Hnd].
    destruct (String.eqb k k') eqn:Hk; simpl.
    + apply String.eqb_eq in Hk. subst k'. apply NoDup_cons. now split.
    + apply NoDup_cons. split; [|now apply IH].
      intros Hin. apply list_elem_of_In, mapSet_keys in Hin as [->|Hin].
      * now rewrite String.eqb_refl in Hk.
      * apply Hnotin. now apply list_elem_of_In.
Qed.

Lemma filter_keys_NoDup (p : string * MqttSubscribe.Subscription -> bool)
    (m : MqttSubscribe.subscriptions) :
  NoDup (List.map fst m) -> NoDup (List.map fst (List.filter p m)).
Proof.
  induction m as [|kv m IH]; simpl; intros Hnd; [constructor|].
  apply NoDup_cons in Hnd as [Hnotin Hnd].
  destruct (p kv); simpl; [|auto].
  apply NoDup_cons. split; [|auto].
  intros Hin. apply Hnotin. apply list_elem_of_In in Hin.
  apply list_elem_of_In. apply List.in_map_iff in Hin as (kv' & Hkv' & Hin).
  apply List.in_map_iff. exists kv'. split; [exact Hkv'|].
  now apply List.filter_In in Hin as [Hin _].
Qed.

Lemma setPaused_keys (t : string) (p : bool) (m : MqttSubscribe.subscriptions) :
  List.map fst (MqttSubscribe.setPaused t p m) = List.map fst m.
Proof.
  induction m as [|kv m IH]; simpl; [reflexivity|].
  rewrite IH. now destruct (String.eqb t (fst kv)).
Qed.

Lemma mapDelete_absent (t : string) (m : MqttSubscribe.subscriptions) :
  mapGet t m = None -> MqttSubscribe.mapDelete t m = m.
Proof.
  induction m as [|[k v] m IH]; simpl; [reflexivity|].
  destruct (String.eqb t k) eqn:Hk; [discriminate|].
  intros H. simpl. f_equal. now apply IH.
Qed.

Lemma mapGet_mapDelete (t k : string) (m : MqttSubscribe.subscriptions) :
  mapGet k (MqttSubscribe.mapDelete t m)
  = if String.eqb t k then None else mapGet k m.
Proof.
  induction m as [|[k' v] m IH]; simpl; [now destruct (String.eqb t k)|].
  destruct (String.eqb t k') eqn:Htk'; simpl.
  - rewrite IH. destruct (String.eqb t k) eqn:Htk; [reflexivity|].
    apply String.eqb_eq in Htk'. subst k'.
    rewrite String.eqb_sym in Htk. now rewrite Htk.
  - destruct (String.eqb k k') eqn:Hkk'.
    + apply String.eqb_eq in Hkk'. subst k'. now rewrite Htk'.
    + exact IH.
Qed.

Variable broker : Broker.
Variable cfg : Config.

Lemma fold_subscribeCallback (ts : list string)
    (m : MqttSubscribe.subscriptions) (s f : list string) :
  fold_left (subscribeCallback broker cfg) ts (m, s, f)
  = (registered broker cfg ts m,
     s ++ List.filter (subscribeAck broker) ts,
     f ++ List.filter (fun t => negb (subscribeAck broker t)) ts).
Proof.
  revert m s f. induction ts as [|t ts IH]; intros m s f; simpl.
  - now rewrite !app_nil_r.
  - destruct (subscribeAck broker t) eqn:Hack; simpl; rewrite IH;
      unfold registered; simpl; rewrite ?Hack; now rewrite <- ?app_assoc.
Qed.

Lemma registered_kept (ts : list string) (m : MqttSubscribe.subscriptions)
    (t : string) :
  mapGet t m = Some (entryOf cfg t) ->
  mapGet t (registered broker cfg ts m) = Some (entryOf cfg t).
Proof.
  revert m. induction ts as [|t' ts IH]; intros m Hm; [exact Hm|].
  unfold registered. simpl. apply IH.
  destruct (subscribeAck broker t'); [|exact Hm].
  unfold MqttSubscribe.subscribed.
  destruct (String.eqb_spec t t') as [<-|Hne].
  - apply mapGet_mapSet_eq.
  - now rewrite mapGet_mapSet_ne.
Qed.

Lemma registered_acked (ts : list string) (m : MqttSubscribe.subscriptions)
    (t : string) :
  In t ts -> subscribeAck broker t = true ->
  mapGet t (registered broker cfg ts m) = Some (entryOf cfg t).
Proof.
  revert m. induction ts as [|t' ts IH]; intros m Hin Hack; [contradiction|].
  unfold registered. simpl.
  destruct Hin as [->|Hin].
  - rewrite Hack. apply registered_kept. apply mapGet_mapSet_eq.
  - now apply IH.
Qed.

Lemma registered_other (ts : list string) (m : MqttSubscribe.subscriptions)
    (k : string) :
  ~ (In k ts /\ subscribeAck broker k = true) ->
  mapGet k (registered broker cfg ts m) = mapGet k m.
Proof.
  revert m. induction ts as [|t ts IH]; intros m Hno; [reflexivity|].
  unfold registered. simpl.
  change (mapGet k (registered broker cfg ts
                      (if subscribeAck broker t
                       then MqttSubscribe.subscribed t (qos cfg) (filter cfg) m
                       else m)) = mapGet k m).
  rewrite IH by (intros [Hin Hack]; apply Hno; split; [now right|exact Hack]).
  destruct (subscribeAck broker t) eqn:Hack; [|reflexivity].
  apply mapGet_mapSet_ne. intros ->. apply Hno. split; [now left|exact Hack].
Qed.

Lemma registered_fixed (ts : list string) (m : MqttSubscribe.subscriptions) :
  (forall t, In t ts -> subscribeAck broker t = true ->
             mapGet t m = Some (entryOf cfg t)) ->
  registered broker cfg ts m = m.
Proof.
  induction ts as [|t ts IH]; intros Hall; [reflexivity|].
  unfold registered. simpl.
  destruct (subscribeAck broker t) eqn:Hack.
  - unfold MqttSubscribe.subscribed.
    rewrite (mapSet_same t _ m) by (apply Hall; [now left|exact Hack]).
    apply IH. intros t' Hin. apply Hall. now right.
  - apply IH. intros t' Hin. apply Hall. now right.
Qed.

Lemma registered_NoDup (ts : list string) (m : MqttSubscribe.subscriptions) :
  NoDup (List.map fst m) -> NoDup (List.map fst (registered broker cfg ts m)).
Proof.
  revert m. induction ts as [|t ts IH]; intros m Hnd; [exact Hnd|].
  unfold registered. simpl. apply IH.
  destruct (subscribeAck broker t); [|exact Hnd]. now apply mapSet_NoDup.
Qed.

End Registry.

Section SubscribeCalls.

Import MqttTools.

(** What a [subscribe] call with topics does to a connected client. *)
Lemma execute_subscribe (broker : Broker) (cfg : Config) (top : option string)
    (st : State) (c : Client) :
  mqttClient st = Some c -> connected c = true -> topics cfg <> [] ->
  execute broker {| action := Subscribe; config := Some cfg; topic := top |} st
  = (withClient (Some (attachHandleMessage c))
       (withSubscriptions (registered broker cfg (topics cfg) (subscriptions st)) st),
     Some {| success :=
               negb (Nat.eqb (length (List.filter (subscribeAck broker) (topics cfg))) 0);
             status := "Subscribed to "
                       +:+ pretty (length (List.filter (subscribeAck broker)
                                                        (topics cfg)))
                       +:+ " topic(s)";
             details :=
               SubscribeDetails
                 (List.filter (subscribeAck broker) (topics cfg))
                 (match List.filter (fun t => negb (subscribeAck broker t))
                                    (topics cfg) with
                  | [] => None
                  | _ :: _ =>
                      Some (List.filter (fun t => negb (subscribeAck broker t))
                                        (topics cfg))
                  end)
                 (length (registered broker cfg (topics cfg) (subscriptions st))) |}).
Proof.
  intros Hc Hup Hts. unfold execute. rewrite Hc, Hup. simpl.
  destruct (topics cfg) as [|t ts] eqn:Htopics; [contradiction|].
  rewrite <- Htopics. rewrite fold_subscribeCallback. reflexivity.
Qed.

End SubscribeCalls.

Section Repeats.

Import MqttTools.

Lemma setPaused_twice (t : string) (p : bool) (m : MqttSubscribe.subscriptions) :
  MqttSubscribe.setPaused t p (MqttSubscribe.setPaused t p m)
  = MqttSubscribe.setPaused t p m.
Proof.
  induction m as [|kv m IH]; simpl; [reflexivity|]. rewrite IH. f_equal.
  destruct (String.eqb t (fst kv)) eqn:Hk; simpl; now rewrite Hk.
Qed.

Lemma mapGet_setPaused (t k : string) (p : bool)
    (m : MqttSubscribe.subscriptions) :
  mapGet k (MqttSubscribe.setPaused t p m)
  = (fun v => if String.eqb t k
              then {| MqttSubscribe.topic := MqttSubscribe.topic v;
                      MqttSubscribe.qos := MqttSubscribe.qos v;
                      MqttSubscribe.filter := MqttSubscribe.filter v;
                      MqttSubscribe.paused := p |}
              else v) <$> mapGet k m.
Proof.
  induction m as [|[k' v] m IH]; simpl; [reflexivity|].
  destruct (String.eqb t k') eqn:Htk'; simpl;
    destruct (String.eqb k k') eqn:Hkk'; simpl; try exact IH.
  - apply String.eqb_eq in Hkk'. subst k'. now rewrite Htk'.
  - apply String.eqb_eq in Hkk'. subst k'. now rewrite Htk'.
Qed.

Lemma mapDelete_twice (t : string) (m : MqttSubscribe.subscriptions) :
  MqttSubscribe.mapDelete t (MqttSubscribe.mapDelete t m)
  = MqttSubscribe.mapDelete t m.
Proof.
  apply mapDelete_absent. rewrite mapGet_mapDelete. now rewrite String.eqb_refl.
Qed.

Lemma pauseOrResume_again (name past : string) (p : bool) (inp : Input)
    (st st1 : State) (reply : option Reply) :
  pauseOrResume name past p inp st = (st1, reply) ->
  pauseOrResume name past p inp st1 = (st1, reply).
Proof.
  unfold pauseOrResume.
  destruct (given (topic inp)) as [t|]; [|now intros [= <- <-]].
  destruct (mapGet t (subscriptions st)) as [v|] eqn:Hget.
  - intros [= <- <-]. cbn [subscriptions withSubscriptions].
    rewrite mapGet_setPaused, Hget. simpl. now rewrite setPaused_twice.
  - intros [= <- <-]. now rewrite Hget.
Qed.

End Repeats.

(** X14.  Every action of the subscription tool is idempotent: when a
    call has been answered, the same call made again, the broker
    answering as before, leaves the registry, the client and its
    listeners exactly as the first call left them and returns the same
    reply.  A pattern subscribed twice has one entry and the total does
    not grow; pausing a paused subscription, or unsubscribing twice,
    changes nothing. *)
Theorem tool_call_again_changes_nothing (broker : MqttTools.Broker)
    (inp : MqttTools.Input) (st st1 : MqttTools.State)
    (reply : MqttTools.Reply) :
  MqttTools.execute broker inp st = (st1, Some reply) ->
  MqttTools.execute broker inp st1 = (st1, Some reply).
Proof.
  intros Hrun. pose proof Hrun as Hsame. revert Hrun. unfold MqttTools.execute at 1.
  destruct (MqttTools.mqttClient st) as [c|] eqn:Hc;
    [|intros [= <- <-]; exact Hsame].
  destruct (MqttTools.connected c) eqn:Hup; simpl;
    [|intros [= <- <-]; exact Hsame].
  destruct inp as [a cfg top]. destruct a; cbn [MqttTools.action].
  - destruct cfg as [cfg|]; cbn [MqttTools.config];
      [|intros [= <- <-]; exact Hsame].
    destruct (MqttTools.topics cfg) as [|t ts] eqn:Hts; [discriminate|].
    intros _.
    assert (Hne : MqttTools.topics cfg <> []) by (rewrite Hts; discriminate).
    rewrite (execute_subscribe broker cfg top st c Hc Hup Hne) in Hsame.
    injection Hsame as <- <-.
    set (m1 := registered broker cfg (MqttTools.topics cfg)
                 (MqttTools.subscriptions st)).
    set (c1 := MqttTools.attachHandleMessage c).
    assert (Hup1 : MqttTools.connected c1 = true).
    { subst c1. unfold MqttTools.attachHandleMessage.
      now destruct (Nat.eqb (MqttTools.listenerCount c) 0). }
    rewrite (execute_subscribe broker cfg top
               (MqttTools.withClient (Some c1) (MqttTools.withSubscriptions m1 st))
               c1 eq_refl Hup1 Hne).
    cbn [MqttTools.subscriptions MqttTools.withClient MqttTools.withSubscriptions
         MqttTools.mqttClient MqttTools.bridgeEnabled MqttTools.messageHandler
         MqttTools.nextClosure].
    assert (Hm : registered broker cfg (MqttTools.topics cfg) m1 = m1).
    { apply registered_fixed. intros t' Hin Hack. now apply registered_acked. }
    assert (Hc1 : MqttTools.attachHandleMessage c1 = c1).
    { subst c1. unfold MqttTools.attachHandleMessage, MqttTools.listenerCount.
      destruct (MqttTools.messageListeners c) eqn:Hl; simpl; [|now rewrite Hl].
      unfold MqttTools.on. simpl. now rewrite Hl. }
    rewrite Hm, Hc1. reflexivity.
  - cbn [MqttTools.topic].
    destruct (MqttTools.given top) as [t|] eqn:Hgiven;
      [|intros [= <- <-]; exact Hsame].
    destruct (MqttTools.unsubscribeError broker t) eqn:Herr;
      [intros [= <- <-]; exact Hsame|].
    intros [= <- <-]. unfold MqttTools.execute.
    cbn [MqttTools.subscriptions MqttTools.withClient MqttTools.withSubscriptions
         MqttTools.mqttClient MqttTools.action MqttTools.topic].
    rewrite Hc, Hup, Hgiven, Herr. simpl. now rewrite mapDelete_twice.
  - intros [= <- <-]. exact Hsame.
  - intros Hrun. unfold MqttTools.execute.
    assert (Hc1 : MqttTools.mqttClient st1 = Some c).
    { revert Hrun. unfold MqttTools.pauseOrResume.
      destruct (MqttTools.given _); [|now intros [= <- _]].
      destruct (MqttTools.mapGet _ _); now intros [= <- _]. }
    rewrite Hc1, Hup. simpl. exact (pauseOrResume_again _ _ _ _ st st1 _ Hrun).
  - intros Hrun. unfold MqttTools.execute.
    assert (Hc1 : MqttTools.mqttClient st1 = Some c).
    { revert Hrun. unfold MqttTools.pauseOrResume.
      destruct (MqttTools.given _); [|now intros [= <- _]].
      destruct (MqttTools.mapGet _ _); now intros [= <- _]. }
    rewrite Hc1, Hup. simpl. exact (pauseOrResume_again _ _ _ _ st st1 _ Hrun).
Qed.

(** The coop topics are subscribed twice. *)
Lemma tool_call_again_changes_nothing_coop :
  let first := MqttTools.execute ackAll subscribeCoop justConnected in
  List.map fst (MqttTools.subscriptions (fst first)) = ["coop/#"]
  /\ MqttTools.execute ackAll subscribeCoop (fst first) = first.
Proof.
  split; [reflexivity|].
  destruct (MqttTools.execute ackAll subscribeCoop justConnected)
    as [st1 [reply|]] eqn:Hrun; [|vm_compute in Hrun; discriminate].
  exact (tool_call_again_changes_nothing ackAll subscribeCoop justConnected
           st1 reply Hrun).
Defined.

Section PauseResume.

Import MqttTools.

Variable JSON_parse : string -> option JSON.

Lemma handleMessage_paused (t topic0 raw : string) (now : Z)
    (m : MqttSubscribe.subscriptions) (store : sensorMemoryStore) :
  MqttSubscribe.handleMessage JSON_parse topic0 raw now
    (MqttSubscribe.setPaused t true m) store
  = MqttSubscribe.handleMessage JSON_parse topic0 raw now
      (MqttSubscribe.mapDelete t m) store.
Proof.
  unfold MqttSubscribe.handleMessage. revert store.
  induction m as [|[k v] m IH]; intros store; [reflexivity|].
  cbn [MqttSubscribe.setPaused MqttSubscribe.mapDelete List.map List.filter fst snd].
  destruct (String.eqb t k) eqn:Hk; cbn [negb fst snd].
  - destruct (MqttSubscribe.topicMatches topic0 k); [|apply IH].
    cbn [List.map fold_left snd]. unfold MqttSubscribe.deliver at 2.
    cbn [MqttSubscribe.paused]. apply IH.
  - cbn [List.filter fst].
    destruct (MqttSubscribe.topicMatches topic0 k); [|apply IH].
    cbn [List.map fold_left snd]. apply IH.
Qed.

Lemma setPaused_absent (t : string) (p : bool) (m : MqttSubscribe.subscriptions) :
  ~ In t (List.map fst m) -> MqttSubscribe.setPaused t p m = m.
Proof.
  induction m as [|[k v] m IH]; simpl; intros Hno; [reflexivity|].
  destruct (String.eqb_spec t k) as [->|Hne]; [exfalso; apply Hno; now left|].
  f_equal. apply IH. intros Hin. apply Hno. now right.
Qed.

Lemma setPaused_same (t : string) (p : bool) (m : MqttSubscribe.subscriptions)
    (sub : MqttSubscribe.Subscription) :
  NoDup (List.map fst m) -> mapGet t m = Some sub ->
  MqttSubscribe.paused sub = p -> MqttSubscribe.setPaused t p m = m.
Proof.
  induction m as [|[k v] m IH]; simpl; intros Hnd Hget Hp; [discriminate|].
  apply NoDup_cons in Hnd as [Hnotin Hnd].
  destruct (String.eqb t k) eqn:Hk.
  - injection Hget as ->. apply String.eqb_eq in Hk. subst k.
    rewrite setPaused_absent
      by (intros Hin; apply Hnotin; now apply list_elem_of_In).
    f_equal. f_equal. destruct sub. simpl in *. now subst.
  - f_equal. now apply IH.
Qed.

Lemma setPaused_setPaused (t : string) (p p' : bool)
    (m : MqttSubscribe.subscriptions) :
  MqttSubscribe.setPaused t p (MqttSubscribe.setPaused t p' m)
  = MqttSubscribe.setPaused t p m.
Proof.
  induction m as [|kv m IH]; simpl; [reflexivity|]. rewrite IH. f_equal.
  destruct (String.eqb t (fst kv)) eqn:Hk; simpl; now rewrite Hk.
Qed.

(** X15.  Pausing a registered pattern succeeds and keeps the patterns
    of the registry and their order; from then on the dispatcher treats
    every message as if the pattern had been removed, while the other
    subscriptions evaluate it as before; resuming a subscription that
    was active before the pause puts the tools back in the state they
    were in. *)
Theorem paused_subscription_is_skipped (broker : Broker) (t : string)
    (cfg0 : option Config) (st : State) (c : Client)
    (sub : MqttSubscribe.Subscription) :
  mqttClient st = Some c -> connected c = true -> t <> "" ->
  mapGet t (subscriptions st) = Some sub ->
  let paused :=
    execute broker {| action := Pause; config := cfg0; topic := Some t |} st in
  let resumed :=
    execute broker {| action := Resume; config := cfg0; topic := Some t |}
            (fst paused) in
  snd paused = Some {| success := true;
                       status := "Paused subscription to " +:+ t;
                       details := NoDetails |}
  /\ List.map fst (subscriptions (fst paused)) = List.map fst (subscriptions st)
  /\ (forall (topic0 raw : string) (now : Z) (store : sensorMemoryStore),
        MqttSubscribe.handleMessage JSON_parse topic0 raw now
          (subscriptions (fst paused)) store
        = MqttSubscribe.handleMessage JSON_parse topic0 raw now
            (MqttSubscribe.mapDelete t (subscriptions st)) store)
  /\ (MqttSubscribe.paused sub = false ->
      NoDup (List.map fst (subscriptions st)) ->
      fst resumed = st).
Proof.
  intros Hc Hup Ht Hget paused resumed.
  assert (Hgiven : given (Some t) = Some t).
  { unfold given. apply String.eqb_neq in Ht. now rewrite Ht. }
  assert (Hp : paused
               = (withSubscriptions
                    (MqttSubscribe.setPaused t true (subscriptions st)) st,
                  Some {| success := true;
                          status := "Paused subscription to " +:+ t;
                          details := NoDetails |})).
  { subst paused. unfold execute. rewrite Hc, Hup.
    cbn [negb action]. unfold pauseOrResume. cbn [topic].
    now rewrite Hgiven, Hget. }
  subst resumed. rewrite Hp. cbn [fst snd subscriptions withSubscriptions].
  repeat split.
  - apply setPaused_keys.
  - intros topic0 raw now store. apply handleMessage_paused.
  - intros Hactive Hnd. unfold execute.
    cbn [mqttClient withSubscriptions action]. rewrite Hc, Hup.
    cbn [negb]. unfold pauseOrResume.
    cbn [topic subscriptions withSubscriptions]. rewrite Hgiven.
    rewrite mapGet_setPaused, Hget. cbn [fmap option_fmap option_map fst].
    rewrite setPaused_setPaused.
    rewrite (setPaused_same t false _ sub Hnd Hget Hactive).
    destruct st. reflexivity.
Qed.

End PauseResume.

(** The coop subscription is paused: a message under a coop topic is
    not stored. *)
Lemma paused_subscription_is_skipped_coop :
  let st := fst (MqttTools.execute ackAll subscribeCoop justConnected) in
  let paused := fst (MqttTools.execute ackAll (onTopic MqttTools.Pause "coop/#") st) in
  MqttSubscribe.handleMessage sampleParse "coop/main/temp" "42" 7
    (MqttTools.subscriptions paused) initialStore = initialStore
  /\ List.map data
       (MqttSubscribe.handleMessage sampleParse "coop/main/temp" "42" 7
          (MqttTools.subscriptions st) initialStore) = [JNum 42].
Proof.
  intros st paused. split; [|reflexivity].
  destruct (paused_subscription_is_skipped sampleParse ackAll "coop/#" None st
              {| MqttTools.connected := true;
                 MqttTools.messageListeners := [MqttTools.HandleMessage] |}
              everything) as (_ & _ & Hskip & _);
    [reflexivity|reflexivity|discriminate|reflexivity|].
  subst paused. etransitivity;
    [exact (Hskip "coop/main/temp" "42" 7 initialStore)|reflexivity].
Defined.

Section Unsubscribe.

Import MqttTools.

(** X16.  Unsubscribing never reports an unknown pattern: once the
    broker has acknowledged, the call succeeds whether or not the
    pattern was registered, the pattern has no entry afterwards, every
    other entry is kept, a call for an unregistered pattern leaves the
    state as it was, and [handleMessage] stays attached even when the
    registry becomes empty.  When the broker reports an error the state
    is unchanged. *)
Theorem unsubscribe_removes_pattern (broker : Broker) (t : string)
    (cfg0 : option Config) (st : State) (c : Client) :
  mqttClient st = Some c -> connected c = true -> t <> "" ->
  let run := execute broker {| action := Unsubscribe; config := cfg0;
                               topic := Some t |} st in
  match unsubscribeError broker t with
  | Some msg => run = (st, Some (failure ("Failed to unsubscribe: " +:+ msg)))
  | None =>
      snd run = Some {| success := true; status := "Unsubscribed from " +:+ t;
                        details := UnsubscribeDetails
                                     (length (subscriptions (fst run))) |}
      /\ mapGet t (subscriptions (fst run)) = None
      /\ (forall k, k <> t ->
            mapGet k (subscriptions (fst run)) = mapGet k (subscriptions st))
      /\ (mapGet t (subscriptions st) = None -> fst run = st)
      /\ mqttClient (fst run) = Some c
  end.
Proof.
  intros Hc Hup Ht run. subst run. unfold execute. rewrite Hc, Hup.
  cbn [negb action topic]. unfold given. apply String.eqb_neq in Ht. rewrite Ht.
  destruct (unsubscribeError broker t) as [msg|]; [reflexivity|].
  cbn [fst snd subscriptions withSubscriptions mqttClient]. repeat split.
  - rewrite mapGet_mapDelete. now rewrite String.eqb_refl.
  - intros k Hk. rewrite mapGet_mapDelete.
    destruct (String.eqb_spec t k) as [->|_]; [contradiction|reflexivity].
  - intros Hnone. rewrite (mapDelete_absent t _ Hnone). now destruct st.
  - exact Hc.
Qed.

End Unsubscribe.

(** A pattern that was never subscribed is unsubscribed. *)
Lemma unsubscribe_removes_pattern_unknown :
  let st := fst (MqttTools.execute ackAll subscribeCoop justConnected) in
  MqttTools.execute ackAll (onTopic MqttTools.Unsubscribe "barn/#") st
  = (st, Some {| MqttTools.success := true;
                 MqttTools.status := "Unsubscribed from barn/#";
                 MqttTools.details := MqttTools.UnsubscribeDetails 1 |}).
Proof.
  intros st.
  pose proof (unsubscribe_removes_pattern ackAll "barn/#" None st
                {| MqttTools.connected := true;
                   MqttTools.messageListeners := [MqttTools.HandleMessage] |}
                eq_refl eq_refl) as H.
  simpl in H. destruct H as (Hreply & _ & _ & Hsame & _); [discriminate|].
  apply injective_projections; [now apply Hsame|exact Hreply].
Defined.

Section Resolution.

Import MqttTools.

Lemma filter_existsb {A : Type} (p : A -> bool) (l : list A) :
  negb (Nat.eqb (length (List.filter p l)) 0) = existsb p l.
Proof.
  induction l as [|x l IH]; [reflexivity|]. simpl.
  destruct (p x); [reflexivity|exact IH].
Qed.

Lemma filter_negb_forallb {A : Type} (p : A -> bool) (l : list A) :
  List.filter (fun x => negb (p x)) l = [] <-> forallb p l = true.
Proof.
  induction l as [|x l IH]; [now split|]. simpl.
  destruct (p x); simpl; [exact IH|]. split; discriminate.
Qed.

(** X17.  A [subscribe] call on a connected client is answered exactly
    when its array of topics is not empty: with an empty array no
    callback ever runs, the promise stays pending and nothing changes.
    Otherwise the reply succeeds exactly when the broker acknowledged at
    least one topic, lists the acknowledged and the refused topics in
    the order of the call, each acknowledged topic has the entry of this
    call (its qos and filter, not paused), every other pattern keeps its
    entry, and [handleMessage] is attached if the client had no
    [message] listener. *)
Theorem subscribe_resolves_with_topics (broker : Broker) (cfg : Config)
    (top : option string) (st : State) (c : Client) :
  mqttClient st = Some c -> connected c = true ->
  let run := execute broker {| action := Subscribe; config := Some cfg;
                               topic := top |} st in
  (topics cfg = [] -> run = (st, None))
  /\ (topics cfg <> [] ->
      exists reply,
        snd run = Some reply
        /\ success reply = existsb (subscribeAck broker) (topics cfg)
        /\ (exists failed,
              details reply
              = SubscribeDetails (List.filter (subscribeAck broker) (topics cfg))
                                 failed (length (subscriptions (fst run)))
              /\ (failed = None
                  <-> forallb (subscribeAck broker) (topics cfg) = true))
        /\ (forall t, In t (topics cfg) -> subscribeAck broker t = true ->
              mapGet t (subscriptions (fst run)) = Some (entryOf cfg t))
        /\ (forall k, ~ (In k (topics cfg) /\ subscribeAck broker k = true) ->
              mapGet k (subscriptions (fst run)) = mapGet k (subscriptions st))
        /\ mqttClient (fst run)
           = Some {| connected := true;
                     messageListeners :=
                       match messageListeners c with
                       | [] => [HandleMessage]
                       | l => l
                       end |}).
Proof.
  intros Hc Hup run. split.
  - intros Hts. subst run. unfold execute. rewrite Hc, Hup.
    cbn [negb action config]. now rewrite Hts.
  - intros Hts. subst run. rewrite (execute_subscribe broker cfg top st c Hc Hup Hts).
    eexists. split; [reflexivity|].
    cbn [fst snd success details subscriptions withClient withSubscriptions
         mqttClient].
    repeat split.
    + apply filter_existsb.
    + eexists. split; [reflexivity|].
      rewrite <- filter_negb_forallb.
      destruct (List.filter (fun t => negb (subscribeAck broker t)) (topics cfg));
        split; intros H; try reflexivity; discriminate.
    + intros t Hin Hack. now apply registered_acked.
    + intros k Hk. now apply registered_other.
    + unfold attachHandleMessage, listenerCount, on.
      destruct c as [up ls]. simpl in *. subst up.
      now destruct ls.
Qed.

End Resolution.

(** A [subscribe] call with an empty array of topics, and one for the
    coop topics. *)
Lemma subscribe_resolves_with_topics_none :
  MqttTools.execute ackAll
    {| MqttTools.action := MqttTools.Subscribe;
       MqttTools.config := Some {| MqttTools.topics := []; MqttTools.qos := 1;
                                   MqttTools.filter := None |};
       MqttTools.topic := None |} justConnected
  = (justConnected, None).
Proof.
  apply (subscribe_resolves_with_topics ackAll
           {| MqttTools.topics := []; MqttTools.qos := 1;
              MqttTools.filter := None |} None justConnected
           {| MqttTools.connected := true; MqttTools.messageListeners := [] |}
           eq_refl eq_refl).
  reflexivity.
Defined.

(** ** Listeners of the client *)

Section Wiring.

Import MqttTools.

Lemma execute_bridge_fields (broker : Broker) (inp : Input) (st : State) :
  bridgeEnabled (fst (execute broker inp st)) = bridgeEnabled st
  /\ messageHandler (fst (execute broker inp st)) = messageHandler st
  /\ nextClosure (fst (execute broker inp st)) = nextClosure st.
Proof.
  unfold execute.
  destruct (mqttClient st) as [c|]; [|now repeat split].
  destruct (connected c); [|now repeat split]. cbn [negb].
  destruct (action inp).
  - destruct (config inp) as [cfg|]; [|now repeat split].
    destruct (topics cfg) as [|t ts]; [now repeat split|].
    destruct (fold_left _ _ _) as [[m s] f]. now repeat split.
  - destruct (given (topic inp)) as [t|]; [|now repeat split].
    destruct (unsubscribeError broker t); now repeat split.
  - now repeat split.
  - unfold pauseOrResume. destruct (given (topic inp)) as [t|]; [|now repeat split].
    destruct (mapGet t (subscriptions st)); now repeat split.
  - unfold pauseOrResume. destruct (given (topic inp)) as [t|]; [|now repeat split].
    destruct (mapGet t (subscriptions st)); now repeat split.
Qed.

Lemma execute_keys (broker : Broker) (inp : Input) (st : State) :
  NoDup (List.map fst (subscriptions st)) ->
  NoDup (List.map fst (subscriptions (fst (execute broker inp st)))).
Proof.
  intros Hnd. unfold execute.
  destruct (mqttClient st) as [c|]; [|exact Hnd].
  destruct (connected c); [|exact Hnd]. cbn [negb].
  destruct (action inp).
  - destruct (config inp) as [cfg|]; [|exact Hnd].
    destruct (topics cfg) as [|t ts] eqn:Hts; [exact Hnd|].
    rewrite <- Hts, fold_subscribeCallback. cbn [fst subscriptions withClient
                                                  withSubscriptions].
    now apply registered_NoDup.
  - destruct (given (topic inp)) as [t|]; [|exact Hnd].
    destruct (unsubscribeError broker t); [exact Hnd|].
    cbn [fst subscriptions withSubscriptions]. now apply filter_keys_NoDup.
  - exact Hnd.
  - unfold pauseOrResume. destruct (given (topic inp)) as [t|]; [|exact Hnd].
    destruct (mapGet t (subscriptions st)); [|exact Hnd].
    cbn [fst subscriptions withSubscriptions]. now rewrite setPaused_keys.
  - unfold pauseOrResume. destruct (given (topic inp)) as [t|]; [|exact Hnd].
    destruct (mapGet t (subscriptions st)); [|exact Hnd].
    cbn [fst subscriptions withSubscriptions]. now rewrite setPaused_keys.
Qed.

(** The client after a call of the subscription tool: the same object,
    with [handleMessage] attached by a [subscribe] call that found no
    listener. *)
Lemma execute_client (broker : Broker) (inp : Input) (st : State) :
  match mqttClient st with
  | None => mqttClient (fst (execute broker inp st)) = None
  | Some c =>
      mqttClient (fst (execute broker inp st)) = Some c
      \/ (messageListeners c = []
          /\ mqttClient (fst (execute broker inp st))
             = Some {| connected := connected c;
                       messageListeners := [HandleMessage] |})
  end.
Proof.
  unfold execute.
  destruct (mqttClient st) as [c|] eqn:Hc; [|exact Hc].
  destruct (connected c) eqn:Hup; [|now left]. cbn [negb].
  destruct (action inp).
  - destruct (config inp) as [cfg|]; [|now left].
    destruct (topics cfg) as [|t ts]; [now left|].
    destruct (fold_left _ _ _) as [[m s] f].
    cbn [fst mqttClient withClient].
    unfold attachHandleMessage, listenerCount, on.
    destruct (messageListeners c) eqn:Hl; simpl; [right|left; reflexivity].
    split; [reflexivity|]. rewrite ?Hl, ?Hup. reflexivity.
  - destruct (given (topic inp)) as [t|]; [|now left].
    destruct (unsubscribeError broker t); now left.
  - now left.
  - unfold pauseOrResume. destruct (given (topic inp)) as [t|]; [|now left].
    destruct (mapGet t (subscriptions st)); now left.
  - unfold pauseOrResume. destruct (given (topic inp)) as [t|]; [|now left].
    destruct (mapGet t (subscriptions st)); now left.
Qed.

Lemma execute_wired (broker : Broker) (inp : Input) (st : State) :
  wired st -> wired (fst (execute broker inp st)).
Proof.
  intros (Hnd & Hflag & Hshape).
  destruct (execute_bridge_fields broker inp st) as (He & Hh & _).
  pose proof (execute_client broker inp st) as Hclient.
  unfold wired. rewrite He, Hh. split; [now apply execute_keys|].
  split; [exact Hflag|].
  destruct (mqttClient st) as [c|]; [|now rewrite Hclient].
  destruct Hclient as [->|[Hl ->]]; [exact Hshape|].
  right. now left.
Qed.

Lemma connection_wired (a : ConnectionAction) (inp : ConnectionInput)
    (st : State) :
  wired st -> wired (fst (connection a inp st)).
Proof.
  intros H. unfold connection. destruct a.
  - destruct (given _) as [url|]; [|exact H].
    destruct (match mqttClient st with
              | Some c => connected c
              | None => false
              end); [exact H|].
    destruct (outcome inp); try exact H; destruct H as (Hnd & Hflag & _);
      (split; [exact Hnd|split; [exact Hflag|now left]]).
  - destruct (mqttClient st) eqn:Hc; [|exact H].
    destruct H as (Hnd & Hflag & _).
    split; [exact Hnd|split; [exact Hflag|exact I]].
  - exact H.
Qed.

Lemma removeListener_shapes (h : nat) (c : Client) :
  (messageListeners c = []
   -> messageListeners (removeListener (BridgeHandler h) c) = [])
  /\ (messageListeners c = [HandleMessage]
      -> messageListeners (removeListener (BridgeHandler h) c) = [HandleMessage])
  /\ (messageListeners c = [BridgeHandler h]
      -> messageListeners (removeListener (BridgeHandler h) c) = [])
  /\ (messageListeners c = [HandleMessage; BridgeHandler h]
      -> messageListeners (removeListener (BridgeHandler h) c) = [HandleMessage]).
Proof.
  unfold removeListener. repeat split; intros ->; simpl;
    rewrite ?Nat.eqb_refl; reflexivity.
Qed.

Lemma bridge_wired (a : BridgeAction) (st : State) :
  wired st -> wired (fst (bridge a st)).
Proof.
  intros H. unfold bridge. destruct a.
  - destruct (mqttClient st) as [c|] eqn:Hc; [|exact H].
    destruct (connected c); cbn [negb]; [|exact H].
    destruct (bridgeEnabled st) eqn:He; [exact H|].
    destruct H as (Hnd & Hflag & Hshape). rewrite Hc in Hshape.
    assert (Hnone : messageHandler st = None).
    { destruct (messageHandler st) eqn:Hh; [|reflexivity].
      assert (bridgeEnabled st = true) by (apply Hflag; discriminate).
      congruence. }
    unfold wired. cbn [fst subscriptions bridgeEnabled messageHandler mqttClient].
    split; [exact Hnd|]. split; [split; [discriminate|reflexivity]|].
    right. right. exists (nextClosure st). split; [reflexivity|].
    unfold on. cbn [messageListeners].
    destruct Hshape as [->|[->|(h & Hh & _)]];
      [now left|now right|congruence].
  - destruct (bridgeEnabled st) eqn:He; cbn [negb]; [|exact H].
    destruct H as (Hnd & Hflag & Hshape).
    unfold wired. cbn [fst subscriptions bridgeEnabled messageHandler mqttClient].
    split; [exact Hnd|]. split; [split; [discriminate|congruence]|].
    destruct (mqttClient st) as [c|]; [|now destruct (messageHandler st)].
    destruct (messageHandler st) as [h|] eqn:Hh.
    + destruct (removeListener_shapes h c) as (R1 & R2 & R3 & R4).
      destruct Hshape as [Hl|[Hl|(h' & [= <-] & [Hl|Hl])]];
        [left; auto|right; left; auto|left; auto|right; left; auto].
    + destruct Hshape as [Hl|[Hl|(h' & Hh' & _)]];
        [now left|right; now left|discriminate].
  - exact H.
Qed.

Lemma setConnected_wired (up : bool) (st : State) :
  wired st -> wired (setConnected up st).
Proof.
  intros H. unfold setConnected.
  destruct (mqttClient st) as [c|] eqn:Hc; [|exact H].
  destruct H as (Hnd & Hflag & Hshape). rewrite Hc in Hshape.
  split; [exact Hnd|split; [exact Hflag|exact Hshape]].
Qed.

Lemma step_wired (st : State) (op : Op) : wired st -> wired (step st op).
Proof.
  destruct op; simpl;
    auto using execute_wired, connection_wired, bridge_wired, setConnected_wired.
Qed.

Lemma wired_initial : wired initialState.
Proof. repeat split; try constructor; try discriminate. now intros []. Qed.

End Wiring.

(** X18.  Whatever the three tools are asked to do, in whatever order,
    and however the connection comes and goes: the registry holds each
    pattern once; [messageHandler] is set exactly while the bridge is
    enabled; and the client carries [handleMessage] at most once and
    always in first place, and at most one bridge closure, the current
    one, so that [disable] removes it. *)
Theorem tools_stay_wired (ops : list MqttTools.Op) :
  wired (MqttTools.run ops MqttTools.initialState).
Proof.
  unfold MqttTools.run.
  assert (H : forall st, wired st -> wired (fold_left MqttTools.step ops st)).
  { induction ops as [|op ops IH]; intros st Hst; [exact Hst|].
    simpl. apply IH. now apply step_wired. }
  apply H, wired_initial.
Qed.

Section SetupOrder.

Import MqttTools.

Variable JSON_parse : string -> option JSON.

Lemma subscribe_calls_keep_listeners (calls : list (Broker * Input))
    (st : State) (c : Client) :
  mqttClient st = Some c -> messageListeners c <> [] ->
  let st' := run (List.map (fun call => SubscribeTool (fst call) (snd call)) calls)
                 st in
  mqttClient st' = Some c.
Proof.
  revert st. induction calls as [|[b i] calls IH]; intros st Hc Hl; [exact Hc|].
  simpl. apply IH; [|exact Hl].
  pose proof (execute_client b i st) as Hclient. rewrite Hc in Hclient.
  destruct Hclient as [H|[H _]]; [exact H|contradiction].
Qed.

(** X19.  The order in which the bridge and the first subscription are
    set up on a fresh connected client decides who stores a message.
    Bridge first: [subscribe] finds a listener and never attaches
    [handleMessage], so whatever is subscribed later, with whatever
    filter, paused or not, a message is stored once by the bridge when
    the agent answers and not at all otherwise.  Subscription first:
    both listeners run, the dispatcher stores the message for every
    subscription that accepts it and the bridge stores it once more. *)
Theorem setup_order_decides_who_stores (st : State) (c : Client)
    (calls : list (Broker * Input)) (broker : Broker) (cfg : Config)
    (top : option string) (topic0 raw : string) (now bridgeNow : Z)
    (agentText : option string) (store : sensorMemoryStore) :
  mqttClient st = Some c -> connected c = true -> messageListeners c = [] ->
  bridgeEnabled st = false -> topics cfg <> [] ->
  let bridgeFirst :=
    run (BridgeTool Enable
         :: List.map (fun call => SubscribeTool (fst call) (snd call)) calls) st in
  let subscribeFirst :=
    run [SubscribeTool broker {| action := Subscribe; config := Some cfg;
                                 topic := top |};
         BridgeTool Enable] st in
  emitMessage JSON_parse topic0 raw now bridgeNow agentText bridgeFirst store
  = bridgeStore JSON_parse topic0 raw bridgeNow agentText store
  /\ emitMessage JSON_parse topic0 raw now bridgeNow agentText subscribeFirst store
     = bridgeStore JSON_parse topic0 raw bridgeNow agentText
         (MqttSubscribe.handleMessage JSON_parse topic0 raw now
            (registered broker cfg (topics cfg) (subscriptions st)) store).
Proof.
  intros Hc Hup Hl Hoff Hts bridgeFirst subscribeFirst. split.
  - subst bridgeFirst. unfold run. cbn [fold_left step].
    assert (Hen : fst (bridge Enable st)
                  = {| mqttClient := Some (on (BridgeHandler (nextClosure st)) c);
                       subscriptions := subscriptions st;
                       bridgeEnabled := true;
                       messageHandler := Some (nextClosure st);
                       nextClosure := S (nextClosure st) |}).
    { unfold bridge. now rewrite Hc, Hup, Hoff. }
    pose proof (subscribe_calls_keep_listeners calls (fst (bridge Enable st))
                  (on (BridgeHandler (nextClosure st)) c)) as Hkeep.
    rewrite Hen in Hkeep. rewrite Hen. specialize (Hkeep eq_refl).
    unfold run in Hkeep. unfold emitMessage. rewrite Hkeep.
    + unfold on. cbn [messageListeners]. now rewrite Hl.
    + unfold on. cbn [messageListeners]. now destruct (messageListeners c).
  - subst subscribeFirst. unfold run. cbn [fold_left step].
    rewrite (execute_subscribe broker cfg top st c Hc Hup Hts). cbn [fst].
    unfold bridge.
    cbn [mqttClient withClient withSubscriptions bridgeEnabled subscriptions
         messageHandler nextClosure].
    assert (Hup1 : connected (attachHandleMessage c) = true).
    { unfold attachHandleMessage. now destruct (Nat.eqb (listenerCount c) 0). }
    rewrite Hup1, Hoff. cbn [negb fst]. unfold emitMessage.
    cbn [mqttClient subscriptions].
    unfold on, attachHandleMessage, listenerCount. rewrite Hl.
    cbn [length Nat.eqb messageListeners on app]. rewrite Hl.
    reflexivity.
Qed.

(** X20.  Replacing the client loses the listeners and nothing else: after
    [disconnect] and a successful [connect] the registry and the
    bridge's flag are what they were, but the new client has no
    [message] listener, so a message it receives is stored by nobody;
    the subscription tool still lists the old subscriptions, and
    [enable] answers that the bridge is already enabled without
    attaching it. *)
Theorem reconnect_loses_listeners (st : State) (inp : ConnectionInput)
    (url : string) (c : Client) (broker : Broker) (list : Input) :
  mqttClient st = Some c -> broker_url inp = Some url -> url <> "" ->
  outcome inp = Connected -> action list = ListSubscriptions ->
  let st' := run [ConnectionTool Disconnect inp; ConnectionTool Connect inp] st in
  mqttClient st' = Some {| connected := true; messageListeners := [] |}
  /\ subscriptions st' = subscriptions st
  /\ bridgeEnabled st' = bridgeEnabled st
  /\ (forall topic0 raw now bridgeNow agentText store,
        emitMessage JSON_parse topic0 raw now bridgeNow agentText st' store = store)
  /\ (exists entries,
        snd (execute broker list st')
        = Some {| success := true;
                  status := pretty (length (subscriptions st))
                            +:+ " active subscription(s)";
                  details := ListDetails entries |}
        /\ List.map info_topic entries = List.map fst (subscriptions st))
  /\ (bridgeEnabled st = true ->
      bridge Enable st'
      = (st', {| bridge_success := true;
                 bridge_status := "Memory bridge already enabled";
                 enabled := true |})).
Proof.
  intros Hc Hurl Hne Hout Hlist st'.
  assert (Hst' : st' = withClient (Some {| connected := true;
                                           messageListeners := [] |}) st).
  { subst st'. unfold run. cbn [fold_left step]. unfold connection at 2.
    rewrite Hc. cbn [fst]. unfold connection.
    cbn [mqttClient withClient]. unfold orElse, given. rewrite Hurl.
    apply String.eqb_neq in Hne. rewrite Hne, Hne, Hout. cbn [fst].
    unfold withClient. reflexivity. }
  rewrite Hst'. cbn [mqttClient subscriptions bridgeEnabled withClient].
  repeat split.
  - exists (List.map infoOf (subscriptions st)). unfold execute.
    cbn [mqttClient withClient connected negb]. rewrite Hlist.
    cbn [snd subscriptions]. rewrite length_map. split; [reflexivity|].
    rewrite List.map_map. reflexivity.
  - intros Hon. unfold bridge.
    cbn [mqttClient withClient connected negb bridgeEnabled]. now rewrite Hon.
Qed.

End SetupOrder.

(** The bridge is enabled on a fresh client; the coop topics are then
    subscribed twice. *)
Lemma setup_order_decides_who_stores_sample :
  let bridgeFirst :=
    MqttTools.run [MqttTools.BridgeTool MqttTools.Enable;
                   MqttTools.SubscribeTool ackAll subscribeCoop;
                   MqttTools.SubscribeTool ackAll subscribeCoop] justConnected in
  MqttTools.emitMessage sampleParse "coop/main/temp" "42" 7 9 None bridgeFirst
    initialStore = initialStore
  /\ List.map fst (MqttTools.subscriptions bridgeFirst) = ["coop/#"].
Proof.
  intros bridgeFirst. split; [|reflexivity].
  destruct (setup_order_decides_who_stores sampleParse justConnected
              {| MqttTools.connected := true; MqttTools.messageListeners := [] |}
              [(ackAll, subscribeCoop); (ackAll, subscribeCoop)] ackAll
              {| MqttTools.topics := ["coop/#"]; MqttTools.qos := 1;
                 MqttTools.filter := None |} None
              "coop/main/temp" "42" 7 9 None initialStore)
    as [Hbridge _]; [reflexivity|reflexivity|reflexivity|reflexivity|discriminate|].
  exact Hbridge.
Defined.

(** The client is replaced while the coop subscription is registered. *)
Lemma reconnect_loses_listeners_sample :
  let st := fst (MqttTools.execute ackAll subscribeCoop justConnected) in
  let st' := MqttTools.run [MqttTools.ConnectionTool MqttTools.Disconnect connectOk;
                            MqttTools.ConnectionTool MqttTools.Connect connectOk]
                           st in
  List.map fst (MqttTools.subscriptions st') = ["coop/#"]
  /\ MqttTools.emitMessage sampleParse "coop/main/temp" "42" 7 9 (Some "warm") st'
       initialStore = initialStore
  /\ List.map data
       (MqttTools.emitMessage sampleParse "coop/main/temp" "42" 7 9 (Some "warm")
          st initialStore) = [JNum 42].
Proof.
  intros st st'. split; [reflexivity|]. split; [|reflexivity].
  destruct (reconnect_loses_listeners sampleParse st connectOk "mqtt://broker.local"
              {| MqttTools.connected := true;
                 MqttTools.messageListeners := [MqttTools.HandleMessage] |}
              ackAll
              {| MqttTools.action := MqttTools.ListSubscriptions;
                 MqttTools.config := None; MqttTools.topic := None |})
    as (_ & _ & _ & Hsilent & _);
    [reflexivity|reflexivity|discriminate|reflexivity|reflexivity|].
  exact (Hsilent "coop/main/temp" "42" 7 9 (Some "warm") initialStore).
Defined.

(** ** Publishing and the offline queue *)

Section Queue.

Import MqttPublish.

Variable JSON_stringify : JSON -> string.
Variable publishError : Publish -> option string.

Lemma length_blanks (n : nat) : String.length (blanks n) = n.
Proof. induction n as [|n IH]; simpl; [reflexivity|now rewrite IH]. Qed.

(** X21.  The limit of one megabyte on a message holds only while the
    client is connected.  A [publish] of a larger message is then
    refused and nothing is handed to the client; made while the client
    is away, the same call is accepted and queued without the check, and
    the queue processor hands the message to the client as it is once
    the client is back (here with fewer than ten messages queued before
    it). *)
Theorem size_limit_only_when_connected (cfg : PublishConfig)
    (ms : option (list PublishConfig)) (top : option string) (now : Z)
    (st : State) :
  (MAX_MESSAGE_SIZE < String.length (payload JSON_stringify (message cfg)))%nat ->
  (length (publishQueue st) < 10)%nat ->
  let inp := {| action := PublishAction; config := Some cfg; messages := ms;
                in_topic := top |} in
  let online := execute JSON_stringify publishError true inp now st in
  let offline := execute JSON_stringify publishError false inp now st in
  online
  = (st, [],
     {| success := false; status := "Message size exceeds limit (1MB)";
        details := Single (TooLarge
                             (String.length (payload JSON_stringify (message cfg)))
                             MAX_MESSAGE_SIZE) |})
  /\ success (snd offline) = true
  /\ snd (fst offline) = []
  /\ In {| pub_topic := topic cfg;
           pub_message := payload JSON_stringify (message cfg);
           pub_options := {| opt_qos := Some (qos cfg); opt_retain := retain cfg;
                             opt_properties := properties cfg |} |}
        (snd (tick true (fst (fst offline)))).
Proof.
  intros Hbig Hshort inp online offline.
  subst online offline inp. unfold execute. cbn [negb action config].
  unfold publishMessage.
  replace (MAX_MESSAGE_SIZE <? String.length (payload JSON_stringify (message cfg)))%nat
    with true by (symmetry; now apply Nat.ltb_lt).
  cbn [fst snd success]. repeat split.
  unfold tick. cbn [queueInterval publishQueue negb orb].
  rewrite length_app. cbn [length].
  replace (Nat.eqb (length (publishQueue st) + 1) 0) with false
    by (symmetry; apply Nat.eqb_neq; lia).
  cbn [snd]. rewrite firstn_all2 by (rewrite length_app; simpl; lia).
  rewrite List.map_app. apply List.in_or_app. right. left.
  unfold publishOf, queued. cbn. now rewrite Bool.orb_false_r.
Qed.

End Queue.

(** A text one byte over the limit. *)
Lemma size_limit_only_when_connected_blanks :
  let cfg := textFor "coop/main/log" (blanks (S MqttPublish.MAX_MESSAGE_SIZE)) in
  fst (MqttPublish.execute (fun _ => "") (fun _ => None) true
         (publishCall MqttPublish.PublishAction cfg) 5 MqttPublish.initialState)
  = (MqttPublish.initialState, [])
  /\ MqttPublish.success
       (snd (MqttPublish.execute (fun _ => "") (fun _ => None) false
               (publishCall MqttPublish.PublishAction cfg) 5
               MqttPublish.initialState)) = true.
Proof.
  intros cfg.
  destruct (size_limit_only_when_connected (fun _ => "") (fun _ => None) cfg
              None None 5 MqttPublish.initialState) as (Hon & Hoff & _).
  - unfold cfg, textFor. cbn [MqttPublish.message MqttPublish.payload].
    rewrite length_blanks. apply Nat.lt_succ_diag_r.
  - cbn. apply Nat.lt_0_succ.
  - split; [|exact Hoff]. unfold publishCall. now rewrite Hon.
Defined.

Section Stranded.

Import MqttPublish.

Variable JSON_stringify : JSON -> string.
Variable publishError : Publish -> option string.

(** X22.  A queued message can be left behind with nobody to send it.
    A message is queued while the client is away; the processor hands it
    to the client; at its next run, before that publish has been
    answered, it finds the queue empty and clears the interval; the
    publish then fails within five minutes of the queueing and the
    message is queued again.  It now sits in the queue with no interval
    set, so no run of the processor will ever send it; only another
    publish made while the client is away starts the processor again. *)
Theorem failed_publish_strands_message (a : Action) (cfg : PublishConfig)
    (ms : option (list PublishConfig)) (top : option string)
    (now failedAt : Z) :
  a = PublishAction \/ a = PublishRetained ->
  failedAt - now < 300000 ->
  let inp := {| action := a; config := Some cfg; messages := ms;
                in_topic := top |} in
  let st0 := fst (fst (execute JSON_stringify publishError false inp now
                         initialState)) in
  let st1 := fst (tick true st0) in
  let st2 := fst (tick true st1) in
  let st3 := publishCallback 0 true failedAt st2 in
  snd (tick true st0) = [publishOf (queued JSON_stringify a cfg now)]
  /\ st3 = {| publishQueue := [queued JSON_stringify a cfg now];
              queueInterval := false; inFlight := [] |}
  /\ (forall up, tick up st3 = (st3, []))
  /\ queueInterval
       (fst (fst (execute JSON_stringify publishError false inp failedAt st3)))
     = true.
Proof.
  intros Ha Hrecent inp st0 st1 st2 st3.
  assert (Hst0 : st0 = {| publishQueue := [queued JSON_stringify a cfg now];
                          queueInterval := true; inFlight := [] |}).
  { subst st0 inp. unfold execute. cbn [negb action config].
    destruct Ha as [-> | ->]; reflexivity. }
  assert (Hst3 : st3 = {| publishQueue := [queued JSON_stringify a cfg now];
                          queueInterval := false; inFlight := [] |}).
  { subst st3 st2 st1. rewrite Hst0. unfold tick, publishCallback.
    cbn [queueInterval publishQueue inFlight negb orb length Nat.eqb fst snd
         firstn skipn app nth_error removeAt andb].
    unfold queued at 1. cbn [item_timestamp].
    replace (failedAt - now <? 300000) with true
      by (symmetry; apply Z.ltb_lt; lia).
    reflexivity. }
  repeat split.
  - rewrite Hst0. reflexivity.
  - exact Hst3.
  - intros up. rewrite Hst3. reflexivity.
  - rewrite Hst3. subst inp. unfold execute. cbn [negb action config].
    destruct Ha as [-> | ->]; reflexivity.
Qed.

End Stranded.

(** A log line queued at 1000 ms whose publish fails at 4000 ms. *)
Lemma failed_publish_strands_message_log :
  let cfg := textFor "coop/main/log" "fed" in
  let st0 := fst (fst (MqttPublish.execute (fun _ => "") (fun _ => None) false
                         (publishCall MqttPublish.PublishAction cfg) 1000
                         MqttPublish.initialState)) in
  let st3 := MqttPublish.publishCallback 0 true 4000
               (fst (MqttPublish.tick true (fst (MqttPublish.tick true st0)))) in
  List.map MqttPublish.item_message (MqttPublish.publishQueue st3) = ["fed"]
  /\ MqttPublish.queueInterval st3 = false.
Proof.
  intros cfg st0 st3.
  destruct (failed_publish_strands_message (fun _ => "") (fun _ => None)
              MqttPublish.PublishAction cfg None None 1000 4000)
    as (_ & Hst3 & _); [now left|reflexivity|].
  subst st3 st0. unfold publishCall. rewrite Hst3. split; reflexivity.
Defined.

Section Draining.

Import MqttPublish.

Lemma firstn_firstn_skipn {A : Type} (a b : nat) (l : list A) :
  firstn a l ++ firstn b (skipn a l) = firstn (a + b) l.
Proof.
  revert l. induction a as [|a IH]; intros l; [reflexivity|].
  destruct l as [|x l]; simpl; [now rewrite firstn_nil|].
  now rewrite IH.
Qed.

Lemma ticks_idle (k : nat) (st : State) :
  publishQueue st = [] -> snd (ticks k st) = []
  /\ publishQueue (fst (ticks k st)) = [] /\ inFlight (fst (ticks k st)) = inFlight st.
Proof.
  revert st. induction k as [|k IH]; intros st Hq; [now repeat split|].
  simpl. unfold tick. rewrite Hq. cbn [length Nat.eqb orb].
  rewrite Bool.orb_true_r.
  destruct (negb (queueInterval st)).
  - destruct (ticks k st) as [st2 sent2] eqn:Hk.
    specialize (IH st Hq). rewrite Hk in IH. exact IH.
  - match goal with
    | |- context [ticks k ?s] =>
        destruct (ticks k s) as [st2 sent2] eqn:Hk;
        specialize (IH s eq_refl); rewrite Hk in IH
    end.
    exact IH.
Qed.

(** X23.  While the client is connected and the interval is set, the
    processor hands the queue to the client in the order of queueing,
    ten messages per run: after [k] runs the first [10 k] queued
    messages have been published, in order, and are in flight, and the
    rest of the queue waits in its order. *)
Theorem queue_drains_in_order (k : nat) (st : State) :
  queueInterval st = true ->
  let queue := publishQueue st in
  snd (ticks k st) = List.map publishOf (firstn (10 * k) queue)
  /\ publishQueue (fst (ticks k st)) = skipn (10 * k) queue
  /\ inFlight (fst (ticks k st)) = inFlight st ++ firstn (10 * k) queue.
Proof.
  revert st. induction k as [|k IH]; intros st Hon queue.
  - simpl. rewrite app_nil_r. now repeat split.
  - subst queue. destruct (publishQueue st) as [|x q] eqn:Hq.
    + destruct (ticks_idle (S k) st Hq) as (H1 & H2 & H3).
      rewrite H1, H2, H3, firstn_nil, skipn_nil, app_nil_r. now repeat split.
    + cbn [ticks]. unfold tick. rewrite Hon, Hq. cbn [negb orb length Nat.eqb].
      rewrite <- Hq.
      set (st1 := {| publishQueue := skipn 10 (publishQueue st);
                     queueInterval := true;
                     inFlight := inFlight st ++ firstn 10 (publishQueue st) |}).
      destruct (IH st1 eq_refl) as (H1 & H2 & H3).
      destruct (ticks k st1) as [st2 sent2]. cbn [fst snd] in *.
      subst st1. cbn [publishQueue inFlight] in *.
      rewrite H1, H2, H3.
      replace (10 * S k)%nat with (10 + 10 * k)%nat by lia.
      repeat split.
      * rewrite <- List.map_app. f_equal. apply firstn_firstn_skipn.
      * now rewrite skipn_skipn, Nat.add_comm.
      * rewrite <- app_assoc. f_equal. apply firstn_firstn_skipn.
Qed.

End Draining.

(** Twelve log lines are queued while the client is away; the first run
    of the processor publishes ten of them and the second the other two. *)
Lemma queue_drains_in_order_twelve :
  let cfgs := List.map (fun n => textFor "coop/main/log" (pretty n)) (seq 0 12) in
  let st := fold_left
              (fun s cfg =>
                 fst (fst (MqttPublish.execute (fun _ => "") (fun _ => None) false
                             (publishCall MqttPublish.PublishAction cfg) 5 s)))
              cfgs MqttPublish.initialState in
  List.map MqttPublish.pub_message (snd (ticks 1 st))
  = List.map pretty (seq 0 10)
  /\ List.map MqttPublish.pub_message (snd (ticks 2 st))
     = List.map pretty (seq 0 12).
Proof.
  intros cfgs st.
  destruct (queue_drains_in_order 1 st eq_refl) as (H1 & _).
  destruct (queue_drains_in_order 2 st eq_refl) as (H2 & _).
  rewrite H1, H2. split; reflexivity.
Defined.

Section Batch.

Import MqttPublish.

Variable JSON_stringify : JSON -> string.
Variable publishError : Publish -> option string.

Lemma filter_partition_length {A : Type} (p : A -> bool) (l : list A) :
  (length (List.filter p l) + length (List.filter (fun x => negb (p x)) l)
   = length l)%nat.
Proof.
  induction l as [|x l IH]; [reflexivity|]. simpl.
  destruct (p x); simpl; lia.
Qed.

(** Whether a message is within the size limit. *)
Lemma publishMessage_sent (cfg : PublishConfig) :
  fst (publishMessage JSON_stringify publishError cfg)
  = if (MAX_MESSAGE_SIZE
        <? String.length (payload JSON_stringify (message cfg)))%nat
    then []
    else [{| pub_topic := topic cfg;
             pub_message := payload JSON_stringify (message cfg);
             pub_options := {| opt_qos := Some (qos cfg);
                               opt_retain := retain cfg;
                               opt_properties := properties cfg |} |}].
Proof.
  unfold publishMessage.
  destruct (MAX_MESSAGE_SIZE <? _)%nat; [reflexivity|].
  now destruct (publishError _).
Qed.

(** X24.  A batch is published only while the client is connected (made
    while it is away the call fails and queues nothing) and needs at
    least one message.  Every message within the size limit is handed to
    the client, in the order of the array, and no other; the counts of
    succeeded and failed messages add up to the total; the call succeeds
    as soon as one message succeeded; and the individual results are
    reported exactly when one failed. *)
Theorem batch_accounting (cfg0 : option PublishConfig)
    (msgs : list PublishConfig) (top : option string) (now : Z) (st : State) :
  msgs <> [] ->
  let inp := {| action := PublishBatch; config := cfg0; messages := Some msgs;
                in_topic := top |} in
  let online := execute JSON_stringify publishError true inp now st in
  execute JSON_stringify publishError false inp now st
  = (st, [], failure "MQTT client not connected")
  /\ fst (fst online) = st
  /\ snd (fst online)
     = flat_map (fun cfg => fst (publishMessage JSON_stringify publishError cfg))
                msgs
  /\ exists succeeded failed results,
       details (snd online) = Batch (length msgs) succeeded failed results
       /\ (succeeded + failed = length msgs)%nat
       /\ success (snd online) = negb (Nat.eqb succeeded 0)
       /\ (results = None <-> failed = 0%nat)
       /\ succeeded
          = length (List.filter
                      (fun cfg => pub_success
                                    (snd (publishMessage JSON_stringify
                                            publishError cfg))) msgs).
Proof.
  intros Hmsgs inp online. subst online inp. unfold execute.
  cbn [negb action messages config].
  destruct msgs as [|m msgs']; [contradiction|].
  set (msgs := m :: msgs'). cbn [fst snd details success].
  split; [reflexivity|]. split; [reflexivity|]. split.
  - rewrite flat_map_concat_map, List.map_map. reflexivity.
  - eexists _, _, _. split; [reflexivity|].
    set (results := List.map snd
                      (List.map (publishMessage JSON_stringify publishError) msgs)).
    assert (Hlen : length results = length msgs)
      by (subst results; now rewrite !length_map).
    split; [rewrite <- Hlen; apply filter_partition_length|].
    split.
    + destruct (length (List.filter pub_success results)); reflexivity.
    + split.
      * destruct (length (List.filter (fun r => negb (pub_success r)) results));
          simpl; split; intros H; try reflexivity; discriminate.
      * subst results. rewrite List.map_map.
        clear. induction msgs as [|x l IH]; [reflexivity|]. simpl.
        destruct (pub_success (snd (publishMessage JSON_stringify publishError x)));
          simpl; now rewrite IH.
Qed.

End Batch.

(** Two log lines in one batch, the broker refusing the second. *)
Lemma batch_accounting_two :
  let refuseSecond (p : MqttPublish.Publish) :=
    if String.eqb (MqttPublish.pub_message p) "second" then Some "refused"
    else None in
  let inp := {| MqttPublish.action := MqttPublish.PublishBatch;
                MqttPublish.config := None;
                MqttPublish.messages :=
                  Some [textFor "coop/main/log" "first";
                        textFor "coop/main/log" "second"];
                MqttPublish.in_topic := None |} in
  MqttPublish.execute (fun _ => "") refuseSecond false inp 5
    MqttPublish.initialState
  = (MqttPublish.initialState, [], MqttPublish.failure "MQTT client not connected")
  /\ MqttPublish.status
       (snd (MqttPublish.execute (fun _ => "") refuseSecond true inp 5
               MqttPublish.initialState))
     = "Published 1 message(s), 1 failed".
Proof.
  intros refuseSecond inp. split; [|reflexivity].
  apply (batch_accounting (fun _ => "") refuseSecond None
           [textFor "coop/main/log" "first"; textFor "coop/main/log" "second"]
           None 5 MqttPublish.initialState).
  discriminate.
Defined.

(** ** Device commands *)

Section Commands.

Import CoopControls.

Variable Number_toString : Q -> string.

(** X25.  A level of 0 is taken for a missing level and replaced by the
    default of the action: the whole call, command and message, is the
    one made without a level.  Opening the awning at level 0 extends it
    to full coverage, and ventilation switched on at level 0 runs at
    half intensity.  For the water system a duration of 0, the schema's
    default that it describes as indefinite, is replaced in the same
    way: dispensing lasts 30 seconds and the valve opens for 60. *)
Theorem zero_level_means_default (clientConnected : bool)
    (publishError : option string) (s : System) (a : Action)
    (zero : Q) (level : option Q) (duration : Q) (coop : string) (now : Z) :
  (zero == 0)%Q ->
  execute Number_toString clientConnected publishError s a (Some zero) duration
          coop now
  = execute Number_toString clientConnected publishError s a None duration
            coop now
  /\ buildCommand Awning Open (Some zero) (Some duration)
     = Some [("action", JStr "extend"); ("coverage", JNum 100%Q);
             ("duration", JNum duration)]
  /\ buildCommand Ventilation On (Some zero) (Some duration)
     = Some [("action", JStr "start"); ("intensity", JNum 50%Q);
             ("duration", JNum duration)]
  /\ buildCommand Water On level (Some zero)
     = Some [("action", JStr "dispense");
             ("amount", JNum (orDefault level 100%Q)); ("duration", JNum 30%Q)]
  /\ buildCommand Water Open level (Some zero)
     = Some [("action", JStr "open_valve"); ("duration", JNum 60%Q)].
Proof.
  intros Hzero. apply Qeq_bool_iff in Hzero.
  split.
  - unfold execute. destruct clientConnected; [|reflexivity]. cbn [negb].
    assert (Hb : buildCommand s a (Some zero) (Some duration)
                 = buildCommand s a None (Some duration))
      by (destruct s, a; simpl; now rewrite ?Hzero).
    assert (Hm : getMessage Number_toString s a (Some zero) (Some duration)
                 = getMessage Number_toString s a None (Some duration))
      by (destruct s, a; simpl; now rewrite ?Hzero).
    now rewrite Hb, Hm.
  - simpl. rewrite ?Hzero. now repeat split.
Qed.

End Commands.

(** The awning is opened at level 0 for the main coop. *)
Lemma zero_level_means_default_awning :
  CoopControls.buildCommand CoopControls.Awning CoopControls.Open
    (Some 0%Q) (Some 0%Q)
  = Some [("action", JStr "extend"); ("coverage", JNum 100%Q);
          ("duration", JNum 0%Q)].
Proof.
  destruct (zero_level_means_default (fun _ => "") true None CoopControls.Awning
              CoopControls.Open 0%Q None 0%Q "main" 5) as (_ & Hawning & _);
    [reflexivity|exact Hawning].
Defined.

Section Supported.

Import CoopControls.

Variable Number_toString : Q -> string.

(** X26.  The coop-controls tool publishes at most one command per
    call, and exactly when the client is connected and the system has a
    command for the action; the command goes to
    [commands/coop/<coopId>/<system>] at qos 1 and carries the clock
    reading and the coop.  An action the system does not have is
    answered with the invalid-action failure, without any publish. *)
Theorem command_published_when_supported (clientConnected : bool)
    (publishError : option string) (s : System) (a : Action) (level : option Q)
    (duration : Q) (coop : string) (now : Z) :
  let run := execute Number_toString clientConnected publishError s a level
                     duration coop now in
  (fst run <> [] <-> clientConnected = true /\ supported s a = true)
  /\ (forall p, In p (fst run) ->
        fst run = [p]
        /\ pub_topic p = "commands/coop/" +:+ coop +:+ "/" +:+ systemName s
        /\ pub_qos p = 1%Z
        /\ timestamp (pub_command p) = now
        /\ coopId (pub_command p) = coop
        /\ Some (fields (pub_command p)) = buildCommand s a level (Some duration))
  /\ (clientConnected = true -> supported s a = false ->
      run = ([], failure ("Invalid action '" +:+ actionName a
                          +:+ "' for system '" +:+ systemName s +:+ "'")))
  /\ (success (snd run) = true ->
      publishError = None /\ fst run <> []
      /\ topic (snd run) = Some (commandTopic coop s)).
Proof.
  intros run. subst run. unfold execute.
  destruct clientConnected; cbn [negb].
  - destruct (buildCommand s a level (Some duration)) as [body|] eqn:Hb.
    + assert (Hs : supported s a = true)
        by (destruct s, a; try reflexivity; discriminate).
      destruct publishError as [msg|]; cbn [fst snd success topic failure].
      * split; [split; [intros _; now split|discriminate]|].
        split; [intros p [<-|[]]; now repeat split|].
        split; [intros _ Hno; rewrite Hs in Hno; discriminate|].
        discriminate.
      * split; [split; [intros _; now split|discriminate]|].
        split; [intros p [<-|[]]; now repeat split|].
        split; [intros _ Hno; rewrite Hs in Hno; discriminate|].
        intros _. repeat split. discriminate.
    + assert (Hs : supported s a = false)
        by (destruct s, a; try reflexivity; discriminate).
      cbn [fst snd success failure].
      split; [split; [intros H; now elim H
                     |intros [_ H]; rewrite Hs in H; discriminate]|].
      split; [intros p []|]. split; [reflexivity|]. discriminate.
  - cbn [fst snd success failure].
    split; [split; [intros H; now elim H|intros [H _]; discriminate]|].
    split; [intros p []|]. split; [discriminate|]. discriminate.
Qed.

End Supported.

Section CommandTopics.

Lemma split_nonempty (s : string) : split s <> [].
Proof.
  destruct s as [|c s]; simpl; [discriminate|].
  destruct (Ascii.eqb c "/"); [discriminate|].
  destruct (split s); discriminate.
Qed.

Lemma split_append_slash (a b : string) :
  split (a +:+ "/" +:+ b) = split a ++ split b.
Proof.
  induction a as [|c a IH]; [reflexivity|].
  change (split (String c (a +:+ "/" +:+ b)) = split (String c a) ++ split b).
  simpl. destruct (Ascii.eqb c "/"); [now rewrite IH|].
  rewrite IH. pose proof (split_nonempty a) as Hne.
  destruct (split a) as [|seg segs]; [contradiction|reflexivity].
Qed.

Lemma commandTopic_segments (coop name : string) :
  oneSegment name ->
  split ("commands/coop/" +:+ coop +:+ "/" +:+ name)
  = "commands" :: "coop" :: split coop ++ [name].
Proof.
  intros Hname.
  change ("commands/coop/" +:+ coop +:+ "/" +:+ name)
    with ("commands" +:+ "/" +:+ ("coop" +:+ "/" +:+ (coop +:+ "/" +:+ name))).
  rewrite !split_append_slash, Hname. reflexivity.
Qed.

Lemma wildcard_matches_command (coop name : string) :
  oneSegment name -> name <> "#" -> name <> "+" ->
  MqttSubscribe.topicMatches ("commands/coop/" +:+ coop +:+ "/" +:+ name)
                             "commands/#" = true
  /\ MqttSubscribe.topicMatches ("commands/coop/" +:+ coop +:+ "/" +:+ name)
                                ("commands/coop/+/" +:+ name)
     = Nat.eqb (length (split coop)) 1.
Proof.
  intros Hname Hhash Hplus. unfold MqttSubscribe.topicMatches.
  rewrite commandTopic_segments by exact Hname.
  change ("commands/coop/+/" +:+ name)
    with ("commands" +:+ "/" +:+ ("coop" +:+ "/" +:+ ("+" +:+ "/" +:+ name))).
  rewrite !split_append_slash, Hname.
  split; [reflexivity|].
  change (split "commands" ++ split "coop" ++ split "+" ++ [name])
    with ["commands"; "coop"; "+"; name].
  cbn [MqttSubscribe.matchFrom String.eqb Ascii.eqb Bool.eqb].
  apply String.eqb_neq in Hhash. apply String.eqb_neq in Hplus.
  pose proof (split_nonempty coop) as Hne.
  destruct (split coop) as [|seg rest]; [contradiction|].
  cbn [app tail MqttSubscribe.matchFrom]. rewrite Hhash, Hplus.
  destruct rest as [|r rs]; cbn [app].
  - rewrite String.eqb_refl. reflexivity.
  - destruct (String.eqb name r); [|reflexivity].
    cbn [MqttSubscribe.matchFrom length]. rewrite length_app. cbn [length].
    now replace (length rs + 1)%nat with (S (length rs)) by lia.
Qed.

End CommandTopics.

(** X27.  Where the commands go, as the matcher sees it: the topic of a
    feeder command and of a coop-controls command is matched by the
    subscription [commands/#] for every coop identifier, and by the
    per-device pattern [commands/coop/+/<device>] exactly when the coop
    identifier has no slash in it, that is, is a single topic segment. *)
Theorem command_topics_and_wildcards (coop : string) (s : CoopControls.System) :
  MqttSubscribe.topicMatches (FeederControl.commandTopic coop) "commands/#" = true
  /\ MqttSubscribe.topicMatches (FeederControl.commandTopic coop)
                                "commands/coop/+/feeder"
     = Nat.eqb (length (split coop)) 1
  /\ MqttSubscribe.topicMatches (CoopControls.commandTopic coop s) "commands/#"
     = true
  /\ MqttSubscribe.topicMatches (CoopControls.commandTopic coop s)
                                ("commands/coop/+/" +:+ CoopControls.systemName s)
     = Nat.eqb (length (split coop)) 1.
Proof.
  destruct (wildcard_matches_command coop "feeder") as [F1 F2];
    [reflexivity|discriminate|discriminate|].
  destruct (wildcard_matches_command coop (CoopControls.systemName s)) as [C1 C2];
    [now destruct s|now destruct s|now destruct s|].
  unfold FeederControl.commandTopic, CoopControls.commandTopic.
  now repeat split.
Qed.

Section DeviceIds.

Import MqttSubscribe.

Lemma oneSegment_length (s : string) : oneSegment s -> length (split s) = 1%nat.
Proof. unfold oneSegment. now intros ->. Qed.

(** X28.  The device a topic is attributed to.  For the documented
    shapes [devices/<id>/..], [sensors/<location>/<id>/..] and
    [home/<room>/<type>/<id>/..] it is the segment [<id>], whatever it
    is, the empty segment included.  For a topic [<id>/data] outside
    these shapes it is [<id>] only if [<id>] has at least three
    characters, all of them letters, digits, underscores or hyphens;
    otherwise the word [data] is reported as the device. *)
Theorem device_of_topic (id location room kind more : string) :
  oneSegment id -> oneSegment location -> oneSegment room -> oneSegment kind ->
  extractDeviceId ("devices/" +:+ id +:+ "/" +:+ more) = id
  /\ extractDeviceId ("sensors/" +:+ location +:+ "/" +:+ id +:+ "/" +:+ more) = id
  /\ extractDeviceId ("home/" +:+ room +:+ "/" +:+ kind +:+ "/" +:+ id
                      +:+ "/" +:+ more) = id
  /\ (id <> "devices" ->
      extractDeviceId (id +:+ "/data")
      = if looksLikeDeviceId id then id else "data").
Proof.
  intros Hid Hloc Hroom Hkind. unfold extractDeviceId.
  pose proof (split_nonempty more) as Hmore. repeat split.
  - change ("devices/" +:+ id +:+ "/" +:+ more)
      with ("devices" +:+ "/" +:+ (id +:+ "/" +:+ more)).
    rewrite !split_append_slash, Hid.
    destruct (split more) as [|m ms]; [contradiction|]. reflexivity.
  - change ("sensors/" +:+ location +:+ "/" +:+ id +:+ "/" +:+ more)
      with ("sensors" +:+ "/" +:+ (location +:+ "/" +:+ (id +:+ "/" +:+ more))).
    rewrite !split_append_slash, Hid, Hloc.
    destruct (split more) as [|m ms]; [contradiction|]. reflexivity.
  - change ("home/" +:+ room +:+ "/" +:+ kind +:+ "/" +:+ id +:+ "/" +:+ more)
      with ("home" +:+ "/" +:+ (room +:+ "/" +:+ (kind +:+ "/"
                                                  +:+ (id +:+ "/" +:+ more)))).
    rewrite !split_append_slash, Hid, Hroom, Hkind.
    destruct (split more) as [|m ms]; [contradiction|]. reflexivity.
  - intros Hnot.
    change (id +:+ "/data") with (id +:+ "/" +:+ "data").
    rewrite split_append_slash, Hid.
    change (split "data") with ["data"]. cbn [app nth length].
    apply String.eqb_neq in Hnot. rewrite Hnot.
    cbn [andb Nat.leb].
    replace (String.eqb id "sensors" && false) with false
      by now rewrite Bool.andb_false_r.
    replace (String.eqb id "home" && false) with false
      by now rewrite Bool.andb_false_r.
    cbn [List.find]. destruct (looksLikeDeviceId id); reflexivity.
Qed.

End DeviceIds.

(** The kitchen thermometer, and a sensor with a two-letter name. *)
Lemma device_of_topic_kitchen :
  MqttSubscribe.extractDeviceId "home/kitchen/thermo/t-1/state" = "t-1"
  /\ MqttSubscribe.extractDeviceId "d1/data" = "data".
Proof.
  destruct (device_of_topic "t-1" "x" "kitchen" "thermo" "state")
    as (_ & _ & Hhome & _); try reflexivity.
  destruct (device_of_topic "d1" "x" "x" "x" "x") as (_ & _ & _ & Hshort);
    try reflexivity.
  split; [exact Hhome|]. apply Hshort. discriminate.
Defined.

(** ** The memory bridge *)

Section BridgeRoundTrip.

Import MqttTools.

(** X29.  Disabling the bridge undoes enabling it.  On a connected
    client, with the bridge disabled, [enable] attaches one closure
    behind the listeners already there; [disable] then removes exactly
    that closure, so that the client, its listeners, the registry and
    the bridge's bindings are what they were before, and messages are
    stored as before.  While the client is not connected [enable] fails
    and changes nothing. *)
Theorem disable_undoes_enable (st : State) (c : Client) :
  wired st -> mqttClient st = Some c -> bridgeEnabled st = false ->
  let enabled := fst (bridge Enable st) in
  let disabled := fst (bridge Disable enabled) in
  (connected c = false ->
   bridge Enable st
   = (st, {| bridge_success := false;
             bridge_status := "MQTT client not connected. Connect first.";
             enabled := false |}))
  /\ (connected c = true ->
      mqttClient enabled
      = Some {| connected := true;
                messageListeners :=
                  messageListeners c ++ [BridgeHandler (nextClosure st)] |}
      /\ bridgeEnabled enabled = true
      /\ mqttClient disabled = mqttClient st
      /\ subscriptions disabled = subscriptions st
      /\ bridgeEnabled disabled = bridgeEnabled st
      /\ messageHandler disabled = messageHandler st).
Proof.
  intros (Hnd & Hflag & Hshape) Hc Hoff enabled disabled.
  rewrite Hc in Hshape.
  assert (Hnone : messageHandler st = None).
  { destruct (messageHandler st) eqn:Hh; [|reflexivity].
    assert (bridgeEnabled st = true) by (apply Hflag; discriminate).
    congruence. }
  split.
  - intros Hdown. unfold bridge. now rewrite Hc, Hdown.
  - intros Hup.
    assert (Hen : enabled
                  = {| mqttClient := Some (on (BridgeHandler (nextClosure st)) c);
                       subscriptions := subscriptions st;
                       bridgeEnabled := true;
                       messageHandler := Some (nextClosure st);
                       nextClosure := S (nextClosure st) |}).
    { subst enabled. unfold bridge. now rewrite Hc, Hup, Hoff. }
    subst disabled. rewrite Hen. unfold bridge.
    cbn [fst mqttClient subscriptions bridgeEnabled messageHandler negb].
    rewrite Hc, Hoff, Hnone. unfold on. rewrite Hup.
    repeat split. f_equal. unfold removeListener. cbn [messageListeners connected].
    destruct c as [up ls]. cbn [messageListeners connected] in *. subst up.
    destruct Hshape as [->|[->|(h & Hh & _)]]; [| |congruence];
      simpl; now rewrite Nat.eqb_refl.
Qed.

End BridgeRoundTrip.

(** The bridge is enabled and disabled again while the coop
    subscription is registered. *)
Lemma disable_undoes_enable_coop :
  let st := fst (MqttTools.execute ackAll subscribeCoop justConnected) in
  MqttTools.mqttClient
    (fst (MqttTools.bridge MqttTools.Disable
            (fst (MqttTools.bridge MqttTools.Enable st))))
  = Some {| MqttTools.connected := true;
            MqttTools.messageListeners := [MqttTools.HandleMessage] |}.
Proof.
  intros st.
  destruct (disable_undoes_enable st
              {| MqttTools.connected := true;
                 MqttTools.messageListeners := [MqttTools.HandleMessage] |})
    as (_ & Hround).
  - apply execute_wired, connection_wired, wired_initial.
  - reflexivity.
  - reflexivity.
  - destruct (Hround eq_refl) as (_ & _ & Hclient & _). exact Hclient.
Defined.

(** ** From the broker to the evaluator *)

Section Pipeline.

Variable JSON_parse : string -> option JSON.

Lemma handleMessage_takers (topic0 raw : string) (now : Z)
    (subs : MqttSubscribe.subscriptions) (store : sensorMemoryStore) :
  MqttSubscribe.handleMessage JSON_parse topic0 raw now subs store
  = Nat.iter (takers JSON_parse topic0 raw subs)
             (addSensorData topic0 (MqttSubscribe.parseMessage JSON_parse raw)
                            (analysisOf JSON_parse topic0 raw) now)
             store.
Proof.
  unfold MqttSubscribe.handleMessage, takers. revert store.
  induction subs as [|[k v] subs IH]; intros store; [reflexivity|].
  cbn [List.filter fst snd].
  destruct (MqttSubscribe.topicMatches topic0 k); cbn [andb]; [|apply IH].
  cbn [List.map fold_left snd]. rewrite IH, deliver_accepts.
  destruct (MqttSubscribe.accepts JSON_parse raw v); [|reflexivity].
  cbn [length]. now rewrite Nat.iter_succ_r.
Qed.

Lemma takers_positive (topic0 raw key : string)
    (sub : MqttSubscribe.Subscription) (subs : MqttSubscribe.subscriptions) :
  In (key, sub) subs -> MqttSubscribe.topicMatches topic0 key = true ->
  MqttSubscribe.accepts JSON_parse raw sub = true ->
  (0 < takers JSON_parse topic0 raw subs)%nat.
Proof.
  intros Hin Hm Ha. unfold takers.
  assert (H : In (key, sub)
                (List.filter
                   (fun kv => MqttSubscribe.topicMatches topic0 (fst kv)
                              && MqttSubscribe.accepts JSON_parse raw (snd kv))
                   subs))
    by (apply List.filter_In; split; [exact Hin|simpl; now rewrite Hm, Ha]).
  destruct (List.filter _ subs); [contradiction|simpl; lia].
Qed.

Lemma pushAndTrim_In (e x : SensorEvent) (store : sensorMemoryStore) :
  In x (pushAndTrim e store) -> x = e \/ In x store.
Proof.
  unfold pushAndTrim. destruct (100 <? length (store ++ [e]))%nat.
  - destruct store as [|y store]; simpl; [contradiction|].
    intros H. apply List.in_app_or in H as [H|[H|[]]]; auto.
  - intros H. apply List.in_app_or in H as [H|[H|[]]]; auto.
Qed.

Lemma iter_push_In (n : nat) (e x : SensorEvent) (store : sensorMemoryStore) :
  In x (Nat.iter n (pushAndTrim e) store) -> x = e \/ In x store.
Proof.
  induction n as [|n IH]; simpl; [auto|].
  intros H. apply pushAndTrim_In in H as [H|H]; auto.
Qed.

Lemma iter_push_has (n : nat) (e : SensorEvent) (store : sensorMemoryStore) :
  (0 < n)%nat -> In e (Nat.iter n (pushAndTrim e) store).
Proof.
  destruct n as [|n]; [lia|]. intros _. simpl.
  destruct (pushAndTrim_last e (Nat.iter n (pushAndTrim e) store)) as (front & ->).
  apply List.in_or_app. right. now left.
Qed.

(** X30.  A temperature message reaches the evaluator.  When a message
    whose payload parses to an object with a numeric [temperature]
    arrives under a topic containing "temp", and at least one
    subscription matches the topic and accepts the message, then the
    next call of the evaluator that passes the limiter and misses the
    cache, made within two minutes, returns that temperature with the
    arrival time of the message and classifies it against the bounds of
    the call, whichever coop is asked for, provided the store was
    readable and held nothing as recent as the message. *)
Theorem delivered_reading_is_evaluated (subs : MqttSubscribe.subscriptions)
    (key : string) (sub : MqttSubscribe.Subscription) (topic0 raw : string)
    (props : list (string * JSON)) (t : Q) (arrival : Z)
    (store : sensorMemoryStore) (minSafe maxSafe : Q) (coopId : string)
    (env : CoopTempAlert.Env) (st : CoopTempAlert.State) :
  In (key, sub) subs ->
  MqttSubscribe.topicMatches topic0 key = true ->
  MqttSubscribe.accepts JSON_parse raw sub = true ->
  includes "temp" topic0 = true ->
  JSON_parse raw = Some (JObj props) ->
  assoc "temperature" props = Some (JNum t) ->
  readableStore store ->
  (forall e, In e store -> timestamp e < arrival) ->
  5000 <= CoopTempAlert.now env - CoopTempAlert.lastCallTime st ->
  cacheMiss coopId env (CoopTempAlert.tempCache st) ->
  CoopTempAlert.now env - arrival <= 2 * 60 * 1000 ->
  let store' :=
    MqttSubscribe.handleMessage JSON_parse topic0 raw arrival subs store in
  exists m,
    snd (CoopTempAlert.execute minSafe maxSafe coopId env store' st)
    = CoopTempAlert.Ok
        {| CoopTempAlert.current := JNum t;
           CoopTempAlert.status := fst (CoopTempAlert.classify t minSafe maxSafe);
           CoopTempAlert.message := m;
           CoopTempAlert.out_timestamp := arrival |}.
Proof.
  intros Hin Hmatch Hacc Htemp Hparse Hprop Hread Hold Hpass Hmiss Hage store'.
  set (e := {| topic := topic0; data := JObj props; timestamp := arrival;
               analysis := analysisOf JSON_parse topic0 raw |}).
  assert (Hstore : store' = Nat.iter (takers JSON_parse topic0 raw subs)
                                     (pushAndTrim e) store).
  { subst store'. rewrite handleMessage_takers.
    unfold MqttSubscribe.parseMessage. rewrite Hparse. reflexivity. }
  assert (Hhas : In e store')
    by (rewrite Hstore; apply iter_push_has;
        now apply (takers_positive topic0 raw key sub)).
  assert (Hfrom : forall x, In x store' -> x = e \/ In x store)
    by (intros x; rewrite Hstore; apply iter_push_In).
  assert (Hcarries : carriesTemperature e).
  { split; [exact Htemp|]. exists (JNum t). simpl. now rewrite Hprop. }
  assert (Hreading : CoopTempAlert.readingOf e
                     = {| CoopTempAlert.temperature := JNum t;
                          CoopTempAlert.timestamp := arrival;
                          CoopTempAlert.source := "mqtt-shared-memory" |}).
  { unfold CoopTempAlert.readingOf. simpl. now rewrite Hprop. }
  assert (Hfetch : CoopTempAlert.fetchFromSharedMemory coopId store'
                   = CoopTempAlert.FetchReading (CoopTempAlert.readingOf e)).
  { pose proof (fetch_cases coopId store') as Hcases.
    destruct (CoopTempAlert.fetchFromSharedMemory coopId store') as [| |r].
    - destruct Hcases as (x & Hx & Htopic & Hnull).
      apply Hfrom in Hx as [->|Hx]; [discriminate|].
      exfalso. apply (Hread x Hx). now split.
    - exfalso. exact (Hcases e Hhas Hcarries).
    - destruct Hcases as (x & Hx & _ & Hnewest & ->).
      apply Hfrom in Hx as [->|Hx]; [reflexivity|].
      specialize (Hnewest e Hhas Hcarries). apply Hold in Hx.
      simpl in Hnewest. lia. }
  unfold CoopTempAlert.execute.
  replace (CoopTempAlert.now env - CoopTempAlert.lastCallTime st
           <? CoopTempAlert.RATE_LIMIT_INTERVAL) with false
    by (symmetry; apply Z.ltb_ge; unfold CoopTempAlert.RATE_LIMIT_INTERVAL; lia).
  rewrite (getLatestTemperature_miss coopId env store' _ _ Hmiss Hfetch), Hreading.
  cbn [CoopTempAlert.timestamp CoopTempAlert.temperature].
  replace (CoopTempAlert.STALE_DATA_THRESHOLD <? CoopTempAlert.now env - arrival)
    with false
    by (symmetry; apply Z.ltb_ge; unfold CoopTempAlert.STALE_DATA_THRESHOLD; lia).
  destruct (CoopTempAlert.classify t minSafe maxSafe) as [s m]. now exists m.
Qed.

End Pipeline.

(** A reading of 71 degrees arrives for the main coop at 9000 ms and the
    north coop is asked for at 10000 ms. *)
Lemma delivered_reading_is_evaluated_71 :
  let store := MqttSubscribe.handleMessage temperatureParse
                 "coop/main/temperature" temperatureText 9000
                 [("coop/#", everything)] northStore in
  statusOf (CoopTempAlert.exec CoopTempAlert.initialState
              (callAt "north" 10000 store))
  = Some CoopTempAlert.OK.
Proof.
  intros store.
  destruct (delivered_reading_is_evaluated temperatureParse
              [("coop/#", everything)] "coop/#" everything
              "coop/main/temperature" temperatureText
              [("temperature", JNum 71)] 71 9000 northStore 35 95 "north"
              (CoopTempAlert.call_env (callAt "north" 10000 []))
              CoopTempAlert.initialState) as (m & Hrun).
  - now left.
  - reflexivity.
  - reflexivity.
  - reflexivity.
  - reflexivity.
  - reflexivity.
  - intros e [<-|[<-|[]]]; split;
      try (intros [_ Hnull]; discriminate).
    + intros _. now exists 41%Q.
    + intros [Htopic _]. vm_compute in Htopic. discriminate.
  - intros e [<-|[<-|[]]]; reflexivity.
  - vm_compute. discriminate.
  - exact I.
  - vm_compute. discriminate.
  - unfold statusOf, CoopTempAlert.exec.
    cbn [CoopTempAlert.call_minSafe CoopTempAlert.call_maxSafe
         CoopTempAlert.call_coopId CoopTempAlert.call_env
         CoopTempAlert.call_store callAt].
    subst store. cbn [CoopTempAlert.call_env callAt] in Hrun.
    rewrite Hrun. reflexivity.
Defined.

